(** * Route risk evaluation and ranking: a shallow embedding

    The development follows the Python sources of the backend:
    - [tools/route_calculator.py]  (segmentation, route time),
    - [tools/weather_forecast.py]  (weather simulator and its walk),
    - [tools/maritime_traffic.py]  (traffic simulator and its walk),
    - [agents/news_analyzer_agent.py] (event simulator and its walk),
    - [agents/forecast_agent.py]   (route analysis, scoring, ranking).

    Conventions of the embedding.
    - A Python [float] is an exact rational ([Q]); results are compared with
      [==].  [round(x, n)] rounds the exact value half to even.
    - A dict with a fixed set of keys is a record, one module per dict so
      that the keys keep their names; a key that may be absent is an [option].
    - The category labels "Low", "Medium", "High", "Critical" are the
      constructors of [Level].
    - An exception is the left injection of a sum; code that draws from
      [random] runs in a state-and-exception monad over a tape of draws.
    - Fields that only carry report text (descriptions, recommendations,
      summaries) are left out of the records.
    - A departure date is the day that its text denotes; the parsing of the
      text, the reading of the CSV files and the wall clock are outside the
      model.
    - Numbers are Python's own: [/] raises ZeroDivisionError at 0.  A cell
      that pandas hands over as a numpy scalar, on which a division by 0
      gives inf or nan, is read as the Python number of the same value.
      Dates are not bounded by the calendar's range. *)

From Stdlib Require Import QArith Qround Qabs Qminmax ZArith List String Ascii Bool Lia.
From Stdlib Require Import Permutation Sorted DecimalString Morphisms Setoid Lqa.
Import ListNotations.

Local Open Scope Q_scope.

(** ** Numbers *)

(** Python's [max(a, b)]: the first argument unless the second is greater. *)
Definition py_max (a b : Q) : Q :=
  match b ?= a with Gt => b | _ => a end.

(** Python's [min] over a generator, [None] standing for the [ValueError]
    of an empty sequence: the first least element. *)
Fixpoint py_min_from (m : Q) (l : list Q) : Q :=
  match l with
  | [] => m
  | x :: l' => py_min_from (match x ?= m with Lt => x | _ => m end) l'
  end.

Definition py_min (l : list Q) : option Q :=
  match l with
  | [] => None
  | x :: l' => Some (py_min_from x l')
  end.

(** Python's [sum] of numbers. *)
Definition py_sum (l : list Q) : Q := fold_left Qplus l 0.

(** Rounding to the nearest integer, ties to even. *)
Definition round_half_even (x : Q) : Z :=
  let f := Qfloor x in
  match ((x - inject_Z f) ?= (1 # 2))%Q with
  | Lt => f
  | Gt => (f + 1)%Z
  | Eq => if Z.even f then f else (f + 1)%Z
  end.

(** [round(x, ndigits)]. *)
Definition py_round (x : Q) (ndigits : nat) : Q :=
  let scale := inject_Z (10 ^ Z.of_nat ndigits) in
  inject_Z (round_half_even (x * scale)) / scale.

(** [int(x)]: truncation toward zero. *)
Definition py_int (x : Q) : Z :=
  match (x ?= 0)%Q with
  | Lt => Qceiling x
  | _ => Qfloor x
  end.

Definition Qltb (a b : Q) : bool :=
  match a ?= b with Lt => true | _ => false end.

(** ** Exceptions *)

Inductive exn : Type :=
| ZeroDivisionError
| IndexError
| ValueError.

Definition Res (A : Type) : Type := (exn + A)%type.

Definition ok {A} (a : A) : Res A := inr a.
Definition raise {A} (e : exn) : Res A := inl e.

Definition bindR {A B} (r : Res A) (k : A -> Res B) : Res B :=
  match r with
  | inl e => inl e
  | inr a => k a
  end.

Notation "'let?' x ':=' r 'in' k" := (bindR r (fun x => k))
  (at level 10, x pattern, r at level 100, k at level 200).

(** Python's [/] on numbers. *)
Definition py_div (a b : Q) : Res Q :=
  if Qeq_bool b 0 then raise ZeroDivisionError else ok (a / b).

(** ** The random source

    The generator behind [random] is a tape of raw draws read from a
    cursor.  [random.random()] is the fractional part of the next entry, so
    every tape yields draws in [[0, 1)]. *)

Record Rng : Type := mkRng { draws : nat -> Q; cursor : nat }.

Definition M (A : Type) : Type := Rng -> Res (A * Rng).

Definition ret {A} (a : A) : M A := fun g => inr (a, g).

Definition throw {A} (e : exn) : M A := fun _ => inl e.

Definition bind {A B} (m : M A) (k : A -> M B) : M B :=
  fun g =>
    match m g with
    | inl e => inl e
    | inr (a, g') => k a g'
    end.

Definition lift {A} (r : Res A) : M A :=
  fun g => match r with inl e => inl e | inr a => inr (a, g) end.

Notation "'let*' x ':=' m 'in' k" := (bind m (fun x => k))
  (at level 10, x pattern, m at level 100, k at level 200).

Definition frac (x : Q) : Q := x - inject_Z (Qfloor x).

Module random.

Definition random : M Q :=
  fun g => inr (frac (draws g (cursor g)), mkRng (draws g) (S (cursor g))).

(** [a + (b - a) * random()] *)
Definition uniform (a b : Q) : M Q :=
  let* u := random in ret (a + (b - a) * u).

(** An integer below [n], for [0 < n]. *)
Definition randbelow (n : Z) : M Z :=
  let* u := random in ret (Qfloor (u * inject_Z n)%Q).

(** [randint(a, b)]: an integer of [[a, b]]. *)
Definition randint (a b : Z) : M Z :=
  let* k := randbelow (b - a + 1) in ret (a + k)%Z.

(** [choice(seq)]: [IndexError] on an empty sequence. *)
Definition choice {A} (seq : list A) : M A :=
  match seq with
  | [] => throw IndexError
  | x :: _ =>
      let* k := randbelow (Z.of_nat (List.length seq)) in
      ret (nth (Z.to_nat k) seq x)
  end.

(** [bisect_right(a, x, 0, hi)] on the first [hi] entries of [a]. *)
Fixpoint bisect (a : list Q) (x : Q) (hi : nat) : nat :=
  match hi, a with
  | S hi', y :: a' => if Qltb x y then O else S (bisect a' x hi')
  | _, _ => O
  end.

Fixpoint accumulate (acc : Q) (w : list Q) : list Q :=
  match w with
  | [] => []
  | x :: w' => (acc + x) :: accumulate (acc + x) w'
  end.

(** [choices(population, weights=weights)[0]] *)
Definition choices {A} (population : list A) (weights : list Q) : M A :=
  match population with
  | [] => throw IndexError
  | x :: _ =>
      let cum_weights := accumulate 0 weights in
      let total := last cum_weights 0 in
      let* u := random in
      ret (nth (bisect cum_weights (u * total) (List.length population - 1))
               population x)
  end.

End random.

(** ** Labels, dates, waypoints and segments *)

Inductive Level : Type := Low | Medium | High | Critical.

Definition Level_eqb (a b : Level) : bool :=
  match a, b with
  | Low, Low | Medium, Medium | High, High | Critical, Critical => true
  | _, _ => false
  end.

(** A date is the ordinal of its day; a [datetime] counts microseconds from
    the midnight of day 0.  [departure_date] is taken as the day its
    "%Y-%m-%d" text denotes. *)
Definition date : Type := Z.
Definition datetime : Type := Z.

Definition us_per_hour : Z := 3600000000.
Definition us_per_day : Z := 86400000000.

(** [datetime.strptime(d, "%Y-%m-%d")]: midnight of that day. *)
Definition strptime (d : date) : datetime := (d * us_per_day)%Z.

(** [timedelta(hours=h)], rounded to the microsecond. *)
Definition timedelta_hours (h : Q) : Z :=
  round_half_even (h * inject_Z us_per_hour).

(** [t.strftime("%Y-%m-%d")]: the day of [t]. *)
Definition strftime (t : datetime) : date := (t / us_per_day)%Z.

Module Waypoint.
Record t : Type := mk {
  waypoint_id : string;
  type : string;
  latitude : Q;
  longitude : Q;
  port_name : option string
}.
End Waypoint.

Module Segment.
Record t : Type := mk {
  segment_id : string;
  waypoints : list Waypoint.t;
  coordinates : list (Q * Q);
  distance_nm : option Q
}.
End Segment.

(** [segment.get("distance_nm", 100)] *)
Definition segment_distance (s : Segment.t) : Q :=
  match Segment.distance_nm s with
  | Some d => d
  | None => 100
  end.

(** [for x in xs: out.append(f(x))] in the monad. *)
Fixpoint mapM {A B} (f : A -> M B) (xs : list A) : M (list B) :=
  match xs with
  | [] => ret []
  | x :: xs' =>
      let* y := f x in
      let* ys := mapM f xs' in
      ret (y :: ys)
  end.

(** ** Weather simulator: [tools/weather_forecast.py] *)

Inductive Condition : Type :=
| Clear | PartlyCloudy | Overcast | LightRain | HeavyRain | Fog | Stormy.

Inductive SeaState : Type :=
| Calm | Slight | Moderate | Rough | VeryRough | HighSeas.

Definition Condition_eqb (a b : Condition) : bool :=
  match a, b with
  | Clear, Clear | PartlyCloudy, PartlyCloudy | Overcast, Overcast
  | LightRain, LightRain | HeavyRain, HeavyRain | Fog, Fog
  | Stormy, Stormy => true
  | _, _ => false
  end.

Definition weather_conditions : list Condition :=
  [Clear; PartlyCloudy; Overcast; LightRain; HeavyRain; Fog; Stormy].

Definition sea_states : list SeaState :=
  [Calm; Slight; Moderate; Rough; VeryRough; HighSeas].

Module Metrics.
Record t : Type := mk {
  temperature_celsius : Q;
  humidity_percent : Z;
  wind_speed_knots : Q;
  wave_height_meters : Q;
  visibility_km : Q;
  pressure_mb : Z;
  sea_state : SeaState
}.
End Metrics.

Module PointForecast.
Record t : Type := mk {
  location : Q * Q;
  date : date;
  condition : Condition;
  described_seas : SeaState;
  metrics : Metrics.t;
  warnings : list string
}.
End PointForecast.

Module SegmentSummary.
(** [predominant_condition] lists the most frequent conditions: the source
    takes [max] over a set of them, whose iteration order is not fixed.
    The empty list is the label "Unknown". *)
Record t : Type := mk {
  predominant_condition : list Condition;
  average_wind_speed : Q;
  average_wave_height : Q;
  risk_level : Level
}.
End SegmentSummary.

Module WeatherForecast.
Record t : Type := mk {
  segment_id : string;
  forecast_date : date;
  points_analyzed : nat;
  forecasts : list PointForecast.t;
  segment_summary : SegmentSummary.t;
  estimated_arrival : option datetime;
  hours_from_departure : option Q
}.

Definition arrive (f : t) (at_ : datetime) (hours : Q) : t :=
  mk (segment_id f) (forecast_date f) (points_analyzed f) (forecasts f)
     (segment_summary f) (Some at_) (Some hours).
End WeatherForecast.

Definition severity_factor (c : Condition) : Q :=
  match c with
  | Stormy => 5 # 2
  | HeavyRain => 2
  | Fog => 3 # 2
  | _ => 1
  end.

Definition weather_warnings (c : Condition) (m : Metrics.t) : list string :=
  (if Qltb 40 (Metrics.wind_speed_knots m) then ["High wind warning"%string] else [])
  ++ (if Qltb 5 (Metrics.wave_height_meters m) then ["High seas warning"%string] else [])
  ++ (if Qltb (Metrics.visibility_km m) 2 then ["Low visibility warning"%string] else [])
  ++ (if Condition_eqb c Stormy
      then ["Storm warning - consider route diversion"%string] else []).

(** The body of the loop over the coordinates. *)
Definition point_forecast (forecast_date : date) (c : Q * Q) : M PointForecast.t :=
  let '(lat, lon) := c in
  let temp_base := 25 - Qabs lat / 4 in
  let* condition := random.choice weather_conditions in
  let factor := severity_factor condition in
  let* seas := random.choice sea_states in
  let* dt := random.uniform (-5) 5 in
  let* humidity := random.randint 40 95 in
  let* wind := random.uniform 5 30 in
  let* wave := random.uniform (1 # 2) 4 in
  let* vis := random.uniform 2 20 in
  let* pressure := random.randint 990 1030 in
  let* sea := random.choice sea_states in
  let m := Metrics.mk (py_round (temp_base + dt) 1) humidity
             (py_round (wind * factor) 1) (py_round (wave * factor) 1)
             (py_round (vis / factor) 1) pressure sea in
  ret (PointForecast.mk (lat, lon) forecast_date condition seas m
         (weather_warnings condition m)).

Definition count_condition (c : Condition) (l : list Condition) : nat :=
  List.length (filter (Condition_eqb c) l).

Definition most_frequent (l : list Condition) : list Condition :=
  let top := fold_right Nat.max O (map (fun c => count_condition c l) l) in
  filter (fun c => andb (Nat.ltb 0 top) (Nat.eqb (count_condition c l) top))
         weather_conditions.

Definition mean_or_zero (l : list Q) : Q :=
  match l with
  | [] => 0
  | _ => py_sum l / inject_Z (Z.of_nat (List.length l))
  end.

Definition weather_risk (avg_wind avg_waves : Q) : Level :=
  if orb (Qltb 35 avg_wind) (Qltb 4 avg_waves) then High
  else if orb (Qltb 25 avg_wind) (Qltb 3 avg_waves) then Medium
  else Low.

Definition get_weather_forecast (coordinates : list (Q * Q))
    (forecast_date : date) (segment_id : string) : M WeatherForecast.t :=
  let* forecasts := mapM (point_forecast forecast_date) coordinates in
  let winds := map (fun f => Metrics.wind_speed_knots (PointForecast.metrics f)) forecasts in
  let waves := map (fun f => Metrics.wave_height_meters (PointForecast.metrics f)) forecasts in
  let avg_wind := mean_or_zero winds in
  let avg_waves := mean_or_zero waves in
  let risk_level := weather_risk avg_wind avg_waves in
  ret (WeatherForecast.mk segment_id forecast_date (List.length coordinates)
         forecasts
         (SegmentSummary.mk (most_frequent (map PointForecast.condition forecasts))
            (py_round avg_wind 1) (py_round avg_waves 1) risk_level)
         None None).

(** The loop of [get_extended_forecast], with [cumulative_distance] as the
    accumulator.  The weather walk advances by distance over the base speed. *)
Fixpoint extended_forecast_loop (departure : datetime) (vessel_speed_knots : Q)
    (cumulative_distance : Q) (route_segments : list Segment.t)
    : M (list WeatherForecast.t) :=
  match route_segments with
  | [] => ret []
  | segment :: rest =>
      let hours_to_segment :=
        if Qltb 0 vessel_speed_knots
        then cumulative_distance / vessel_speed_knots else 0 in
      let segment_date := (departure + timedelta_hours hours_to_segment)%Z in
      let* forecast :=
        get_weather_forecast (Segment.coordinates segment)
          (strftime segment_date) (Segment.segment_id segment) in
      let forecast :=
        WeatherForecast.arrive forecast segment_date (py_round hours_to_segment 1) in
      let* others :=
        extended_forecast_loop departure vessel_speed_knots
          (cumulative_distance + segment_distance segment) rest in
      ret (forecast :: others)
  end.

Definition get_extended_forecast (route_segments : list Segment.t)
    (departure_date : date) (vessel_speed_knots : Q) : M (list WeatherForecast.t) :=
  extended_forecast_loop (strptime departure_date) vessel_speed_knots 0 route_segments.

(** ** Traffic simulator: [tools/maritime_traffic.py] *)

Inductive HourLoad : Type := HourHigh | HourNormal.

Module TrafficSummary.
Record t : Type := mk {
  total_vessels_24h : Z;
  vessels_by_type : list (string * Z);
  congestion_level : Level;
  traffic_density : Q;
  average_speed_reduction_knots : Q
}.
End TrafficSummary.

Module HourlyTraffic.
Record t : Type := mk {
  hour : Z;
  vessel_count : Z;
  congestion : HourLoad
}.
End HourlyTraffic.

Module NavigationImpact.
(** [recommended_speed_adjustment] is the reduction the text
    "-x.x knots" shows, [None] for the text "None". *)
Record t : Type := mk {
  collision_risk : Level;
  recommended_speed_adjustment : option Q;
  estimated_delay_minutes : Z
}.
End NavigationImpact.

Module Traffic.
Record t : Type := mk {
  segment_id : string;
  analysis_date : date;
  coordinates_analyzed : nat;
  traffic_summary : TrafficSummary.t;
  hourly_distribution : list HourlyTraffic.t;
  navigation_impact : NavigationImpact.t;
  alerts : list string;
  estimated_arrival : option datetime;
  hours_from_departure : option Q;
  effective_speed_knots : option Q
}.

Definition arrive (x : t) (at_ : datetime) (hours speed : Q) : t :=
  mk (segment_id x) (analysis_date x) (coordinates_analyzed x)
     (traffic_summary x) (hourly_distribution x) (navigation_impact x)
     (alerts x) (Some at_) (Some hours) (Some speed).
End Traffic.

Definition vessel_types : list (string * Q) :=
  [("Container", 4 # 10); ("Tanker", 25 # 100); ("Bulk Carrier", 2 # 10);
   ("General Cargo", 1 # 10); ("Other", 5 # 100)]%string.

Definition is_major_lane (lat_avg : Q) : bool :=
  (Qltb (-10) lat_avg && Qltb lat_avg 10)
  || (Qltb 30 lat_avg && Qltb lat_avg 40)
  || (Qltb (-35) lat_avg && Qltb lat_avg (-25)).

Definition congestion_of (total_vessels : Z) : Level :=
  if (60 <? total_vessels)%Z then High
  else if (40 <? total_vessels)%Z then Medium
  else Low.

Definition hour_multiplier (hour : Z) : Q :=
  if ((6 <=? hour) && (hour <=? 18))%Z then 12 # 10
  else if ((22 <=? hour) || (hour <=? 4))%Z then 7 # 10
  else 1.

(** The body of the loop over the 24 hours. *)
Definition hourly_entry (total_vessels : Z) (hour : Z) : M HourlyTraffic.t :=
  let* u := random.uniform (8 # 10) (12 # 10) in
  let hourly_count :=
    py_int (inject_Z total_vessels / 24 * hour_multiplier hour * u) in
  ret (HourlyTraffic.mk hour hourly_count
         (if Qltb (inject_Z total_vessels / 20) (inject_Z hourly_count)
          then HourHigh else HourNormal)).

Definition collision_risk_of (traffic_density : Q) (congestion_level : Level) : Level :=
  let collision_risk :=
    if Qltb 5 traffic_density && Level_eqb congestion_level High
    then Medium else Low in
  if Qltb 8 traffic_density then High else collision_risk.

(** [analyze_maritime_traffic].  The function returns the dict it builds,
    with ["alerts": []]; the statements that would fill [alerts] stand after
    that [return] and are never run. *)
Definition analyze_maritime_traffic (segment_id : string)
    (coordinates : list (Q * Q)) (analysis_date : date)
    (time_window_hours : Z) : M Traffic.t :=
  let n := inject_Z (Z.of_nat (List.length coordinates)) in
  let* lat_avg := lift (py_div (py_sum (map fst coordinates)) n) in
  let* lon_avg := lift (py_div (py_sum (map snd coordinates)) n) in
  let base_traffic := if is_major_lane lat_avg then 50%Z else 20%Z in
  let* delta := random.randint (-10) 20 in
  let total_vessels := (base_traffic + delta)%Z in
  let vessels_by_type :=
    map (fun vt => (fst vt, py_int (inject_Z total_vessels * snd vt))) vessel_types in
  let congestion_level := congestion_of total_vessels in
  let* port_proximity_factor := random.uniform (8 # 10) (15 # 10) in
  let* traffic_density := lift (py_div (inject_Z total_vessels) (n * 10)) in
  let* average_speed_reduction :=
    match congestion_level with
    | High => random.uniform 2 5
    | Medium => random.uniform (1 # 2) 2
    | _ => ret 0
    end in
  let* hourly_traffic :=
    mapM (hourly_entry total_vessels) (map Z.of_nat (seq 0 24)) in
  let collision_risk := collision_risk_of traffic_density congestion_level in
  ret (Traffic.mk segment_id analysis_date (List.length coordinates)
         (TrafficSummary.mk total_vessels vessels_by_type congestion_level
            (py_round traffic_density 2) (py_round average_speed_reduction 1))
         hourly_traffic
         (NavigationImpact.mk collision_risk
            (if Qltb 0 average_speed_reduction
             then Some (py_round average_speed_reduction 1) else None)
            (py_int (average_speed_reduction * 60 / 20)))
         [] None None None).

(** The loop of [get_traffic_forecast], with [cumulative_hours] as the
    accumulator. *)
Fixpoint traffic_forecast_loop (departure : datetime) (vessel_speed_knots : Q)
    (cumulative_hours : Q) (route_segments : list Segment.t)
    : M (list Traffic.t) :=
  match route_segments with
  | [] => ret []
  | segment :: rest =>
      let segment_date := (departure + timedelta_hours cumulative_hours)%Z in
      let* traffic :=
        analyze_maritime_traffic (Segment.segment_id segment)
          (Segment.coordinates segment) (strftime segment_date) 24 in
      let speed_reduction :=
        TrafficSummary.average_speed_reduction_knots (Traffic.traffic_summary traffic) in
      let effective_speed := py_max (vessel_speed_knots - speed_reduction) 10 in
      let traffic :=
        Traffic.arrive traffic segment_date cumulative_hours effective_speed in
      let* segment_hours := lift (py_div (segment_distance segment) effective_speed) in
      let* others :=
        traffic_forecast_loop departure vessel_speed_knots
          (cumulative_hours + segment_hours) rest in
      ret (traffic :: others)
  end.

Definition get_traffic_forecast (route_segments : list Segment.t)
    (departure_date : date) (vessel_speed_knots : Q) : M (list Traffic.t) :=
  traffic_forecast_loop (strptime departure_date) vessel_speed_knots 0 route_segments.

(** ** Event simulator: [agents/news_analyzer_agent.py] *)

Inductive EventType : Type :=
| geopolitical | natural | maritime | economic | infrastructure.

Module NewsTemplate.
Record t : Type := mk { type : EventType; events : list string }.
End NewsTemplate.

Definition news_templates : list NewsTemplate.t :=
  [ NewsTemplate.mk geopolitical
      ["Increased piracy activity reported"; "Naval exercises announced";
       "New shipping sanctions imposed"; "Port security alert issued"];
    NewsTemplate.mk natural
      ["Tropical storm formation detected"; "Severe weather warning issued";
       "Tsunami watch in effect"; "Hurricane tracking update"];
    NewsTemplate.mk maritime
      ["Container ship collision reported"; "Major port congestion developing";
       "Oil spill cleanup underway"; "Search and rescue operation ongoing"];
    NewsTemplate.mk economic
      ["Port workers strike announced"; "New cargo restrictions implemented";
       "Fuel price surge affecting operations"; "Trade route disruption expected"];
    NewsTemplate.mk infrastructure
      ["Canal maintenance scheduled"; "Port expansion causing delays";
       "Navigation channel dredging"; "Terminal equipment failure"] ]%string.

Module Impact.
Record t : Type := mk {
  estimated_delay_hours : Q;
  speed_reduction_knots : Q;
  risk_increase_percent : Q;
  route_viable : bool
}.
End Impact.

Module Duration.
Record t : Type := mk { start_date : date; end_date : date; days : Z }.
End Duration.

Module NewsItem.
Record t : Type := mk {
  id : string;
  date : date;
  type : EventType;
  headline : string;
  severity : Level;
  location : Q * Q;
  affected_radius_nm : Z;
  duration : Duration.t;
  impact : Impact.t;
  vessel_eta : option datetime;
  hours_from_departure : option Q
}.

Definition arrive (x : t) (at_ : datetime) (hours : Q) : t :=
  mk (id x) (date x) (type x) (headline x) (severity x) (location x)
     (affected_radius_nm x) (duration x) (impact x) (Some at_) (Some hours).
End NewsItem.

Definition low_or_medium (severity : Level) : bool :=
  match severity with Low | Medium => true | _ => false end.

Definition _generate_impact_assessment (severity : Level) (event_type : EventType)
    : Impact.t :=
  let '(delay_hours, speed_reduction, risk_increase) :=
    match severity with
    | Low => (1 # 2, 0, 5)
    | Medium => (2, 2, 15)
    | High => (6, 5, 30)
    | Critical => (24, 10, 50)
    end in
  let '(delay_hours, speed_reduction, risk_increase) :=
    match event_type with
    | natural => (delay_hours, speed_reduction * (3 # 2), risk_increase)
    | geopolitical => (delay_hours, speed_reduction, risk_increase * (3 # 2))
    | infrastructure => (delay_hours * 2, speed_reduction, risk_increase)
    | _ => (delay_hours, speed_reduction, risk_increase)
    end in
  Impact.mk delay_hours speed_reduction risk_increase (low_or_medium severity).

Definition impact_radius (severity : Level) : Z :=
  match severity with
  | Low => 50
  | Medium => 100
  | High => 200
  | Critical => 500
  end.

Definition decimal (n : Z) : string := NilZero.string_of_int (Z.to_int n).

(** The body of the loop over the events of one segment. *)
Definition news_item (segment_id : string) (segment_coordinates : list (Q * Q))
    (base_date : date) (days_before : Z) : M NewsItem.t :=
  let* event_type := random.choice news_templates in
  let* event_desc := random.choice (NewsTemplate.events event_type) in
  let* days_ago := random.randint 0 days_before in
  let event_date := (base_date - days_ago)%Z in
  let n := inject_Z (Z.of_nat (List.length segment_coordinates)) in
  let* center_lat := lift (py_div (py_sum (map fst segment_coordinates)) n) in
  let* center_lon := lift (py_div (py_sum (map snd segment_coordinates)) n) in
  let* severity :=
    random.choices [Low; Medium; High; Critical] [4 # 10; 3 # 10; 2 # 10; 1 # 10] in
  let* duration_days :=
    if low_or_medium severity then random.randint 1 7 else random.randint 3 14 in
  let* number := random.randint 1000 9999 in
  let* dlat := random.uniform (-2) 2 in
  let* dlon := random.uniform (-2) 2 in
  ret (NewsItem.mk ("news_" ++ segment_id ++ "_" ++ decimal number)%string
         event_date (NewsTemplate.type event_type) event_desc severity
         (py_round (center_lat + dlat) 4, py_round (center_lon + dlon) 4)
         (impact_radius severity)
         (Duration.mk event_date (event_date + duration_days)%Z duration_days)
         (_generate_impact_assessment severity (NewsTemplate.type event_type))
         None None).

(** [for _ in range(num_events)] *)
Fixpoint repeatM {A} (n : nat) (m : M A) : M (list A) :=
  match n with
  | O => ret []
  | S n' =>
      let* x := m in
      let* xs := repeatM n' m in
      ret (x :: xs)
  end.

Definition generate_news_for_segment (segment_id : string)
    (segment_coordinates : list (Q * Q)) (analysis_date : date)
    (days_before : Z) : M (list NewsItem.t) :=
  let base_date := analysis_date in
  let* num_events := random.randint 2 5 in
  repeatM (Z.to_nat num_events)
    (news_item segment_id segment_coordinates base_date days_before).

Module NewsAnalysis.
Record t : Type := mk {
  analysis_date : date;
  total_events : nat;
  events_by_severity : list (Level * nat);
  overall_risk_assessment : Level;
  news_items : list NewsItem.t
}.
End NewsAnalysis.

(** The loop of [analyze_route_news], with [cumulative_hours] as the
    accumulator.  The event walk advances at the base speed. *)
Fixpoint route_news_loop (departure : datetime) (vessel_speed_knots : Q)
    (cumulative_hours : Q) (route_segments : list Segment.t)
    : M (list NewsItem.t) :=
  match route_segments with
  | [] => ret []
  | segment :: rest =>
      let segment_date := (departure + timedelta_hours cumulative_hours)%Z in
      let* news_items :=
        generate_news_for_segment (Segment.segment_id segment)
          (Segment.coordinates segment) (strftime segment_date) 7 in
      let news_items :=
        map (fun item => NewsItem.arrive item segment_date cumulative_hours) news_items in
      let* segment_hours :=
        lift (py_div (segment_distance segment) vessel_speed_knots) in
      let* others :=
        route_news_loop departure vessel_speed_knots
          (cumulative_hours + segment_hours) rest in
      ret (news_items ++ others)
  end.

Definition with_severity (s : Level) (all_news : list NewsItem.t) : list NewsItem.t :=
  filter (fun n => Level_eqb (NewsItem.severity n) s) all_news.

Definition overall_news_risk (all_news : list NewsItem.t) : Level :=
  let critical_events := with_severity Critical all_news in
  let high_events := with_severity High all_news in
  match critical_events with
  | _ :: _ => Critical
  | [] =>
      if Nat.ltb 2 (List.length high_events) then High
      else match high_events with
           | _ :: _ => Medium
           | [] => Low
           end
  end.

Definition analyze_route_news (route_segments : list Segment.t)
    (departure_date : date) (vessel_speed_knots : Q) : M NewsAnalysis.t :=
  let* all_news :=
    route_news_loop (strptime departure_date) vessel_speed_knots 0 route_segments in
  ret (NewsAnalysis.mk departure_date (List.length all_news)
         [ (Critical, List.length (with_severity Critical all_news));
           (High, List.length (with_severity High all_news));
           (Medium, List.length (with_severity Medium all_news));
           (Low, List.length (with_severity Low all_news)) ]
         (overall_news_risk all_news) all_news).

(** ** Geometry and route data: [tools/route_calculator.py] *)

(** The functions of Python's [math] module that the distance formula
    calls, on the rationals that stand for floats. *)
Class MathLib : Type := {
  radians : Q -> Q;
  sin : Q -> Q;
  cos : Q -> Q;
  asin : Q -> Q;
  sqrt : Q -> Q
}.

Definition haversine_distance `{MathLib} (lat1 lon1 lat2 lon2 : Q) : Q :=
  let lat1 := radians lat1 in
  let lon1 := radians lon1 in
  let lat2 := radians lat2 in
  let lon2 := radians lon2 in
  let dlat := lat2 - lat1 in
  let dlon := lon2 - lon1 in
  let a := sin (dlat / 2) ^ 2 + cos lat1 * cos lat2 * sin (dlon / 2) ^ 2 in
  let c := 2 * asin (sqrt a) in
  6371 * c * (539957 # 1000000).

(** The rows of the CSV tables, as [load_route_data] reads them; a cell
    that [pd.notna] rejects is [None]. *)
Module WaypointRow.
Record t : Type := mk {
  Waypoint_ID : string;
  Latitude : Q;
  Longitude : Q;
  Waypoint_Type : string;
  Port_Name : option string
}.
End WaypointRow.

Module RouteRow.
Record t : Type := mk {
  Route_ID : string;
  Origin_Port : string;
  Destination_Port : string;
  Route_Type : string;
  Distance_NM : option Q;
  Waypoint_IDs : option string
}.
End RouteRow.

Module CarrierRow.
Record t : Type := mk {
  CARRIER_ID : string;
  CARRIER_NAME : string;
  SERVICE_TYPE : string;
  ORIGIN_PORT : string;
  DESTINATION_PORT : string;
  AVG_SPEED_KNOTS : Q
}.
End CarrierRow.

Module RouteData.
Record t : Type := mk {
  waypoints : list WaypointRow.t;
  routes : list RouteRow.t;
  carriers : list CarrierRow.t
}.
End RouteData.

Module Route.
Record t : Type := mk {
  route_id : string;
  route_type : string;
  total_distance_nm : Q;
  waypoint_count : nat;
  segments : list Segment.t;
  waypoints : list Waypoint.t
}.
End Route.

(** [s.split(",")] *)
Fixpoint split_comma (s : string) : list string :=
  match s with
  | EmptyString => [EmptyString]
  | String c s' =>
      if Ascii.eqb c ","%char then EmptyString :: split_comma s'
      else match split_comma s' with
           | h :: t => String c h :: t
           | [] => [String c EmptyString]
           end
  end.

(** The ASCII characters that [str.strip()] removes. *)
Definition is_space (c : ascii) : bool :=
  let n := nat_of_ascii c in
  (Nat.eqb n 32 || (Nat.leb 9 n && Nat.leb n 13) || (Nat.leb 28 n && Nat.leb n 31))%bool.

Fixpoint lstrip (s : string) : string :=
  match s with
  | EmptyString => EmptyString
  | String c s' => if is_space c then lstrip s' else s
  end.

Fixpoint rstrip (s : string) : string :=
  match s with
  | EmptyString => EmptyString
  | String c s' =>
      match rstrip s' with
      | EmptyString => if is_space c then EmptyString else String c EmptyString
      | r => String c r
      end
  end.

Definition strip (s : string) : string := rstrip (lstrip s).

Definition waypoint_of_row (r : WaypointRow.t) : Waypoint.t :=
  Waypoint.mk (WaypointRow.Waypoint_ID r) (WaypointRow.Waypoint_Type r)
    (WaypointRow.Latitude r) (WaypointRow.Longitude r) (WaypointRow.Port_Name r).

(** The loop over [enumerate(waypoint_ids)], from index [i] on.  The
    distance to the previous waypoint reads [route_waypoints[i-1]], an index
    into the waypoints found so far. *)
Fixpoint collect_waypoints `{MathLib} (table : list WaypointRow.t)
    (waypoint_ids : list string) (i : nat)
    (route_waypoints : list Waypoint.t) (total_distance : Q)
    : Res (list Waypoint.t * Q) :=
  match waypoint_ids with
  | [] => ok (route_waypoints, total_distance)
  | wp_id :: rest =>
      match filter (fun r => String.eqb (WaypointRow.Waypoint_ID r) (strip wp_id)) table with
      | [] => collect_waypoints table rest (S i) route_waypoints total_distance
      | wp_data :: _ =>
          let route_waypoints := route_waypoints ++ [waypoint_of_row wp_data] in
          if Nat.ltb 0 i then
            match nth_error route_waypoints (i - 1) with
            | None => raise IndexError
            | Some prev_wp =>
                let distance :=
                  haversine_distance
                    (Waypoint.latitude prev_wp) (Waypoint.longitude prev_wp)
                    (WaypointRow.Latitude wp_data) (WaypointRow.Longitude wp_data) in
                collect_waypoints table rest (S i) route_waypoints
                  (total_distance + distance)
            end
          else collect_waypoints table rest (S i) route_waypoints total_distance
      end
  end.

(** The points added between [start] and [end_], [j] from 1 to [num_points]. *)
Definition interpolated (start end_ : Waypoint.t) (num_points : nat) : list Waypoint.t :=
  map (fun j =>
         let fraction := inject_Z (Z.of_nat j) / inject_Z (Z.of_nat (num_points + 1)) in
         let lat := Waypoint.latitude start
                    + fraction * (Waypoint.latitude end_ - Waypoint.latitude start) in
         let lon := Waypoint.longitude start
                    + fraction * (Waypoint.longitude end_ - Waypoint.longitude start) in
         Waypoint.mk
           (Waypoint.waypoint_id start ++ "_int_" ++ decimal (Z.of_nat j))%string
           "Intermediate"%string lat lon None)
      (seq 1 num_points).

(** The loop over the consecutive pairs, [start] being the current left end. *)
Fixpoint enrich_from (num_points : nat) (start : Waypoint.t)
    (rest : list Waypoint.t) : list Waypoint.t :=
  match rest with
  | [] => []
  | end_ :: rest' =>
      interpolated start end_ num_points ++ end_ :: enrich_from num_points end_ rest'
  end.

Definition enrich (route_waypoints : list Waypoint.t) : list Waypoint.t :=
  match route_waypoints with
  | [] => []
  | first :: rest =>
      let num_points := Nat.max 1 (4 - List.length route_waypoints) in
      first :: enrich_from num_points first rest
  end.

(** [range(0, stop, step)] for [0 < step]. *)
Definition py_range_step (stop step : nat) : list nat :=
  map (fun k => k * step)%nat (seq 0 ((stop + step - 1) / step)).

(** [l[i:j]] *)
Definition slice {A} (l : list A) (i j : nat) : list A :=
  firstn (j - i) (skipn i l).

(** The sum of the distances between the consecutive waypoints. *)
Definition path_distance `{MathLib} (segment_waypoints : list Waypoint.t) : Q :=
  fold_left
    (fun acc p =>
       acc + haversine_distance
               (Waypoint.latitude (fst p)) (Waypoint.longitude (fst p))
               (Waypoint.latitude (snd p)) (Waypoint.longitude (snd p)))
    (combine segment_waypoints (tl segment_waypoints)) 0.

(** The segmentation loop over the slice starts, [segments] being the list
    built so far. *)
Fixpoint build_segments `{MathLib} (Route_ID : string)
    (route_waypoints : list Waypoint.t) (points_per_segment : nat)
    (starts : list nat) (segments : list Segment.t) : list Segment.t :=
  match starts with
  | [] => segments
  | i :: starts' =>
      let segment_waypoints := slice route_waypoints i (i + points_per_segment) in
      match segment_waypoints with
      | [] => build_segments Route_ID route_waypoints points_per_segment starts' segments
      | _ :: _ =>
          let segment_distance := path_distance segment_waypoints in
          build_segments Route_ID route_waypoints points_per_segment starts'
            (segments ++
             [Segment.mk
                (Route_ID ++ "_seg_" ++ decimal (Z.of_nat (List.length segments + 1)))%string
                segment_waypoints
                (map (fun wp => (Waypoint.latitude wp, Waypoint.longitude wp))
                     segment_waypoints)
                (Some segment_distance)])
      end
  end.

Definition divide_into_segments `{MathLib} (Route_ID : string)
    (route_waypoints : list Waypoint.t) : list Segment.t :=
  let points_per_segment := Nat.max 1 (List.length route_waypoints / 4) in
  build_segments Route_ID route_waypoints points_per_segment
    (py_range_step (List.length route_waypoints) points_per_segment) [].

(** The body of the loop over the matching rows: [None] is [continue]. *)
Definition route_details_of `{MathLib} (table : list WaypointRow.t)
    (route : RouteRow.t) : Res (option Route.t) :=
  let waypoint_ids :=
    match RouteRow.Waypoint_IDs route with
    | Some ids => split_comma ids
    | None => []
    end in
  let? (route_waypoints, total_distance) :=
    collect_waypoints table waypoint_ids 0 [] 0 in
  if Nat.ltb (List.length route_waypoints) 2 then ok None
  else
    let route_waypoints :=
      if Nat.ltb (List.length route_waypoints) 4
      then enrich route_waypoints else route_waypoints in
    let segments := divide_into_segments (RouteRow.Route_ID route) route_waypoints in
    let total_distance :=
      match RouteRow.Distance_NM route with
      | Some d => d
      | None => py_sum (map segment_distance segments)
      end in
    ok (Some (Route.mk (RouteRow.Route_ID route) (RouteRow.Route_Type route)
                (py_round total_distance 2) (List.length route_waypoints)
                segments route_waypoints)).

Fixpoint route_details_loop `{MathLib} (table : list WaypointRow.t)
    (matching_routes : list RouteRow.t) : Res (list Route.t) :=
  match matching_routes with
  | [] => ok []
  | route :: rest =>
      let? detail := route_details_of table route in
      let? others := route_details_loop table rest in
      ok (match detail with Some r => r :: others | None => others end)
  end.

Definition matching_routes (routes : list RouteRow.t)
    (origin_port destination_port : string) : list RouteRow.t :=
  filter (fun r => String.eqb (RouteRow.Origin_Port r) origin_port
                   && String.eqb (RouteRow.Destination_Port r) destination_port)
         routes.

(** [find_routes_between_ports]; [data] is what [load_route_data] returned,
    [None] for the empty dict of a failed load. *)
Definition find_routes_between_ports `{MathLib} (data : option RouteData.t)
    (origin_port destination_port : string) : Res (list Route.t) :=
  match data with
  | None => ok []
  | Some data =>
      route_details_loop (RouteData.waypoints data)
        (matching_routes (RouteData.routes data) origin_port destination_port)
  end.

Module WeatherImpact.
Record t : Type := mk { average_wind_speed : option Q }.
End WeatherImpact.

Module TrafficImpact.
Record t : Type := mk { congestion_level : option Level }.
End TrafficImpact.

Module TimeCalculation.
Record t : Type := mk {
  base_time_hours : Q;
  weather_delay_hours : Q;
  traffic_delay_hours : Q;
  total_time_hours : Q;
  total_time_days : Q;
  effective_speed_knots : Q
}.
End TimeCalculation.

(** [calculate_route_time]; an impact that is [None] (or an empty dict) is
    [None]. *)
Definition calculate_route_time (route : Route.t) (vessel_speed_knots : Q)
    (weather_impact : option WeatherImpact.t)
    (traffic_impact : option TrafficImpact.t) : Res TimeCalculation.t :=
  let? base_time := py_div (Route.total_distance_nm route) vessel_speed_knots in
  let weather_delay :=
    match weather_impact with
    | Some impact =>
        let wind_factor :=
          match WeatherImpact.average_wind_speed impact with
          | Some w => w
          | None => 0
          end / 100 in
        base_time * wind_factor
    | None => 0
    end in
  let traffic_delay :=
    match traffic_impact with
    | Some impact =>
        let congestion_factor :=
          match TrafficImpact.congestion_level impact with
          | Some High => 1 # 10
          | _ => 5 # 100
          end in
        base_time * congestion_factor
    | None => 0
    end in
  let total_time := base_time + weather_delay + traffic_delay in
  let? speed := py_div (Route.total_distance_nm route) total_time in
  ok (TimeCalculation.mk (py_round base_time 2) (py_round weather_delay 2)
        (py_round traffic_delay 2) (py_round total_time 2)
        (py_round (total_time / 24) 2) (py_round speed 2)).

Module CarrierInfo.
Record t : Type := mk {
  carrier_id : string;
  carrier_name : string;
  avg_speed_knots : Q;
  service_type : string;
  routes : list (string * string)
}.
End CarrierInfo.

Definition get_carrier_info (data : option RouteData.t) (carrier_id : string)
    : option CarrierInfo.t :=
  match data with
  | None => None
  | Some data =>
      let carrier :=
        filter (fun c => String.eqb (CarrierRow.CARRIER_ID c) carrier_id)
               (RouteData.carriers data) in
      match carrier with
      | [] => None
      | carrier_data :: _ =>
          Some (CarrierInfo.mk (CarrierRow.CARRIER_ID carrier_data)
                  (CarrierRow.CARRIER_NAME carrier_data)
                  (CarrierRow.AVG_SPEED_KNOTS carrier_data)
                  (CarrierRow.SERVICE_TYPE carrier_data)
                  (map (fun c => (CarrierRow.ORIGIN_PORT c, CarrierRow.DESTINATION_PORT c))
                       carrier))
      end
  end.

(** ** Route analysis, scoring and ranking: [agents/forecast_agent.py] *)

Module WeatherAnalysis.
Record t : Type := mk {
  risk_segments : nat;
  overall_risk : Level;
  forecast_summary : list WeatherForecast.t
}.
End WeatherAnalysis.

Module TrafficAnalysis.
Record t : Type := mk {
  congested_segments : nat;
  overall_congestion : Level;
  peak_traffic_areas : list string;
  traffic_summary : list Traffic.t
}.
End TrafficAnalysis.

Module Analysis.
(** [route_score] is the key that [_score_routes] adds. *)
Record t : Type := mk {
  route_id : string;
  route_type : string;
  distance_nm : Q;
  segments : nat;
  time_calculation : TimeCalculation.t;
  weather_analysis : WeatherAnalysis.t;
  traffic_analysis : TrafficAnalysis.t;
  news_analysis : NewsAnalysis.t;
  route_score : option Q
}.

Definition with_score (a : t) (score : Q) : t :=
  mk (route_id a) (route_type a) (distance_nm a) (segments a)
     (time_calculation a) (weather_analysis a) (traffic_analysis a)
     (news_analysis a) (Some score).

Definition total_time_hours (a : t) : Q :=
  TimeCalculation.total_time_hours (time_calculation a).
End Analysis.

Definition medium_or_high (l : Level) : bool :=
  match l with Medium | High => true | _ => false end.

(** ["High" if n > 2 else "Medium" if n > 0 else "Low"] *)
Definition overall_level (n : nat) : Level :=
  if Nat.ltb 2 n then High else if Nat.ltb 0 n then Medium else Low.

Definition _analyze_single_route (route : Route.t) (departure_date : date)
    (vessel_speed : Q) : M Analysis.t :=
  let* weather_forecast :=
    get_extended_forecast (Route.segments route) departure_date vessel_speed in
  let* traffic_forecast :=
    get_traffic_forecast (Route.segments route) departure_date vessel_speed in
  let* news_analysis :=
    analyze_route_news (Route.segments route) departure_date vessel_speed in
  let total_weather_risk :=
    List.length
      (filter (fun f => medium_or_high
                          (SegmentSummary.risk_level (WeatherForecast.segment_summary f)))
              weather_forecast) in
  let total_traffic_congestion :=
    List.length
      (filter (fun t => medium_or_high
                          (TrafficSummary.congestion_level (Traffic.traffic_summary t)))
              traffic_forecast) in
  let* time_calculation :=
    lift (calculate_route_time route vessel_speed
            (if Nat.ltb 1 total_weather_risk
             then Some (WeatherImpact.mk (Some 15)) else None)
            (if Nat.ltb 1 total_traffic_congestion
             then Some (TrafficImpact.mk (Some High)) else None)) in
  ret (Analysis.mk (Route.route_id route) (Route.route_type route)
         (Route.total_distance_nm route) (List.length (Route.segments route))
         time_calculation
         (WeatherAnalysis.mk total_weather_risk (overall_level total_weather_risk)
            weather_forecast)
         (TrafficAnalysis.mk total_traffic_congestion
            (overall_level total_traffic_congestion)
            (map Traffic.segment_id
               (filter (fun t => Level_eqb
                                   (TrafficSummary.congestion_level (Traffic.traffic_summary t))
                                   High)
                       traffic_forecast))
            traffic_forecast)
         news_analysis None).

(** [min] over the analyses; the loop body only runs on a non-empty list,
    the empty case stands for the [ValueError] it cannot meet. *)
Definition min_of (f : Analysis.t -> Q) (route_analyses : list Analysis.t) : Res Q :=
  match py_min (map f route_analyses) with
  | Some m => ok m
  | None => raise ValueError
  end.

(** The body of the scoring loop.  The list it reads the baselines from is
    the one being scored; the loop changes no distance and no time in it. *)
Definition score_analysis (route_analyses : list Analysis.t)
    (analysis : Analysis.t) : Res Analysis.t :=
  let score := 100 in
  let? base_distance := min_of Analysis.distance_nm route_analyses in
  let? ratio := py_div (Analysis.distance_nm analysis - base_distance) base_distance in
  let distance_penalty := ratio * 10 in
  let score := score - distance_penalty in
  let? base_time := min_of Analysis.total_time_hours route_analyses in
  let? ratio := py_div (Analysis.total_time_hours analysis - base_time) base_time in
  let time_penalty := ratio * 15 in
  let score := score - time_penalty in
  let score :=
    match WeatherAnalysis.overall_risk (Analysis.weather_analysis analysis) with
    | High => score - 20
    | Medium => score - 10
    | _ => score
    end in
  let score :=
    match TrafficAnalysis.overall_congestion (Analysis.traffic_analysis analysis) with
    | High => score - 15
    | Medium => score - 7
    | _ => score
    end in
  let score :=
    match NewsAnalysis.overall_risk_assessment (Analysis.news_analysis analysis) with
    | Critical => score - 30
    | High => score - 20
    | Medium => score - 10
    | Low => score
    end in
  ok (Analysis.with_score analysis (py_max 0 score)).

Fixpoint score_loop (route_analyses todo : list Analysis.t) : Res (list Analysis.t) :=
  match todo with
  | [] => ok []
  | analysis :: rest =>
      let? scored := score_analysis route_analyses analysis in
      let? others := score_loop route_analyses rest in
      ok (scored :: others)
  end.

(** The sort key [x["route_score"]], set on every element by the loop. *)
Definition score_key (a : Analysis.t) : Q :=
  match Analysis.route_score a with
  | Some s => s
  | None => 0
  end.

(** [list.sort(key=..., reverse=True)] is stable: elements with equal keys
    keep their order.  A stable sort has one result, here built by
    insertion from the right. *)
Fixpoint insert_by_score (x : Analysis.t) (l : list Analysis.t) : list Analysis.t :=
  match l with
  | [] => [x]
  | y :: l' =>
      if Qltb (score_key x) (score_key y) then y :: insert_by_score x l'
      else x :: l
  end.

Definition sort_by_score (l : list Analysis.t) : list Analysis.t :=
  fold_right insert_by_score [] l.

Definition _score_routes (route_analyses : list Analysis.t) : Res (list Analysis.t) :=
  let? scored := score_loop route_analyses route_analyses in
  ok (sort_by_score scored).

Module BestRoute.
Record t : Type := mk {
  route_id : string;
  score : Q;
  distance_nm : Q;
  estimated_time : TimeCalculation.t
}.
End BestRoute.

Module Comparison.
Record t : Type := mk {
  distance_difference_nm : Q;
  time_difference_hours : Q;
  score_difference : Q
}.
End Comparison.

Module Alternative.
Record t : Type := mk {
  rank : nat;
  route_id : string;
  score : Q;
  distance_nm : Q;
  estimated_time : TimeCalculation.t;
  comparison_to_best : Comparison.t
}.
End Alternative.

Module Recommendations.
Record t : Type := mk {
  best_route : BestRoute.t;
  alternative_routes : list Alternative.t
}.
End Recommendations.

Definition _compare_routes (best alternative : Analysis.t) : Comparison.t :=
  Comparison.mk
    (Analysis.distance_nm alternative - Analysis.distance_nm best)
    (Analysis.total_time_hours alternative - Analysis.total_time_hours best)
    (score_key alternative - score_key best).

(** [_generate_recommendations], without its texts; [None] is the error
    dict of an empty ranking. *)
Definition _generate_recommendations (scored_routes : list Analysis.t)
    : option Recommendations.t :=
  match scored_routes with
  | [] => None
  | best_route :: _ =>
      let alternative_routes := slice scored_routes 1 3 in
      Some (Recommendations.mk
              (BestRoute.mk (Analysis.route_id best_route) (score_key best_route)
                 (Analysis.distance_nm best_route)
                 (Analysis.time_calculation best_route))
              (map (fun ia =>
                      let '(i, alt_route) := ia in
                      Alternative.mk (i + 1) (Analysis.route_id alt_route)
                        (score_key alt_route) (Analysis.distance_nm alt_route)
                        (Analysis.time_calculation alt_route)
                        (_compare_routes best_route alt_route))
                   (combine (seq 1 (List.length alternative_routes))
                            alternative_routes)))
  end.

(** The value of the ["error"] key: a message the code formats, or the text
    of the exception that the handler of [analyze_routes] caught. *)
Inductive ErrorText : Type :=
| Message (text : string)
| ExceptionText (e : exn).

Module RouteSummary.
Record t : Type := mk {
  origin : string;
  destination : string;
  departure_date : date;
  carrier : CarrierInfo.t;
  routes_analyzed : nat
}.
End RouteSummary.

(** The dict that [analyze_routes] returns: status "failed" with its error,
    or status "success" with the summary, the ranking and the
    recommendation. *)
Inductive Response : Type :=
| Failed (error : ErrorText)
| Success (route_summary : RouteSummary.t)
          (detailed_analyses : list Analysis.t)
          (recommendations : option Recommendations.t).

(** The statements of [analyze_routes] that follow the search for routes,
    inside its [try]. *)
Definition analyze_found_routes (routes : list Route.t)
    (origin_port destination_port : string) (departure_date : date)
    (carrier_info : CarrierInfo.t) (g : Rng) : Response :=
  match routes with
  | [] =>
      Failed (Message ("No routes found between " ++ origin_port
                         ++ " and " ++ destination_port)%string)
  | _ :: _ =>
      let vessel_speed := CarrierInfo.avg_speed_knots carrier_info in
      match mapM (fun route => _analyze_single_route route departure_date vessel_speed)
                 routes g with
      | inl e => Failed (ExceptionText e)
      | inr (route_analyses, _) =>
          match _score_routes route_analyses with
          | inl e => Failed (ExceptionText e)
          | inr scored_routes =>
              Success
                (RouteSummary.mk origin_port destination_port departure_date
                   carrier_info (List.length routes))
                scored_routes
                (_generate_recommendations scored_routes)
          end
      end
  end.

Definition analyze_routes `{MathLib} (data : option RouteData.t)
    (origin_port destination_port : string) (departure_date : date)
    (carrier_id : string) (g : Rng) : Response :=
  match get_carrier_info data carrier_id with
  | None => Failed (Message ("Carrier " ++ carrier_id ++ " not found")%string)
  | Some carrier_info =>
      match find_routes_between_ports data origin_port destination_port with
      | inl e => Failed (ExceptionText e)
      | inr routes =>
          analyze_found_routes routes origin_port destination_port
            departure_date carrier_info g
      end
  end.

(** ** The statements of the specification

    The definitions of this module follow the words of the specification,
    not the code; the theorems compare the two. *)

Module Spec.

(** The minimum of a quantity over the candidate set. *)
Definition least (m : Q) (l : list Q) : Prop :=
  In m l /\ forall x, In x l -> m <= x.

Definition distance_penalty (min_distance : Q) (a : Analysis.t) : Q :=
  (Analysis.distance_nm a - min_distance) / min_distance * 10.

Definition time_penalty (min_time : Q) (a : Analysis.t) : Q :=
  (Analysis.total_time_hours a - min_time) / min_time * 15.

(** 20 / 10 / 0 for High / Medium / Low. *)
Definition weather_penalty (a : Analysis.t) : Q :=
  match WeatherAnalysis.overall_risk (Analysis.weather_analysis a) with
  | High => 20
  | Medium => 10
  | _ => 0
  end.

(** 15 / 7 / 0 for High / Medium / Low. *)
Definition traffic_penalty (a : Analysis.t) : Q :=
  match TrafficAnalysis.overall_congestion (Analysis.traffic_analysis a) with
  | High => 15
  | Medium => 7
  | _ => 0
  end.

(** 30 / 20 / 10 / 0 for Critical / High / Medium / Low. *)
Definition event_penalty (a : Analysis.t) : Q :=
  match NewsAnalysis.overall_risk_assessment (Analysis.news_analysis a) with
  | Critical => 30
  | High => 20
  | Medium => 10
  | Low => 0
  end.

Definition total_score (min_distance min_time : Q) (a : Analysis.t) : Q :=
  Qmax 0 (100 - distance_penalty min_distance a - time_penalty min_time a
          - weather_penalty a - traffic_penalty a - event_penalty a).

(** The candidates with their scores attached, in the candidates' order. *)
Definition scored (candidates : list Analysis.t) (scores : list Q)
    : list Analysis.t :=
  map (fun p => Analysis.with_score (fst p) (snd p)) (combine candidates scores).

(** The order of a Ranking: score descending, then distance ascending,
    then route id in lexical order. *)
Definition ranks_before (a b : Analysis.t) : Prop :=
  score_key b < score_key a
  \/ (score_key a == score_key b
      /\ (Analysis.distance_nm a < Analysis.distance_nm b
          \/ (Analysis.distance_nm a == Analysis.distance_nm b
              /\ String.leb (Analysis.route_id a) (Analysis.route_id b) = true))).

Definition ranked (ranking : list Analysis.t) : Prop :=
  Sorted ranks_before ranking.

(** The route's average wind speed, over the segment summaries. *)
Definition route_average_wind (weather : list WeatherForecast.t) : Q :=
  mean_or_zero
    (map (fun f => SegmentSummary.average_wind_speed (WeatherForecast.segment_summary f))
         weather).

Definition flagged_segments (weather : list WeatherForecast.t) : nat :=
  List.length
    (filter (fun f => medium_or_high
                        (SegmentSummary.risk_level (WeatherForecast.segment_summary f)))
            weather).

Definition congested_segments (traffic : list Traffic.t) : nat :=
  List.length
    (filter (fun t => medium_or_high
                        (TrafficSummary.congestion_level (Traffic.traffic_summary t)))
            traffic).

(** Total route time: base time, plus the weather delay from the route's
    average wind when more than one segment is flagged, plus the traffic
    delay from the route's congestion level when more than one segment is
    congested. *)
Definition total_time_hours (base_distance base_speed : Q)
    (weather : list WeatherForecast.t) (traffic : list Traffic.t)
    (congestion : Level) : Q :=
  let base_time := base_distance / base_speed in
  let weather_delay :=
    if Nat.ltb 1 (flagged_segments weather)
    then base_time * (route_average_wind weather / 100) else 0 in
  let traffic_delay :=
    if Nat.ltb 1 (congested_segments traffic)
    then match congestion with
         | High => base_time * (10 # 100)
         | Medium => base_time * (5 # 100)
         | _ => 0
         end
    else 0 in
  base_time + weather_delay + traffic_delay.

(** The running totals before each element: start, start + x1,
    start + x1 + x2, ...  On the hours spent per segment these are the
    cumulative hours at which each segment is reached. *)
Fixpoint totals_before (start : Q) (l : list Q) : list Q :=
  match l with
  | [] => []
  | x :: rest => start :: totals_before (start + x) rest
  end.

(** The day on which a vessel that left at midnight of [departure_date]
    is under way after [hours]. *)
Definition projected_date (departure_date : date) (hours : Q) : date :=
  strftime (strptime departure_date + timedelta_hours hours)%Z.

End Spec.

(** ** Properties of the ranking that the code builds *)

Module Ranking.

Definition descending (ranking : list Analysis.t) : Prop :=
  StronglySorted (fun a b => score_key b <= score_key a) ranking.

Definition has_score (s : Q) (a : Analysis.t) : bool :=
  Qeq_bool (score_key a) s.

(** Candidates with the same score stand in the ranking in the order
    they had among the candidates. *)
Definition stable (candidates ranking : list Analysis.t) : Prop :=
  forall s, filter (has_score s) ranking = filter (has_score s) candidates.

End Ranking.

(** ** Runs of the simulators *)

(** [m] returns from every state of the generator, with a result in [P]. *)
Definition returns {A} (m : M A) (P : A -> Prop) : Prop :=
  forall g, exists a g', m g = inr (a, g') /\ P a.

(** Every result that [m] returns is in [P]. *)
Definition ensures {A} (m : M A) (P : A -> Prop) : Prop :=
  forall g a g', m g = inr (a, g') -> P a.

(** [m] raises from every state of the generator. *)
Definition raises {A} (m : M A) : Prop :=
  forall g, exists e, m g = inl e.

(** ** Hours and dates along the walks *)

Definition speed_reduction_of (t : Traffic.t) : Q :=
  TrafficSummary.average_speed_reduction_knots (Traffic.traffic_summary t).

(** The hours that the traffic walk spends on each segment: the distance
    over the speed left after that segment's traffic. *)
Definition traffic_segment_hours (vessel_speed_knots : Q)
    (route_segments : list Segment.t) (forecast : list Traffic.t) : list Q :=
  map (fun st => segment_distance (fst st)
                 / py_max (vessel_speed_knots - speed_reduction_of (snd st)) 10)
      (combine route_segments forecast).

(** What the traffic walk records for a segment reached after [hours]. *)
Definition traffic_entry_at (departure : datetime) (vessel_speed_knots : Q)
    (hours : Q) (t : Traffic.t) : Prop :=
  Traffic.hours_from_departure t = Some hours
  /\ Traffic.estimated_arrival t = Some (departure + timedelta_hours hours)%Z
  /\ Traffic.analysis_date t = strftime (departure + timedelta_hours hours)%Z
  /\ Traffic.effective_speed_knots t
     = Some (py_max (vessel_speed_knots - speed_reduction_of t) 10)
  /\ Traffic.alerts t = [].

(** What [analyze_maritime_traffic] hands back for a segment and a date. *)
Definition fresh_traffic (segment_id : string) (analysis_date : date)
    (r : Traffic.t) : Prop :=
  Traffic.segment_id r = segment_id
  /\ Traffic.analysis_date r = analysis_date
  /\ Traffic.alerts r = [].

(** What the traffic walk returns for the segments left, [elapsed] hours
    after departure. *)
Definition traffic_walk_result (departure : datetime) (vessel_speed_knots : Q)
    (elapsed : Q) (route_segments : list Segment.t) (forecast : list Traffic.t)
    : Prop :=
  List.length forecast = List.length route_segments
  /\ map Traffic.segment_id forecast = map Segment.segment_id route_segments
  /\ map Traffic.hours_from_departure forecast
     = map Some (Spec.totals_before elapsed
                   (traffic_segment_hours vessel_speed_knots route_segments forecast))
  /\ Forall (fun t => exists hours,
                 traffic_entry_at departure vessel_speed_knots hours t)
            forecast.

(** The hours at which the weather walk puts a segment that lies
    [covered] nautical miles from the start. *)
Definition weather_hours (vessel_speed_knots covered : Q) : Q :=
  if Qltb 0 vessel_speed_knots then covered / vessel_speed_knots else 0.

(** What the weather walk records for a segment [covered] miles away. *)
Definition weather_entry_at (departure : datetime) (vessel_speed_knots : Q)
    (covered : Q) (f : WeatherForecast.t) : Prop :=
  let hours := weather_hours vessel_speed_knots covered in
  WeatherForecast.hours_from_departure f = Some (py_round hours 1)
  /\ WeatherForecast.estimated_arrival f = Some (departure + timedelta_hours hours)%Z
  /\ WeatherForecast.forecast_date f = strftime (departure + timedelta_hours hours)%Z.

Definition weather_walk_result (departure : datetime) (vessel_speed_knots : Q)
    (covered : Q) (route_segments : list Segment.t)
    (forecast : list WeatherForecast.t) : Prop :=
  map WeatherForecast.segment_id forecast = map Segment.segment_id route_segments
  /\ Forall2 (weather_entry_at departure vessel_speed_knots)
       (Spec.totals_before covered (map segment_distance route_segments))
       forecast.

(** What the event walk records on the events of a segment reached after
    [hours]: at least two events, each with that arrival. *)
Definition news_group_at (departure : datetime) (hours : Q)
    (items : list NewsItem.t) : Prop :=
  (2 <= List.length items)%nat
  /\ Forall (fun item =>
               NewsItem.hours_from_departure item = Some hours
               /\ NewsItem.vessel_eta item
                  = Some (departure + timedelta_hours hours)%Z)
            items.

Definition news_walk_result (departure : datetime) (vessel_speed_knots : Q)
    (elapsed : Q) (route_segments : list Segment.t)
    (all_news : list NewsItem.t) : Prop :=
  exists groups,
    all_news = List.concat groups
    /\ Forall2 (news_group_at departure)
         (Spec.totals_before elapsed
            (map (fun s => segment_distance s / vessel_speed_knots) route_segments))
         groups.

(** ** The analysis of one route, as the code builds it *)

(** The impacts that [_analyze_single_route] hands to
    [calculate_route_time]: a wind of 15 when more than one segment is
    flagged, the label "High" when more than one segment is congested. *)
Definition weather_impact_of (flagged : nat) : option WeatherImpact.t :=
  if Nat.ltb 1 flagged then Some (WeatherImpact.mk (Some 15)) else None.

Definition traffic_impact_of (congested : nat) : option TrafficImpact.t :=
  if Nat.ltb 1 congested then Some (TrafficImpact.mk (Some High)) else None.

(** The route time before rounding: base time, plus 15% of it when more
    than one segment is flagged, plus 10% of it when more than one segment
    is congested. *)
Definition route_time_as_analyzed (distance vessel_speed_knots : Q)
    (flagged congested : nat) : Q :=
  let base_time := distance / vessel_speed_knots in
  let weather_delay := if Nat.ltb 1 flagged then base_time * (15 / 100) else 0 in
  let traffic_delay := if Nat.ltb 1 congested then base_time * (1 # 10) else 0 in
  base_time + weather_delay + traffic_delay.

Definition analysis_of (route : Route.t) (vessel_speed : Q) (a : Analysis.t) : Prop :=
  let weather := WeatherAnalysis.forecast_summary (Analysis.weather_analysis a) in
  let traffic := TrafficAnalysis.traffic_summary (Analysis.traffic_analysis a) in
  Analysis.route_id a = Route.route_id route
  /\ Analysis.distance_nm a = Route.total_distance_nm route
  /\ Analysis.route_score a = None
  /\ WeatherAnalysis.risk_segments (Analysis.weather_analysis a)
     = Spec.flagged_segments weather
  /\ WeatherAnalysis.overall_risk (Analysis.weather_analysis a)
     = overall_level (Spec.flagged_segments weather)
  /\ TrafficAnalysis.congested_segments (Analysis.traffic_analysis a)
     = Spec.congested_segments traffic
  /\ TrafficAnalysis.overall_congestion (Analysis.traffic_analysis a)
     = overall_level (Spec.congested_segments traffic)
  /\ calculate_route_time route vessel_speed
       (weather_impact_of (Spec.flagged_segments weather))
       (traffic_impact_of (Spec.congested_segments traffic))
     = inr (Analysis.time_calculation a).

(** Low risk on every factor. *)
Definition low_on_every_factor (a : Analysis.t) : Prop :=
  WeatherAnalysis.overall_risk (Analysis.weather_analysis a) = Low
  /\ TrafficAnalysis.overall_congestion (Analysis.traffic_analysis a) = Low
  /\ NewsAnalysis.overall_risk_assessment (Analysis.news_analysis a) = Low.

(** ** Candidate routes, as the code admits them *)

Definition waypoint_ids_of (route : RouteRow.t) : list string :=
  match RouteRow.Waypoint_IDs route with
  | Some ids => split_comma ids
  | None => []
  end.

(** The waypoints that the waypoint table knows among the given ids, in
    their order. *)
Definition resolved (table : list WaypointRow.t) (waypoint_ids : list string)
    : list Waypoint.t :=
  flat_map
    (fun wp_id =>
       match filter (fun r => String.eqb (WaypointRow.Waypoint_ID r) (strip wp_id))
                    table with
       | [] => []
       | wp_data :: _ => [waypoint_of_row wp_data]
       end)
    waypoint_ids.

(** The usable waypoints of a row. *)
Definition usable_waypoints (table : list WaypointRow.t) (route : RouteRow.t)
    : list Waypoint.t :=
  resolved table (waypoint_ids_of route).

(** The loop over the waypoint ids of a row runs to its end. *)
Definition scan_completes `{MathLib} (table : list WaypointRow.t)
    (route : RouteRow.t) : Prop :=
  exists found, collect_waypoints table (waypoint_ids_of route) 0 [] 0 = inr found.

(** A row with at least two usable waypoints. *)
Definition admitted (table : list WaypointRow.t) (route : RouteRow.t) : bool :=
  Nat.leb 2 (List.length (usable_waypoints table route)).

(** What segmentation leaves in a route: slices of at most
    max(1, count // 4) waypoints, none empty, that together give the
    waypoint list; below 8 waypoints every slice is a single waypoint of
    distance 0. *)
Definition segmented (route : Route.t) : Prop :=
  let waypoints := Route.waypoints route in
  Forall (fun s =>
            (1 <= List.length (Segment.waypoints s)
             <= Nat.max 1 (List.length waypoints / 4))%nat)
         (Route.segments route)
  /\ List.concat (map Segment.waypoints (Route.segments route)) = waypoints
  /\ ((List.length waypoints < 8)%nat ->
      Forall (fun s => List.length (Segment.waypoints s) = 1%nat
                       /\ Segment.distance_nm s = Some 0)
             (Route.segments route)).

(** A segment built from a slice of at most [points_per_segment]
    waypoints. *)
Definition slice_segment `{MathLib} (points_per_segment : nat) (s : Segment.t)
    : Prop :=
  (1 <= List.length (Segment.waypoints s) <= points_per_segment)%nat
  /\ Segment.distance_nm s = Some (path_distance (Segment.waypoints s)).

(** What the loop body of [find_routes_between_ports] makes of a row:
    nothing for a row that is not admitted, else a route with the row's id
    and the segments of its waypoints. *)
Definition detail_of `{MathLib} (table : list WaypointRow.t) (route : RouteRow.t)
    (detail : option Route.t) : Prop :=
  match detail with
  | None => admitted table route = false
  | Some r =>
      admitted table route = true
      /\ Route.route_id r = RouteRow.Route_ID route
      /\ Route.segments r
         = divide_into_segments (Route.route_id r) (Route.waypoints r)
  end.

(** ** Example data *)

(** A rational stand-in for the float routines of [math]: truncated
    series and Newton steps, each result kept to nine decimals.  The
    theorems hold for every [MathLib]; this one serves the examples. *)
Definition nine (x : Q) : Q := py_round x 9.

Definition newton_sqrt (x : Q) : Q :=
  let step y := nine ((y + x / y) / 2) in
  if Qeq_bool x 0 then 0
  else step (step (step (step (step (step (nine ((x + 1) / 2))))))).

Definition series_math : MathLib := {|
  radians := fun x => nine (x * (355 # 113) / 180);
  sin := fun x => nine (x - x ^ 3 / 6 + x ^ 5 / 120 - x ^ 7 / 5040);
  cos := fun x => nine (1 - x ^ 2 / 2 + x ^ 4 / 24 - x ^ 6 / 720);
  asin := fun x => nine (x + x ^ 3 / 6 + 3 * x ^ 5 / 40 + 15 * x ^ 7 / 336);
  sqrt := newton_sqrt
|}.

(** The tables that [load_route_data] writes when the CSV files are
    missing. *)
Definition sample_waypoints : list WaypointRow.t :=
  [ WaypointRow.mk "WP_001" (407128 # 10000) (-740060 # 10000) "Port" (Some "New York");
    WaypointRow.mk "WP_002" (340522 # 10000) (-1182437 # 10000) "Port" (Some "Los Angeles");
    WaypointRow.mk "WP_003" (515074 # 10000) (-1278 # 10000) "Port" (Some "London");
    WaypointRow.mk "WP_004" (-339249 # 10000) (184241 # 10000) "Port" (Some "Cape Town");
    WaypointRow.mk "WP_005" (356762 # 10000) (1396503 # 10000) "Port" (Some "Tokyo") ]%string.

Definition sample_routes : list RouteRow.t :=
  [ RouteRow.mk "R_001" "New York" "Cape Town" "Transatlantic" (Some 6840) (Some "WP_001,WP_004");
    RouteRow.mk "R_002" "Los Angeles" "Tokyo" "Transpacific" (Some 5500) (Some "WP_002,WP_005");
    RouteRow.mk "R_003" "New York" "London" "Transatlantic" (Some 3200) (Some "WP_001,WP_003");
    RouteRow.mk "R_004" "Cape Town" "Tokyo" "Southern" (Some 7100) (Some "WP_004,WP_005") ]%string.

Definition sample_carriers : list CarrierRow.t :=
  [ CarrierRow.mk "CR_0001" "Ocean Express" "Container" "New York" "Cape Town" 22;
    CarrierRow.mk "CR_0002" "Global Maritime" "Bulk" "Los Angeles" "Tokyo" 18;
    CarrierRow.mk "CR_0003" "Sea Voyager" "Tanker" "New York" "London" 20;
    CarrierRow.mk "CR_0009" "Atlantic Shipping" "Container" "New York" "Cape Town" 24 ]%string.

Definition sample_data : RouteData.t :=
  RouteData.mk sample_waypoints sample_routes sample_carriers.

(** Two tapes: every draw 0 (the calmest outcome of each simulator) and
    every draw 0.99 (the roughest). *)
Definition calm_tape : Rng := mkRng (fun _ => 0) 0.
Definition rough_tape : Rng := mkRng (fun _ => 99 # 100) 0.

(** Three routes between the same ports, the second and third so long that
    their scores are cut off at 0. *)
Definition tie_data : RouteData.t :=
  RouteData.mk sample_waypoints
    [ RouteRow.mk "R_A" "New York" "Cape Town" "Direct" (Some 1000) (Some "WP_001,WP_004");
      RouteRow.mk "R_B" "New York" "Cape Town" "Southern" (Some 6000) (Some "WP_001,WP_004");
      RouteRow.mk "R_C" "New York" "Cape Town" "Northern" (Some 5000) (Some "WP_001,WP_004") ]%string
    sample_carriers.

(** Scenario A: two routes of 3000nm and 3300nm for a carrier of 20 knots. *)
Definition scenario_A_data : RouteData.t :=
  RouteData.mk sample_waypoints
    [ RouteRow.mk "R_1" "New York" "London" "Direct" (Some 3000) (Some "WP_001,WP_003");
      RouteRow.mk "R_2" "New York" "London" "Northern" (Some 3300) (Some "WP_001,WP_003") ]%string
    sample_carriers.

(** A segment with one waypoint, at a given position and of a given length,
    and a route of two such segments in a shipping lane. *)
Definition segment_at (segment_id : string) (lat lon distance : Q) : Segment.t :=
  Segment.mk segment_id
    [Waypoint.mk (segment_id ++ "_wp")%string "Intermediate"%string lat lon None]
    [(lat, lon)] (Some distance).

Definition lane_segments : list Segment.t :=
  [segment_at "L_seg_1" 35 (-20) 400; segment_at "L_seg_2" 35 (-10) 100].

Definition lane_route : Route.t :=
  Route.mk "L" "Lane"%string 500 2 lane_segments
    (flat_map Segment.waypoints lane_segments).

(** An analysis that carries the given figures and no forecast. *)
Definition plain_analysis (route_id : string) (distance time : Q)
    (weather traffic events : Level) : Analysis.t :=
  Analysis.mk route_id "Direct"%string distance 0
    (TimeCalculation.mk time 0 0 time (py_round (time / 24) 2) 0)
    (WeatherAnalysis.mk 0 weather [])
    (TrafficAnalysis.mk 0 traffic [] [])
    (NewsAnalysis.mk 0%Z 0 [] events [])
    None.

Definition plain_candidates : list Analysis.t :=
  [ plain_analysis "P_1" 3000 150 Low Medium High;
    plain_analysis "P_2" 3300 140 High Low Critical ].

(** The routes of scenario A as [find_routes_between_ports] builds them,
    and their analyses on the calm tape. *)
Definition scenario_A_routes : list Route.t :=
  match find_routes_between_ports (H := series_math) (Some scenario_A_data)
          "New York" "London" with
  | inr routes => routes
  | inl _ => []
  end.

Definition scenario_A_run : Res (list Analysis.t * Rng) :=
  mapM (fun route => _analyze_single_route route 0%Z 20) scenario_A_routes calm_tape.

Definition scenario_A_analyses : list Analysis.t :=
  match scenario_A_run with
  | inr (analyses, _) => analyses
  | inl _ => []
  end.

Definition scenario_A_rng : Rng :=
  match scenario_A_run with
  | inr (_, g) => g
  | inl _ => calm_tape
  end.

(** A route whose second segment has lost its coordinates, and a carrier
    of 20 knots. *)
Definition broken_route : Route.t :=
  Route.mk "B" "Lane"%string 500 2
    [segment_at "B_seg_1" 35 (-20) 400; Segment.mk "B_seg_2" [] [] (Some 100)]
    (Segment.waypoints (segment_at "B_seg_1" 35 (-20) 400)).

Definition sea_voyager : CarrierInfo.t :=
  CarrierInfo.mk "CR_0003" "Sea Voyager" 20 "Tanker" [("New York", "London")]%string.

(** The candidate routes from New York to Cape Town in the sample tables. *)
Definition cape_town_routes : list Route.t :=
  match find_routes_between_ports (H := series_math) (Some sample_data)
          "New York" "Cape Town" with
  | inr routes => routes
  | inl _ => []
  end.

(** Tables in which the only route from New York to London names a single
    known waypoint beside an unknown one, tables with one sound route
    beside it, and tables without any route. *)
Definition stub_data : RouteData.t :=
  RouteData.mk sample_waypoints
    [ RouteRow.mk "R_X" "New York" "London" "Direct" (Some 3200) (Some "WP_001, WP_404") ]%string
    sample_carriers.

Definition mixed_data : RouteData.t :=
  RouteData.mk sample_waypoints
    [ RouteRow.mk "R_X" "New York" "London" "Direct" (Some 3200) (Some "WP_001, WP_404");
      RouteRow.mk "R_003" "New York" "London" "Transatlantic" (Some 3200) (Some "WP_001,WP_003") ]%string
    sample_carriers.

Definition no_route_data : RouteData.t :=
  RouteData.mk sample_waypoints [] sample_carriers.

(** Tables whose only route from New York to London names two unknown
    waypoints before a known one. *)
Definition late_waypoint_data : RouteData.t :=
  RouteData.mk sample_waypoints
    [ RouteRow.mk "R_Y" "New York" "London" "Direct" (Some 3200)
        (Some "WP_404,WP_405,WP_001") ]%string
    sample_carriers.

(** A route of 0.05nm in a single segment, and its analysis for a vessel
    of 20 knots: the 0.0025 hours that it takes are rounded to 0.0. *)
Definition short_hop : Route.t :=
  Route.mk "S" "Lane"%string (1 # 20) 1 [segment_at "S_seg_1" 35 (-20) (1 # 20)]
    (Segment.waypoints (segment_at "S_seg_1" 35 (-20) (1 # 20))).

Definition short_hop_analyses : list Analysis.t :=
  match _analyze_single_route short_hop 0%Z 20 calm_tape with
  | inr (analysis, _) => [analysis]
  | inl _ => []
  end.

(** ** Further statements about the simulators *)

(** The range of the speed reduction that goes with a congestion level. *)
Definition reduction_in_range (congestion_level : Level) (reduction : Q) : Prop :=
  match congestion_level with
  | High => 2 <= reduction <= 5
  | Medium => 1 # 2 <= reduction <= 2
  | _ => reduction == 0
  end.

(** What every traffic summary satisfies. *)
Definition sound_traffic_summary (s : TrafficSummary.t) : Prop :=
  (10 <= TrafficSummary.total_vessels_24h s <= 70)%Z
  /\ TrafficSummary.congestion_level s
     = congestion_of (TrafficSummary.total_vessels_24h s)
  /\ reduction_in_range (TrafficSummary.congestion_level s)
       (TrafficSummary.average_speed_reduction_knots s)
  /\ TrafficSummary.traffic_density s <= 7.

Definition Zsum (l : list Z) : Z := fold_right Z.add 0%Z l.

(** The mean latitude of a segment, as the traffic simulator takes it. *)
Definition mean_latitude (coordinates : list (Q * Q)) : Q :=
  py_sum (map fst coordinates) / inject_Z (Z.of_nat (List.length coordinates)).

(** What every entry of the hourly distribution satisfies, for the day's
    total and the hour it stands for. *)
Definition sound_hourly_entry (total_vessels hour : Z) (e : HourlyTraffic.t) : Prop :=
  HourlyTraffic.hour e = hour
  /\ (0 <= HourlyTraffic.vessel_count e)%Z
  /\ (100 * HourlyTraffic.vessel_count e <= 6 * total_vessels)%Z
  /\ (HourlyTraffic.congestion e = HourHigh
      <-> (total_vessels < 20 * HourlyTraffic.vessel_count e)%Z).

(** What the weather simulator reports for a coordinate on a date: the
    ranges of the metrics, which widen with the severity factor of the
    condition drawn. *)
Definition sound_point_forecast (forecast_date : date) (c : Q * Q)
    (p : PointForecast.t) : Prop :=
  let m := PointForecast.metrics p in
  let factor := severity_factor (PointForecast.condition p) in
  let temp_base := 25 - Qabs (fst c) / 4 in
  PointForecast.location p = c
  /\ PointForecast.date p = forecast_date
  /\ PointForecast.warnings p = weather_warnings (PointForecast.condition p) m
  /\ (40 <= Metrics.humidity_percent m <= 95)%Z
  /\ (990 <= Metrics.pressure_mb m <= 1030)%Z
  /\ 5 <= Metrics.wind_speed_knots m <= 30 * factor
  /\ 1 # 2 <= Metrics.wave_height_meters m <= 4 * factor
  /\ 8 # 10 <= Metrics.visibility_km m <= 20
  /\ (factor == 1 -> 2 <= Metrics.visibility_km m)
  /\ temp_base - 5 - (1 # 20) <= Metrics.temperature_celsius m
     <= temp_base + 5 + (1 # 20).

(** A point whose condition leaves the metrics as drawn. *)
Definition unscaled (p : PointForecast.t) : Prop :=
  severity_factor (PointForecast.condition p) == 1.

Definition storm_warning : string := "Storm warning - consider route diversion".

(** What the event simulator reports for an event drawn for the date
    [base_date] with a window of [days_before] days. *)
Definition sound_news_item (base_date : date) (days_before : Z)
    (item : NewsItem.t) : Prop :=
  let d := NewsItem.duration item in
  (base_date - days_before <= NewsItem.date item <= base_date)%Z
  /\ Duration.start_date d = NewsItem.date item
  /\ Duration.end_date d = (NewsItem.date item + Duration.days d)%Z
  /\ (if low_or_medium (NewsItem.severity item)
      then (1 <= Duration.days d <= 7)%Z
      else (3 <= Duration.days d <= 14)%Z)
  /\ NewsItem.affected_radius_nm item = impact_radius (NewsItem.severity item)
  /\ NewsItem.impact item
     = _generate_impact_assessment (NewsItem.severity item) (NewsItem.type item)
  /\ exists template,
       In template news_templates
       /\ NewsTemplate.type template = NewsItem.type item
       /\ In (NewsItem.headline item) (NewsTemplate.events template).

Definition nat_sum (l : list nat) : nat := fold_right Nat.add 0%nat l.

(** ** The report texts of the event analysis: [agents/news_analyzer_agent.py] *)

Definition EventType_eqb (a b : EventType) : bool :=
  match a, b with
  | geopolitical, geopolitical | natural, natural | maritime, maritime
  | economic, economic | infrastructure, infrastructure => true
  | _, _ => false
  end.

(** The text of an event type, the value of the key ["type"]. *)
Definition event_type_text (t : EventType) : string :=
  match t with
  | geopolitical => "geopolitical"
  | natural => "natural"
  | maritime => "maritime"
  | economic => "economic"
  | infrastructure => "infrastructure"
  end.

(** The dict [event_types] of [_generate_news_summary], in insertion order:
    [if event_type not in event_types: event_types[event_type] = 0] and
    then [event_types[event_type] += 1]. *)
Fixpoint count_event_type (event_type : EventType)
    (event_types : list (EventType * nat)) : list (EventType * nat) :=
  match event_types with
  | [] => [(event_type, 0 + 1)%nat]
  | (t, count) :: rest =>
      if EventType_eqb t event_type then (t, count + 1)%nat :: rest
      else (t, count) :: count_event_type event_type rest
  end.

Definition count_event_types (news_items : list NewsItem.t)
    : list (EventType * nat) :=
  fold_left (fun event_types item => count_event_type (NewsItem.type item) event_types)
            news_items [].

(** [sep.join(parts)] *)
Fixpoint join (sep : string) (parts : list string) : string :=
  match parts with
  | [] => EmptyString
  | [part] => part
  | part :: rest => (part ++ sep ++ join sep rest)%string
  end.

Definition _generate_news_summary (news_items : list NewsItem.t) : string :=
  match news_items with
  | [] => "No significant events detected along the route."
  | _ :: _ =>
      let summary_parts :=
        map (fun tc => (decimal (Z.of_nat (snd tc)) ++ " "
                        ++ event_type_text (fst tc) ++ " events")%string)
            (count_event_types news_items) in
      ("Detected " ++ join ", " summary_parts ++ " affecting the route.")%string
  end.

(** The number of the events of a type. *)
Definition events_of_type (t : EventType) (news_items : list NewsItem.t) : nat :=
  List.length (filter (fun item => EventType_eqb (NewsItem.type item) t) news_items).

(** [event_types.get(event_type)] *)
Fixpoint dict_get (event_type : EventType) (event_types : list (EventType * nat))
    : option nat :=
  match event_types with
  | [] => None
  | (t, count) :: rest =>
      if EventType_eqb t event_type then Some count else dict_get event_type rest
  end.

(** ** The inputs of [calculate_route_time] *)



(** Two rows for one carrier id, with different names and speeds. *)
Definition twice_listed_data : RouteData.t :=
  RouteData.mk sample_waypoints sample_routes
    [ CarrierRow.mk "CR_0001" "Ocean Express" "Container" "New York" "Cape Town" 22;
      CarrierRow.mk "CR_0002" "Global Maritime" "Bulk" "Los Angeles" "Tokyo" 18;
      CarrierRow.mk "CR_0001" "Ocean Express II" "Container" "New York" "London" 25 ]%string.

(** ** Candidate routes: waypoints and segments *)

(** The waypoints of a route against the usable waypoints of its row:
    fewer than 4 are filled up by interpolation, to 4 from 2 and to 5 from
    3, with the ends kept. *)
Definition waypoints_filled (usable : list Waypoint.t) (r : Route.t) : Prop :=
  Route.waypoint_count r = List.length (Route.waypoints r)
  /\ (4 <= Route.waypoint_count r)%nat
  /\ Route.waypoint_count r
     = match List.length usable with
       | 2 => 4
       | 3 => 5
       | n => n
       end%nat
  /\ ((4 <= List.length usable)%nat -> Route.waypoints r = usable)
  /\ hd_error (Route.waypoints r) = hd_error usable
  /\ (forall w, last (Route.waypoints r) w = last usable w).

(** The segment that the segmentation loop appends: the [number]-th
    segment of the route, for a slice of its waypoints. *)
Definition segment_of `{MathLib} (Route_ID : string) (number : nat)
    (segment_waypoints : list Waypoint.t) : Segment.t :=
  Segment.mk
    (Route_ID ++ "_seg_" ++ decimal (Z.of_nat number))%string
    segment_waypoints
    (map (fun wp => (Waypoint.latitude wp, Waypoint.longitude wp)) segment_waypoints)
    (Some (path_distance segment_waypoints)).

(** The segments of a route: numbered from 1 in their order, 4 to 7 of
    them, each with the coordinates of its waypoints. *)
Definition segments_numbered (r : Route.t) : Prop :=
  let n := Route.waypoint_count r in
  let points_per_segment := Nat.max 1 (n / 4) in
  List.length (Route.segments r)
  = ((n + points_per_segment - 1) / points_per_segment)%nat
  /\ (4 <= List.length (Route.segments r) <= 7)%nat
  /\ map Segment.segment_id (Route.segments r)
     = map (fun k => (Route.route_id r ++ "_seg_" ++ decimal (Z.of_nat k))%string)
           (seq 1 (List.length (Route.segments r)))
  /\ Forall (fun s =>
               Segment.coordinates s
               = map (fun wp => (Waypoint.latitude wp, Waypoint.longitude wp))
                     (Segment.waypoints s)
               /\ Segment.coordinates s <> [])
            (Route.segments r).

(** A point between two others, in latitude and in longitude. *)
Definition within_box (start end_ p : Waypoint.t) : Prop :=
  Qmin (Waypoint.latitude start) (Waypoint.latitude end_) <= Waypoint.latitude p
  /\ Waypoint.latitude p <= Qmax (Waypoint.latitude start) (Waypoint.latitude end_)
  /\ Qmin (Waypoint.longitude start) (Waypoint.longitude end_) <= Waypoint.longitude p
  /\ Waypoint.longitude p <= Qmax (Waypoint.longitude start) (Waypoint.longitude end_).

(** Tables whose only route from New York to London has no distance
    figure. *)
Definition unmeasured_data : RouteData.t :=
  RouteData.mk sample_waypoints
    [ RouteRow.mk "R_U" "New York" "London" "Direct" None (Some "WP_001,WP_003") ]%string
    sample_carriers.

Definition unmeasured_routes : list Route.t :=
  match find_routes_between_ports (H := series_math) (Some unmeasured_data)
          "New York" "London" with
  | inr routes => routes
  | inl _ => []
  end.

(** ** Distances of candidate routes *)

(** A route of the candidate set stands against the table row it was built
    from: without a distance figure in the row and with fewer than 8
    waypoints, its total distance is 0. *)
Definition unmeasured_is_zero (row : RouteRow.t) (r : Route.t) : Prop :=
  RouteRow.Distance_NM row = None ->
  (Route.waypoint_count r < 8)%nat ->
  Route.total_distance_nm r == 0.

(** ** Recommendations against the ranking *)

(** What the recommendation says of a ranking [best :: rest]: the best
    route is its head, the alternatives are the next two routes, ranked
    from 2, none with a better score than the best. *)
Definition recommends (best : Analysis.t) (rest : list Analysis.t)
    (recs : Recommendations.t) : Prop :=
  let alternatives := Recommendations.alternative_routes recs in
  BestRoute.route_id (Recommendations.best_route recs) = Analysis.route_id best
  /\ BestRoute.score (Recommendations.best_route recs) = score_key best
  /\ (forall a, In a (best :: rest) ->
        score_key a <= BestRoute.score (Recommendations.best_route recs))
  /\ map Alternative.route_id alternatives = map Analysis.route_id (firstn 2 rest)
  /\ map Alternative.rank alternatives = seq 2 (List.length (firstn 2 rest))
  /\ Forall (fun alt =>
               Comparison.score_difference (Alternative.comparison_to_best alt) <= 0)
            alternatives.

(** What the analysis of a route reports about its segments. *)
Definition consistent_analysis (route : Route.t) (a : Analysis.t) : Prop :=
  let n := List.length (Route.segments route) in
  let weather := Analysis.weather_analysis a in
  let traffic := Analysis.traffic_analysis a in
  Analysis.segments a = n
  /\ List.length (WeatherAnalysis.forecast_summary weather) = n
  /\ List.length (TrafficAnalysis.traffic_summary traffic) = n
  /\ (WeatherAnalysis.risk_segments weather <= n)%nat
  /\ (TrafficAnalysis.congested_segments traffic <= n)%nat
  /\ WeatherAnalysis.overall_risk weather <> Critical
  /\ TrafficAnalysis.overall_congestion traffic <> Critical
  /\ (List.length (TrafficAnalysis.peak_traffic_areas traffic)
      <= TrafficAnalysis.congested_segments traffic)%nat
  /\ incl (TrafficAnalysis.peak_traffic_areas traffic)
          (map Segment.segment_id (Route.segments route))
  /\ (2 * n <= NewsAnalysis.total_events (Analysis.news_analysis a) <= 5 * n)%nat.

(** Candidates of which one has the time 0. *)
Definition instant_candidates : list Analysis.t :=
  [ plain_analysis "P_1" 3000 150 Low Low Low;
    plain_analysis "P_0" 1 0 Low Low Low ].

Definition plain_ranking : list Analysis.t :=
  match _score_routes plain_candidates with
  | inr ranking => ranking
  | inl _ => []
  end.

(** The carrier of the first row of the sample table. *)
Definition ocean_express : CarrierInfo.t :=
  CarrierInfo.mk "CR_0001" "Ocean Express" 22 "Container"
    [("New York", "Cape Town")]%string.

(** ** The report texts of the recommendation: [agents/forecast_agent.py] *)

(** The text of a label. *)
Definition level_text (l : Level) : string :=
  match l with
  | Low => "Low"
  | Medium => "Medium"
  | High => "High"
  | Critical => "Critical"
  end.

Definition _get_route_advantages (route : Analysis.t) : list string :=
  (if Level_eqb (WeatherAnalysis.overall_risk (Analysis.weather_analysis route)) Low
   then ["Favorable weather conditions throughout journey"%string] else [])
  ++ (if Level_eqb (TrafficAnalysis.overall_congestion (Analysis.traffic_analysis route)) Low
      then ["Low maritime traffic density"%string] else [])
  ++ (if Level_eqb (NewsAnalysis.overall_risk_assessment (Analysis.news_analysis route)) Low
      then ["No significant security or operational concerns"%string] else [])
  ++ (if Qltb 80 (score_key route)
      then ["Optimal balance of distance and conditions"%string] else []).

Definition _get_route_risks (route : Analysis.t) : list string :=
  let weather := Analysis.weather_analysis route in
  let traffic := Analysis.traffic_analysis route in
  let news := Analysis.news_analysis route in
  (if medium_or_high (WeatherAnalysis.overall_risk weather)
   then [(level_text (WeatherAnalysis.overall_risk weather) ++ " weather risk in "
          ++ decimal (Z.of_nat (WeatherAnalysis.risk_segments weather))
          ++ " segments")%string]
   else [])
  ++ (if medium_or_high (TrafficAnalysis.overall_congestion traffic)
      then [(level_text (TrafficAnalysis.overall_congestion traffic)
             ++ " traffic congestion expected")%string]
      else [])
  ++ (match NewsAnalysis.overall_risk_assessment news with
      | Medium | High | Critical =>
          [(decimal (Z.of_nat (NewsAnalysis.total_events news))
            ++ " news events may impact journey")%string]
      | Low => []
      end).

Definition _generate_action_items (route : Analysis.t) : list string :=
  ["Confirm vessel readiness for departure";
   "Brief crew on selected route and conditions";
   "Establish communication schedule with shore support"]%string
  ++ (if medium_or_high (WeatherAnalysis.overall_risk (Analysis.weather_analysis route))
      then ["Monitor weather updates every 6 hours";
            "Ensure heavy weather preparations complete"]%string
      else [])
  ++ (if medium_or_high
           (TrafficAnalysis.overall_congestion (Analysis.traffic_analysis route))
      then ["Plan for reduced speed in congested areas";
            "Maintain enhanced bridge watch"]%string
      else [])
  ++ (if Nat.ltb 5 (NewsAnalysis.total_events (Analysis.news_analysis route))
      then ["Review security protocols";
            "Monitor news updates for affected areas"]%string
      else []).

(** ** The response to a request *)

(** The response to the request for the routes from New York to Cape Town
    with the first carrier of the sample tables, and its ranking. *)
Definition sample_response : Response :=
  analyze_routes (H := series_math) (Some sample_data) "New York" "Cape Town"
    100%Z "CR_0001" rough_tape.

Definition detailed_analyses_of (response : Response) : list Analysis.t :=
  match response with
  | Success _ detailed_analyses _ => detailed_analyses
  | Failed _ => []
  end.

Definition recommendations_of (response : Response) : option Recommendations.t :=
  match response with
  | Success _ _ recommendations => recommendations
  | Failed _ => None
  end.

Definition route_summary_of (response : Response) : option RouteSummary.t :=
  match response with
  | Success route_summary _ _ => Some route_summary
  | Failed _ => None
  end.

(** * Proofs *)

(** ** Numbers *)

Lemma py_max_Qmax (a b : Q) : py_max a b == Qmax a b.
Proof.
  unfold py_max.
  destruct (Qcompare_spec b a) as [E | L | G].
  - rewrite Q.max_l; [reflexivity | rewrite E; apply Qle_refl].
  - rewrite Q.max_l; [reflexivity | apply Qlt_le_weak; exact L].
  - rewrite Q.max_r; [reflexivity | apply Qlt_le_weak; exact G].
Qed.

Lemma py_max_lower (a b : Q) : b <= py_max a b.
Proof. rewrite py_max_Qmax. apply Q.le_max_r. Qed.

Lemma Qltb_true (a b : Q) : Qltb a b = true <-> a < b.
Proof.
  unfold Qltb. destruct (Qcompare_spec a b) as [E | L | G]; split; intro H;
    try discriminate; try reflexivity; try assumption.
  - rewrite E in H. exfalso. exact (Qlt_irrefl _ H).
  - exfalso. exact (Qlt_irrefl _ (Qlt_trans _ _ _ H G)).
Qed.

Lemma Qltb_false (a b : Q) : Qltb a b = false <-> b <= a.
Proof.
  split; intro H.
  - apply Qnot_lt_le. intro L. apply Qltb_true in L. congruence.
  - destruct (Qltb a b) eqn:E; [| reflexivity].
    apply Qltb_true in E. exfalso. exact (Qlt_not_le _ _ E H).
Qed.

Lemma py_div_ok (a b : Q) : ~ b == 0 -> py_div a b = inr (a / b).
Proof.
  intro N. unfold py_div.
  destruct (Qeq_bool b 0) eqn:E; [| reflexivity].
  apply Qeq_bool_iff in E. contradiction.
Qed.

Lemma py_min_from_in (l : list Q) : forall m, In (py_min_from m l) (m :: l).
Proof.
  induction l as [| x l IH]; intro m; simpl.
  - left; reflexivity.
  - destruct (IH (match x ?= m with Lt => x | _ => m end)) as [E | I].
    + destruct (x ?= m); rewrite <- E; auto.
    + right; right; exact I.
Qed.

Lemma py_min_from_le (l : list Q) :
  forall m x, In x (m :: l) -> py_min_from m l <= x.
Proof.
  induction l as [| y l IH]; intros m x I; simpl.
  - destruct I as [E | []]. rewrite E. apply Qle_refl.
  - assert (S : (match y ?= m with Lt => y | _ => m end) <= m
                /\ (match y ?= m with Lt => y | _ => m end) <= y).
    { destruct (Qcompare_spec y m) as [E | L | G].
      - split; [apply Qle_refl | rewrite E; apply Qle_refl].
      - split; [apply Qlt_le_weak; exact L | apply Qle_refl].
      - split; [apply Qle_refl | apply Qlt_le_weak; exact G]. }
    destruct S as [Sm Sy].
    destruct I as [E | [E | I]].
    + subst x. eapply Qle_trans; [apply IH; left; reflexivity | exact Sm].
    + subst x. eapply Qle_trans; [apply IH; left; reflexivity | exact Sy].
    + apply IH. right; exact I.
Qed.

Lemma py_min_least (l : list Q) (m : Q) : py_min l = Some m -> Spec.least m l.
Proof.
  destruct l as [| x l]; simpl; intro H; [discriminate |].
  injection H as <-. split.
  - apply py_min_from_in.
  - intros y I. apply py_min_from_le. exact I.
Qed.

Lemma Qadd_nonneg (a b : Q) : 0 <= a -> 0 <= b -> 0 <= a + b.
Proof.
  intros A B. change (0 + 0 <= a + b). apply Qplus_le_compat; assumption.
Qed.

(** Rounding depends on the value only. *)
#[global] Instance round_half_even_comp : Proper (Qeq ==> eq) round_half_even.
Proof.
  intros x y E. unfold round_half_even.
  assert (F : Qfloor x = Qfloor y) by (apply Qfloor_comp; exact E).
  rewrite F.
  assert (C : (x - inject_Z (Qfloor y) ?= 1 # 2) = (y - inject_Z (Qfloor y) ?= 1 # 2)).
  { apply Qcompare_comp; [rewrite E; reflexivity | reflexivity]. }
  rewrite C. reflexivity.
Qed.

#[global] Instance py_round_comp : Proper (Qeq ==> eq ==> Qeq) py_round.
Proof.
  intros x y E n ? <-. unfold py_round.
  assert (R : round_half_even (x * inject_Z (10 ^ Z.of_nat n))
              = round_half_even (y * inject_Z (10 ^ Z.of_nat n))).
  { apply round_half_even_comp. rewrite E. reflexivity. }
  rewrite R. reflexivity.
Qed.


(** ** The monad of the simulators *)

Lemma bind_inr {A B} (m : M A) (k : A -> M B) (g g' : Rng) (b : B) :
  bind m k g = inr (b, g') ->
  exists a g1, m g = inr (a, g1) /\ k a g1 = inr (b, g').
Proof.
  unfold bind. destruct (m g) as [e | [a g1]]; [discriminate |].
  intro H. exists a, g1. split; [reflexivity | exact H].
Qed.

Lemma bind_inl {A B} (m : M A) (k : A -> M B) (g : Rng) (e : exn) :
  m g = inl e -> bind m k g = inl e.
Proof. unfold bind. intros ->. reflexivity. Qed.

Lemma bind_step {A B} (m : M A) (k : A -> M B) (g g1 : Rng) (a : A) :
  m g = inr (a, g1) -> bind m k g = k a g1.
Proof. unfold bind. intros ->. reflexivity. Qed.

Lemma ret_inr {A} (a b : A) (g g' : Rng) :
  ret a g = inr (b, g') -> a = b /\ g = g'.
Proof. unfold ret. intro H. injection H as -> ->. split; reflexivity. Qed.

Lemma lift_inr {A} (r : Res A) (g g' : Rng) (a : A) :
  lift r g = inr (a, g') -> r = inr a /\ g = g'.
Proof.
  unfold lift. destruct r as [e | x]; [discriminate |].
  intro H. injection H as -> ->. split; reflexivity.
Qed.

(** Taking apart a run that returned. *)
Ltac run_inv H :=
  repeat match type of H with
         | bind _ _ _ = inr _ =>
             let a := fresh "x" in
             let g := fresh "g" in
             let E := fresh "E" in
             apply bind_inr in H; destruct H as (a & g & E & H)
         | ret _ _ = inr _ => apply ret_inr in H
         end.

Lemma choice_returns {A} (seq : list A) (g : Rng) :
  seq <> [] -> exists x g', random.choice seq g = inr (x, g') /\ In x seq.
Proof.
  destruct seq as [| y seq]; [congruence | intros _].
  eexists; eexists; split; [reflexivity |].
  set (k := Z.to_nat _).
  destruct (Nat.lt_ge_cases k (List.length (y :: seq))) as [L | L].
  - apply nth_In. exact L.
  - rewrite nth_overflow; [left; reflexivity | exact L].
Qed.

Lemma choices_returns {A} (population : list A) (weights : list Q) (g : Rng) :
  population <> [] ->
  exists x g', random.choices population weights g = inr (x, g').
Proof.
  destruct population; [congruence | intros _].
  eexists; eexists; reflexivity.
Qed.

Lemma mapM_inr {A B} (f : A -> M B) (xs : list A) :
  forall g ys g', mapM f xs g = inr (ys, g') ->
    Forall2 (fun x y => exists g1 g2, f x g1 = inr (y, g2)) xs ys.
Proof.
  induction xs as [| x xs IH]; intros g ys g' H; simpl in H.
  - apply ret_inr in H. destruct H as [<- _]. constructor.
  - run_inv H. destruct H as [<- _].
    constructor; [exists g, g0; exact E | eapply IH; exact E0].
Qed.

Lemma mapM_inl {A B} (f : A -> M B) (xs : list A) :
  (exists x, In x xs /\ forall g, exists e, f x g = inl e) ->
  forall g, exists e, mapM f xs g = inl e.
Proof.
  induction xs as [| x xs IH]; intros (bad & I & R) g; [destruct I |].
  simpl.
  destruct (f x g) as [e | [y g1]] eqn:Ex.
  - exists e. apply bind_inl. exact Ex.
  - rewrite (bind_step _ _ _ _ _ Ex).
    destruct I as [-> | I].
    + destruct (R g) as (e & Ee). congruence.
    + destruct (IH (ex_intro _ bad (conj I R)) g1) as (e & Ee).
      exists e. apply bind_inl. exact Ee.
Qed.

(** *** Rules for [returns], [ensures] and [raises] *)

Lemma returns_ret {A} (a : A) (P : A -> Prop) : P a -> returns (ret a) P.
Proof. intros H g. exists a, g. split; [reflexivity | exact H]. Qed.

Lemma returns_bind {A B} (m : M A) (k : A -> M B) (Q : A -> Prop) (P : B -> Prop) :
  returns m Q -> (forall a, Q a -> returns (k a) P) -> returns (bind m k) P.
Proof.
  intros Hm Hk g. destruct (Hm g) as (a & g1 & E & Qa).
  destruct (Hk a Qa g1) as (b & g2 & E' & Pb).
  exists b, g2. split; [| exact Pb].
  rewrite (bind_step _ _ _ _ _ E). exact E'.
Qed.

Lemma returns_weaken {A} (m : M A) (P Q : A -> Prop) :
  returns m P -> (forall a, P a -> Q a) -> returns m Q.
Proof.
  intros H I g. destruct (H g) as (a & g' & E & Pa).
  exists a, g'. split; [exact E | apply I; exact Pa].
Qed.

Lemma returns_lift {A} (r : Res A) (a : A) (P : A -> Prop) :
  r = inr a -> P a -> returns (lift r) P.
Proof. intros -> H g. exists a, g. split; [reflexivity | exact H]. Qed.

Lemma returns_uniform (a b : Q) : returns (random.uniform a b) (fun _ => True).
Proof. intro g. eexists; eexists; split; [reflexivity | exact I]. Qed.

Lemma returns_randint (a b : Z) : returns (random.randint a b) (fun _ => True).
Proof. intro g. eexists; eexists; split; [reflexivity | exact I]. Qed.

Lemma returns_choice {A} (seq : list A) :
  seq <> [] -> returns (random.choice seq) (fun x => In x seq).
Proof.
  intros N g. destruct (choice_returns seq g N) as (x & g' & E & I).
  exists x, g'. split; assumption.
Qed.

Lemma returns_choices {A} (population : list A) (weights : list Q) :
  population <> [] -> returns (random.choices population weights) (fun _ => True).
Proof.
  intros N g. destruct (choices_returns population weights g N) as (x & g' & E).
  exists x, g'. split; [exact E | exact I].
Qed.

Lemma returns_mapM {A B} (f : A -> M B) (xs : list A) (P : B -> Prop) :
  (forall x, In x xs -> returns (f x) P) ->
  returns (mapM f xs) (fun ys => List.length ys = List.length xs /\ Forall P ys).
Proof.
  induction xs as [| x xs IH]; intro H.
  - apply returns_ret. split; [reflexivity | constructor].
  - simpl. eapply returns_bind; [apply H; left; reflexivity |].
    intros y Py. eapply returns_bind.
    + apply IH. intros x' I'. apply H. right; exact I'.
    + intros ys [L F]. apply returns_ret. split.
      * simpl. rewrite L. reflexivity.
      * constructor; assumption.
Qed.

Lemma returns_repeatM {A} (n : nat) (m : M A) (P : A -> Prop) :
  returns m P ->
  returns (repeatM n m) (fun xs => List.length xs = n /\ Forall P xs).
Proof.
  intro H. induction n as [| n IH].
  - apply returns_ret. split; [reflexivity | constructor].
  - simpl. eapply returns_bind; [exact H |].
    intros x Px. eapply returns_bind; [exact IH |].
    intros xs [L F]. apply returns_ret. split.
    + simpl. rewrite L. reflexivity.
    + constructor; assumption.
Qed.

Lemma raises_bind {A B} (m : M A) (k : A -> M B) : raises m -> raises (bind m k).
Proof.
  intros H g. destruct (H g) as (e & E). exists e. apply bind_inl. exact E.
Qed.

Lemma raises_after {A B} (m : M A) (k : A -> M B) :
  (forall a, raises (k a)) -> raises (bind m k).
Proof.
  intros H g. unfold bind. destruct (m g) as [e | [a g1]].
  - exists e. reflexivity.
  - apply H.
Qed.

Lemma returns_div (a b : Q) :
  ~ b == 0 -> returns (lift (py_div a b)) (fun x => x = a / b).
Proof.
  intro N. eapply returns_lift; [apply py_div_ok; exact N | reflexivity].
Qed.

Lemma raises_when {A B} (m : M A) (k : A -> M B) (Q : A -> Prop) :
  ensures m Q -> (forall a, Q a -> raises (k a)) -> raises (bind m k).
Proof.
  intros Hm Hk g. unfold bind. destruct (m g) as [e | [a g1]] eqn:E.
  - exists e. reflexivity.
  - apply (Hk a (Hm _ _ _ E)).
Qed.

Lemma frac_nonneg (u : Q) : 0 <= frac u.
Proof.
  unfold frac. apply (Qplus_le_r _ _ (inject_Z (Qfloor u))).
  ring_simplify. apply Qfloor_le.
Qed.

Lemma randbelow_nonneg (n : Z) :
  (0 <= n)%Z -> ensures (random.randbelow n) (fun k => (0 <= k)%Z).
Proof.
  intros N g k g' E. unfold random.randbelow in E.
  apply bind_inr in E. destruct E as (u & g1 & Eu & E).
  apply ret_inr in E. destruct E as [<- _].
  assert (U : 0 <= u).
  { unfold random.random in Eu. injection Eu as <- _. apply frac_nonneg. }
  change 0%Z with (Qfloor 0). apply Qfloor_resp_le.
  apply Qmult_le_0_compat; [exact U |].
  change 0 with (inject_Z 0). rewrite <- Zle_Qle. exact N.
Qed.

Lemma randint_lower (a b : Z) :
  (a <= b)%Z -> ensures (random.randint a b) (fun k => (a <= k)%Z).
Proof.
  intros L g k g' E. unfold random.randint in E. run_inv E.
  destruct E as [<- _].
  assert (P : (0 <= x)%Z) by exact (randbelow_nonneg (b - a + 1) ltac:(lia) _ _ _ E0).
  lia.
Qed.

(** ** The scorer *)

Section Scorer.

Variable route_analyses : list Analysis.t.
Variables min_distance min_time : Q.

Hypothesis distance_baseline :
  min_of Analysis.distance_nm route_analyses = inr min_distance.
Hypothesis time_baseline :
  min_of Analysis.total_time_hours route_analyses = inr min_time.
Hypothesis distance_positive : 0 < min_distance.
Hypothesis time_positive : 0 < min_time.

Lemma nonzero_of_positive (x : Q) : 0 < x -> ~ x == 0.
Proof. intros L E. rewrite E in L. exact (Qlt_irrefl _ L). Qed.

(** The score that the loop body leaves equals the formula of the
    specification. *)
Lemma score_analysis_formula (a : Analysis.t) :
  exists s,
    score_analysis route_analyses a = inr (Analysis.with_score a s)
    /\ s == Spec.total_score min_distance min_time a.
Proof.
  unfold score_analysis.
  rewrite distance_baseline; simpl.
  rewrite (py_div_ok _ _ (nonzero_of_positive _ distance_positive)); simpl.
  rewrite time_baseline; simpl.
  rewrite (py_div_ok _ _ (nonzero_of_positive _ time_positive)); simpl.
  eexists; split; [reflexivity |].
  rewrite py_max_Qmax. unfold Spec.total_score.
  apply Q.max_compat; [reflexivity |].
  unfold Spec.distance_penalty, Spec.time_penalty, Spec.weather_penalty,
    Spec.traffic_penalty, Spec.event_penalty, Analysis.total_time_hours.
  destruct (WeatherAnalysis.overall_risk _),
           (TrafficAnalysis.overall_congestion _),
           (NewsAnalysis.overall_risk_assessment _); ring.
Qed.

Lemma relative_penalty_nonneg (x m : Q) : 0 < m -> m <= x -> 0 <= (x - m) / m.
Proof.
  intros P L. unfold Qdiv. apply Qmult_le_0_compat.
  - unfold Qminus. rewrite <- (Qplus_opp_r m).
    apply Qplus_le_compat; [exact L | apply Qle_refl].
  - apply Qlt_le_weak, Qinv_lt_0_compat, P.
Qed.

Lemma categorical_penalties_nonneg (a : Analysis.t) :
  0 <= Spec.weather_penalty a /\ 0 <= Spec.traffic_penalty a
  /\ 0 <= Spec.event_penalty a.
Proof.
  unfold Spec.weather_penalty, Spec.traffic_penalty, Spec.event_penalty.
  destruct (WeatherAnalysis.overall_risk _),
           (TrafficAnalysis.overall_congestion _),
           (NewsAnalysis.overall_risk_assessment _);
    repeat split; discriminate.
Qed.

Lemma total_score_bounds (a : Analysis.t) :
  min_distance <= Analysis.distance_nm a ->
  min_time <= Analysis.total_time_hours a ->
  0 <= Spec.total_score min_distance min_time a <= 100.
Proof.
  intros Ld Lt. unfold Spec.total_score. split; [apply Q.le_max_l |].
  apply Q.max_lub; [discriminate |].
  pose proof (relative_penalty_nonneg _ _ distance_positive Ld) as Pd.
  pose proof (relative_penalty_nonneg _ _ time_positive Lt) as Pt.
  destruct (categorical_penalties_nonneg a) as (Pw & Pc & Pe).
  unfold Spec.distance_penalty, Spec.time_penalty.
  set (d := (Analysis.distance_nm a - min_distance) / min_distance) in *.
  set (t := (Analysis.total_time_hours a - min_time) / min_time) in *.
  assert (Hd : 0 <= d * 10) by (apply Qmult_le_0_compat; [exact Pd | discriminate]).
  assert (Ht : 0 <= t * 15) by (apply Qmult_le_0_compat; [exact Pt | discriminate]).
  set (pd := d * 10) in *. set (pt := t * 15) in *.
  set (pw := Spec.weather_penalty a) in *.
  set (pc := Spec.traffic_penalty a) in *.
  set (pe := Spec.event_penalty a) in *.
  assert (S : 0 <= pd + pt + pw + pc + pe).
  { repeat apply Qadd_nonneg; assumption. }
  apply Qle_minus_iff.
  assert (E : 100 + - (100 - pd - pt - pw - pc - pe) == pd + pt + pw + pc + pe) by ring.
  rewrite E. exact S.
Qed.

Lemma baseline_candidate_penalty (a : Analysis.t) :
  Analysis.distance_nm a == min_distance ->
  Spec.distance_penalty min_distance a == 0.
Proof.
  intro E. unfold Spec.distance_penalty. rewrite E.
  unfold Qminus. rewrite Qplus_opp_r. unfold Qdiv.
  rewrite Qmult_0_l. apply Qmult_0_l.
Qed.

Lemma score_loop_formula (todo : list Analysis.t) :
  (forall a, In a todo ->
      min_distance <= Analysis.distance_nm a
      /\ min_time <= Analysis.total_time_hours a) ->
  exists scores,
    score_loop route_analyses todo = inr (Spec.scored todo scores)
    /\ Forall2 (fun a s =>
                  s == Spec.total_score min_distance min_time a
                  /\ 0 <= s <= 100
                  /\ (Analysis.distance_nm a == min_distance ->
                      Spec.distance_penalty min_distance a == 0))
               todo scores.
Proof.
  induction todo as [| a todo IH]; intro B.
  - exists []. split; [reflexivity | constructor].
  - destruct (score_analysis_formula a) as (s & Ea & Es).
    destruct IH as (scores & El & F).
    { intros b I. apply B. right; exact I. }
    exists (s :: scores). split.
    + simpl. rewrite Ea; simpl. rewrite El; simpl. reflexivity.
    + constructor; [| exact F].
      destruct (B a (or_introl eq_refl)) as [Ld Lt].
      split; [exact Es |]. split.
      * rewrite Es. apply total_score_bounds; assumption.
      * apply baseline_candidate_penalty.
Qed.

End Scorer.

Lemma min_of_least (f : Analysis.t -> Q) (l : list Analysis.t) :
  l <> [] -> exists m, min_of f l = inr m /\ Spec.least m (map f l).
Proof.
  intro N. unfold min_of.
  destruct (py_min (map f l)) as [m |] eqn:E.
  - exists m. split; [reflexivity | apply py_min_least; exact E].
  - destruct l; [congruence | discriminate].
Qed.

(** *** Stable descending sort *)

Lemma insert_by_score_perm (x : Analysis.t) (l : list Analysis.t) :
  Permutation (x :: l) (insert_by_score x l).
Proof.
  induction l as [| y l IH]; simpl.
  - apply Permutation_refl.
  - destruct (Qltb (score_key x) (score_key y)).
    + eapply Permutation_trans; [apply perm_swap |].
      apply perm_skip. exact IH.
    + apply Permutation_refl.
Qed.

Lemma sort_by_score_perm (l : list Analysis.t) : Permutation l (sort_by_score l).
Proof.
  induction l as [| x l IH]; simpl.
  - constructor.
  - eapply Permutation_trans; [apply perm_skip; exact IH |].
    apply insert_by_score_perm.
Qed.

Lemma insert_by_score_filter (s : Q) (x : Analysis.t) (l : list Analysis.t) :
  filter (Ranking.has_score s) (insert_by_score x l)
  = filter (Ranking.has_score s) (x :: l).
Proof.
  induction l as [| y l IH]; [reflexivity |].
  simpl insert_by_score.
  destruct (Qltb (score_key x) (score_key y)) eqn:L; [| reflexivity].
  apply Qltb_true in L.
  change (filter (Ranking.has_score s) (y :: insert_by_score x l))
    with (if Ranking.has_score s y
          then y :: filter (Ranking.has_score s) (insert_by_score x l)
          else filter (Ranking.has_score s) (insert_by_score x l)).
  rewrite IH. simpl.
  destruct (Ranking.has_score s x) eqn:Hx, (Ranking.has_score s y) eqn:Hy;
    try reflexivity.
  unfold Ranking.has_score in Hx, Hy.
  apply Qeq_bool_iff in Hx. apply Qeq_bool_iff in Hy.
  rewrite Hx, Hy in L. exfalso. exact (Qlt_irrefl _ L).
Qed.

Lemma sort_by_score_stable (l : list Analysis.t) : Ranking.stable l (sort_by_score l).
Proof.
  intro s. induction l as [| x l IH]; [reflexivity |].
  simpl sort_by_score. rewrite insert_by_score_filter.
  simpl. rewrite IH. reflexivity.
Qed.

Lemma insert_by_score_descending (x : Analysis.t) (l : list Analysis.t) :
  Ranking.descending l -> Ranking.descending (insert_by_score x l).
Proof.
  unfold Ranking.descending.
  induction l as [| y l IH]; intro S; simpl.
  - constructor; constructor.
  - destruct (Qltb (score_key x) (score_key y)) eqn:L.
    + apply Qltb_true in L. inversion S as [| ? ? S' F]; subst.
      constructor; [apply IH; exact S' |].
      apply (Permutation_Forall (insert_by_score_perm x l)).
      constructor; [apply Qlt_le_weak; exact L | exact F].
    + apply Qltb_false in L. constructor; [exact S |].
      inversion S as [| ? ? S' F]; subst.
      constructor; [exact L |].
      eapply Forall_impl; [| exact F].
      intros b Hb. simpl in Hb. eapply Qle_trans; [exact Hb | exact L].
Qed.

Lemma sort_by_score_descending (l : list Analysis.t) :
  Ranking.descending (sort_by_score l).
Proof.
  induction l as [| x l IH]; simpl.
  - constructor.
  - apply insert_by_score_descending. exact IH.
Qed.

Lemma least_bounds (f : Analysis.t -> Q) (l : list Analysis.t) (m : Q) :
  Spec.least m (map f l) ->
  (forall a, In a l -> 0 < f a) ->
  0 < m /\ forall a, In a l -> m <= f a.
Proof.
  intros [I L] P. split.
  - apply in_map_iff in I. destruct I as (a & <- & Ia). apply P. exact Ia.
  - intros a Ia. apply L. apply in_map. exact Ia.
Qed.

(** The scores that the loop leaves, against the baselines of the set. *)
Lemma score_loop_against_baselines (route_analyses : list Analysis.t) :
  route_analyses <> [] ->
  (forall a, In a route_analyses ->
     0 < Analysis.distance_nm a /\ 0 < Analysis.total_time_hours a) ->
  exists min_distance min_time scores,
    Spec.least min_distance (map Analysis.distance_nm route_analyses)
    /\ Spec.least min_time (map Analysis.total_time_hours route_analyses)
    /\ score_loop route_analyses route_analyses
       = inr (Spec.scored route_analyses scores)
    /\ Forall2 (fun a s =>
                  s == Spec.total_score min_distance min_time a
                  /\ 0 <= s <= 100
                  /\ (Analysis.distance_nm a == min_distance ->
                      Spec.distance_penalty min_distance a == 0))
               route_analyses scores.
Proof.
  intros N P. set (ras := route_analyses) in *.
  destruct (min_of_least Analysis.distance_nm ras N) as (md & Ed & Ld).
  destruct (min_of_least Analysis.total_time_hours ras N) as (mt & Et & Lt).
  destruct (least_bounds _ _ _ Ld (fun a I => proj1 (P a I))) as [Pd Bd].
  destruct (least_bounds _ _ _ Lt (fun a I => proj2 (P a I))) as [Pt Bt].
  destruct (score_loop_formula ras md mt Ed Et Pd Pt ras) as (scores & El & F).
  { intros a I. split; [apply Bd | apply Bt]; exact I. }
  exists md, mt, scores. repeat split; try assumption; try apply Ld; apply Lt.
Qed.

(** C1, as the code has it. For a non-empty candidate set in which every
    distance and every time is positive,
    the scorer returns a ranking that holds every candidate with the score
    max(0, 100 - distance_penalty - time_penalty - weather_penalty -
    traffic_penalty - event_penalty), the relative penalties taken against
    the minimum distance and the minimum time over the set; each score lies
    in [0, 100], and a candidate at the minimum distance has distance
    penalty 0. *)
Theorem score_routes_formula :
  forall route_analyses : list Analysis.t,
    route_analyses <> [] ->
    (forall a, In a route_analyses ->
       0 < Analysis.distance_nm a /\ 0 < Analysis.total_time_hours a) ->
    exists min_distance min_time scores ranking,
      Spec.least min_distance (map Analysis.distance_nm route_analyses)
      /\ Spec.least min_time (map Analysis.total_time_hours route_analyses)
      /\ _score_routes route_analyses = inr ranking
      /\ Permutation ranking (Spec.scored route_analyses scores)
      /\ Forall2 (fun a s =>
                    s == Spec.total_score min_distance min_time a
                    /\ 0 <= s <= 100
                    /\ (Analysis.distance_nm a == min_distance ->
                        Spec.distance_penalty min_distance a == 0))
                 route_analyses scores.
Proof.
  intros ras N P.
  destruct (score_loop_against_baselines ras N P)
    as (md & mt & scores & Ld & Lt & El & F).
  exists md, mt, scores, (sort_by_score (Spec.scored ras scores)).
  split; [exact Ld |]. split; [exact Lt |]. split.
  { unfold _score_routes. rewrite El. reflexivity. }
  split; [apply Permutation_sym, sort_by_score_perm | exact F].
Qed.

Lemma score_routes_formula_witness :
  exists min_distance min_time scores ranking,
    Spec.least min_distance (map Analysis.distance_nm plain_candidates)
    /\ Spec.least min_time (map Analysis.total_time_hours plain_candidates)
    /\ _score_routes plain_candidates = inr ranking
    /\ Permutation ranking (Spec.scored plain_candidates scores)
    /\ Forall2 (fun a s =>
                  s == Spec.total_score min_distance min_time a
                  /\ 0 <= s <= 100
                  /\ (Analysis.distance_nm a == min_distance ->
                      Spec.distance_penalty min_distance a == 0))
               plain_candidates scores.
Proof.
  apply (score_routes_formula plain_candidates).
  - discriminate.
  - intros a [<- | [<- | []]]; split; reflexivity.
Defined.

(** C1 as stated fails. A candidate set of one route of 0.05nm, analysed
    for a vessel of 20 knots: the time of the route, 0.0025 hours, is
    recorded as 0.0, the scorer divides by the least time of the set and
    raises ZeroDivisionError, and the candidate is left without a
    total_score. *)
Lemma zero_time_candidate_is_not_scored :
  exists analysis,
    short_hop_analyses = [analysis]
    /\ Qred (Analysis.distance_nm analysis) = 1 # 20
    /\ Qred (Analysis.total_time_hours analysis) = 0
    /\ _score_routes short_hop_analyses = inl ZeroDivisionError
    /\ ~ (exists ranking, _score_routes short_hop_analyses = inr ranking).
Proof.
  eexists. split; [vm_compute; reflexivity |].
  split; [vm_compute; reflexivity |].
  split; [vm_compute; reflexivity |].
  split; [vm_compute; reflexivity |].
  intros [ranking E]. vm_compute in E. discriminate.
Qed.

(** C3, as the code has it. The scorer orders the routes by total_score
    descending, and routes with equal total_score keep the order they had
    in the candidate list: the sort has the score as its only key and is
    stable. *)
Theorem ranking_descending_stable :
  forall route_analyses : list Analysis.t,
    (forall a, In a route_analyses ->
       0 < Analysis.distance_nm a /\ 0 < Analysis.total_time_hours a) ->
    exists scores ranking,
      List.length scores = List.length route_analyses
      /\ _score_routes route_analyses = inr ranking
      /\ Permutation ranking (Spec.scored route_analyses scores)
      /\ Ranking.descending ranking
      /\ Ranking.stable (Spec.scored route_analyses scores) ranking.
Proof.
  intros ras P.
  assert (L : exists scores,
             List.length scores = List.length ras
             /\ score_loop ras ras = inr (Spec.scored ras scores)).
  { destruct ras as [| a ras'] eqn:R.
    - exists []. split; reflexivity.
    - rewrite <- R in *.
      destruct (score_loop_against_baselines ras) as (md & mt & scores & _ & _ & El & F).
      + rewrite R. discriminate.
      + exact P.
      + exists scores. split; [symmetry; exact (Forall2_length F) | exact El]. }
  destruct L as (scores & Len & El).
  exists scores, (sort_by_score (Spec.scored ras scores)).
  split; [exact Len |]. split.
  { unfold _score_routes. rewrite El. reflexivity. }
  split; [apply Permutation_sym, sort_by_score_perm |].
  split; [apply sort_by_score_descending | apply sort_by_score_stable].
Qed.

Lemma ranking_descending_stable_witness :
  exists scores ranking,
    List.length scores = List.length plain_candidates
    /\ _score_routes plain_candidates = inr ranking
    /\ Permutation ranking (Spec.scored plain_candidates scores)
    /\ Ranking.descending ranking
    /\ Ranking.stable (Spec.scored plain_candidates scores) ranking.
Proof.
  apply (ranking_descending_stable plain_candidates).
  intros a [<- | [<- | []]]; split; reflexivity.
Defined.

(** ** The traffic simulator and its walk *)

Lemma inject_Z_nonzero (z : Z) : z <> 0%Z -> ~ inject_Z z == 0.
Proof.
  intros N E. apply N. unfold Qeq in E. simpl in E. lia.
Qed.

Lemma count_nonzero {A} (l : list A) :
  l <> [] -> ~ inject_Z (Z.of_nat (List.length l)) == 0.
Proof.
  intro N. apply inject_Z_nonzero. destruct l; [congruence | simpl; lia].
Qed.

Lemma count_times_ten_nonzero {A} (l : list A) :
  l <> [] -> ~ inject_Z (Z.of_nat (List.length l)) * 10 == 0.
Proof.
  intros N E. apply (count_nonzero l N).
  destruct (Qmult_integral _ _ E) as [Z | Z]; [exact Z | discriminate].
Qed.

Lemma returns_hourly (total_vessels : Z) (hours : list Z) :
  returns (mapM (hourly_entry total_vessels) hours) (fun _ => True).
Proof.
  eapply returns_weaken.
  - apply (returns_mapM _ _ (fun _ => True)). intros h _.
    unfold hourly_entry. eapply returns_bind; [apply returns_uniform |].
    intros u _. apply returns_ret. exact I.
  - intros; exact I.
Qed.

Lemma analyze_maritime_traffic_returns (segment_id : string)
    (coordinates : list (Q * Q)) (analysis_date : date) (time_window_hours : Z) :
  coordinates <> [] ->
  returns (analyze_maritime_traffic segment_id coordinates analysis_date time_window_hours)
          (fresh_traffic segment_id analysis_date).
Proof.
  intro N. unfold analyze_maritime_traffic. cbv zeta.
  eapply returns_bind.
  { eapply (returns_lift _ _ (fun _ => True));
      [apply py_div_ok, count_nonzero, N | exact I]. }
  intros lat_avg _. eapply returns_bind.
  { eapply (returns_lift _ _ (fun _ => True));
      [apply py_div_ok, count_nonzero, N | exact I]. }
  intros lon_avg _. eapply returns_bind; [apply returns_randint |].
  intros delta _. eapply returns_bind; [apply returns_uniform |].
  intros port_proximity_factor _. eapply returns_bind.
  { eapply (returns_lift _ _ (fun _ => True));
      [apply py_div_ok, count_times_ten_nonzero, N | exact I]. }
  intros traffic_density _. eapply returns_bind.
  { instantiate (1 := fun _ => True).
    destruct (congestion_of _);
      [apply returns_ret; exact I | apply returns_uniform
       | apply returns_uniform | apply returns_ret; exact I]. }
  intros average_speed_reduction _. eapply returns_bind; [apply returns_hourly |].
  intros hourly_traffic _. apply returns_ret.
  repeat split.
Qed.

Lemma analyze_maritime_traffic_raises (segment_id : string)
    (analysis_date : date) (time_window_hours : Z) (g : Rng) :
  analyze_maritime_traffic segment_id [] analysis_date time_window_hours g
  = inl ZeroDivisionError.
Proof. reflexivity. Qed.

Lemma analyze_maritime_traffic_ensures (segment_id : string)
    (coordinates : list (Q * Q)) (analysis_date : date) (time_window_hours : Z) :
  ensures (analyze_maritime_traffic segment_id coordinates analysis_date time_window_hours)
          (fun r => coordinates <> [] /\ fresh_traffic segment_id analysis_date r).
Proof.
  intros g r g' E. destruct coordinates as [| c coordinates].
  - rewrite analyze_maritime_traffic_raises in E. discriminate.
  - split; [discriminate |].
    destruct (analyze_maritime_traffic_returns segment_id (c :: coordinates)
                analysis_date time_window_hours ltac:(discriminate) g)
      as (r' & g1 & E' & F).
    rewrite E in E'. injection E' as <- <-. exact F.
Qed.

Lemma effective_speed_positive (a : Q) : 0 < py_max a 10.
Proof.
  apply Qlt_le_trans with (y := 10); [reflexivity | apply py_max_lower].
Qed.

Lemma effective_speed_nonzero (a : Q) : ~ py_max a 10 == 0.
Proof.
  intro E. pose proof (effective_speed_positive a) as P.
  rewrite E in P. exact (Qlt_irrefl _ P).
Qed.

Lemma traffic_forecast_loop_returns (departure : datetime) (vessel_speed_knots : Q)
    (route_segments : list Segment.t) :
  (forall s, In s route_segments -> Segment.coordinates s <> []) ->
  forall elapsed,
    returns (traffic_forecast_loop departure vessel_speed_knots elapsed route_segments)
            (traffic_walk_result departure vessel_speed_knots elapsed route_segments).
Proof.
  induction route_segments as [| s segs IH]; intros N elapsed.
  - apply returns_ret. repeat split. constructor.
  - simpl traffic_forecast_loop. cbv zeta.
    eapply returns_bind.
    { apply analyze_maritime_traffic_returns. apply N. left; reflexivity. }
    intros traffic (Fid & Fdate & Falerts).
    eapply returns_bind; [apply returns_div, effective_speed_nonzero |].
    intros segment_hours ->.
    eapply returns_bind.
    { apply IH. intros s' I'. apply N. right; exact I'. }
    intros others (L & Ids & Hs & F).
    apply returns_ret. unfold traffic_walk_result. repeat split.
    + simpl. rewrite L. reflexivity.
    + simpl. rewrite Fid, Ids. reflexivity.
    + simpl. f_equal. exact Hs.
    + constructor; [| exact F].
      exists elapsed. unfold traffic_entry_at. simpl.
      repeat split; assumption.
Qed.







(** C10. On every segment with coordinates [analyze_maritime_traffic]
    returns, and the [alerts] of what it returns is the empty list. *)
Theorem traffic_alerts_empty :
  forall (segment_id : string) (coordinates : list (Q * Q))
         (analysis_date : date) (time_window_hours : Z) (g : Rng),
    coordinates <> [] ->
    exists r g',
      analyze_maritime_traffic segment_id coordinates analysis_date
        time_window_hours g = inr (r, g')
      /\ Traffic.alerts r = [].
Proof.
  intros id coordinates d w g N.
  destruct (analyze_maritime_traffic_returns id coordinates d w N g)
    as (r & g' & E & _ & _ & A).
  exists r, g'. split; assumption.
Qed.

Lemma traffic_alerts_empty_witness :
  exists r g',
    analyze_maritime_traffic "L_seg_1" [(35, -20)] 100%Z 24 rough_tape = inr (r, g')
    /\ Traffic.alerts r = [].
Proof.
  apply (traffic_alerts_empty "L_seg_1" [(35, -20)] 100%Z 24 rough_tape).
  discriminate.
Defined.

(** The same call meets the two conditions under which the unreachable
    statements would have added an alert: the congestion is "High" and the
    density is above 6. *)
Example dense_traffic_without_alert :
  exists r g',
    analyze_maritime_traffic "L_seg_1" [(35, -20)] 100%Z 24 rough_tape = inr (r, g')
    /\ TrafficSummary.congestion_level (Traffic.traffic_summary r) = High
    /\ 6 < TrafficSummary.traffic_density (Traffic.traffic_summary r)
    /\ Traffic.alerts r = [].
Proof.
  eexists; eexists. split; [vm_compute; reflexivity |].
  repeat split.
Qed.

(** ** The weather simulator and its walk *)

Lemma point_forecast_returns (forecast_date : date) (c : Q * Q) :
  returns (point_forecast forecast_date c) (fun _ => True).
Proof.
  destruct c as [lat lon]. unfold point_forecast. cbv zeta.
  eapply returns_bind; [apply returns_choice; discriminate |].
  intros condition _. eapply returns_bind; [apply returns_choice; discriminate |].
  intros seas _. eapply returns_bind; [apply returns_uniform |].
  intros dt _. eapply returns_bind; [apply returns_randint |].
  intros humidity _. eapply returns_bind; [apply returns_uniform |].
  intros wind _. eapply returns_bind; [apply returns_uniform |].
  intros wave _. eapply returns_bind; [apply returns_uniform |].
  intros vis _. eapply returns_bind; [apply returns_randint |].
  intros pressure _. eapply returns_bind; [apply returns_choice; discriminate |].
  intros sea _. apply returns_ret. exact I.
Qed.

Lemma get_weather_forecast_returns (coordinates : list (Q * Q))
    (forecast_date : date) (segment_id : string) :
  returns (get_weather_forecast coordinates forecast_date segment_id)
          (fun f => WeatherForecast.segment_id f = segment_id
                    /\ WeatherForecast.forecast_date f = forecast_date).
Proof.
  unfold get_weather_forecast. cbv zeta.
  eapply returns_bind.
  - apply (returns_mapM _ _ (fun _ => True)).
    intros c _. apply point_forecast_returns.
  - intros forecasts _. apply returns_ret. split; reflexivity.
Qed.

(** Without coordinates the weather simulator does not raise: it reports no
    point, the label "Unknown" and the risk "Low". *)
Lemma get_weather_forecast_no_coordinates (forecast_date : date)
    (segment_id : string) (g : Rng) :
  exists f,
    get_weather_forecast [] forecast_date segment_id g = inr (f, g)
    /\ WeatherForecast.points_analyzed f = 0%nat
    /\ SegmentSummary.predominant_condition (WeatherForecast.segment_summary f) = []
    /\ SegmentSummary.risk_level (WeatherForecast.segment_summary f) = Low.
Proof. eexists. split; [cbv; reflexivity |]. repeat split. Qed.

Lemma extended_forecast_loop_returns (departure : datetime) (vessel_speed_knots : Q)
    (route_segments : list Segment.t) :
  forall covered,
    returns (extended_forecast_loop departure vessel_speed_knots covered route_segments)
            (weather_walk_result departure vessel_speed_knots covered route_segments).
Proof.
  induction route_segments as [| s segs IH]; intro covered.
  - apply returns_ret. split; [reflexivity | constructor].
  - simpl extended_forecast_loop. cbv zeta.
    eapply returns_bind; [apply get_weather_forecast_returns |].
    intros forecast [Fid Fdate].
    eapply returns_bind; [apply IH |].
    intros others [Ids F]. apply returns_ret. split.
    + simpl. rewrite Fid, Ids. reflexivity.
    + simpl. constructor; [| exact F].
      unfold weather_entry_at, weather_hours. simpl.
      repeat split. exact Fdate.
Qed.

(** ** The event simulator and its walk *)

Lemma template_has_events (t : NewsTemplate.t) :
  In t news_templates -> NewsTemplate.events t <> [].
Proof.
  intros [<- | [<- | [<- | [<- | [<- | []]]]]]; discriminate.
Qed.

Lemma news_item_returns (segment_id : string) (segment_coordinates : list (Q * Q))
    (base_date : date) (days_before : Z) :
  segment_coordinates <> [] ->
  returns (news_item segment_id segment_coordinates base_date days_before)
          (fun item => NewsItem.hours_from_departure item = None).
Proof.
  intro N. unfold news_item. cbv zeta.
  eapply returns_bind; [apply returns_choice; discriminate |].
  intros event_type T. eapply returns_bind.
  { apply returns_choice. apply template_has_events. exact T. }
  intros event_desc _. eapply returns_bind; [apply returns_randint |].
  intros days_ago _. eapply returns_bind; [apply returns_div, count_nonzero, N |].
  intros center_lat _. eapply returns_bind; [apply returns_div, count_nonzero, N |].
  intros center_lon _. eapply returns_bind; [apply returns_choices; discriminate |].
  intros severity _. eapply returns_bind.
  { instantiate (1 := fun _ => True). destruct (low_or_medium severity); apply returns_randint. }
  intros duration_days _. eapply returns_bind; [apply returns_randint |].
  intros number _. eapply returns_bind; [apply returns_uniform |].
  intros dlat _. eapply returns_bind; [apply returns_uniform |].
  intros dlon _. apply returns_ret. reflexivity.
Qed.

Lemma news_item_raises (segment_id : string) (base_date : date) (days_before : Z) :
  raises (news_item segment_id [] base_date days_before).
Proof.
  unfold news_item. cbv zeta.
  apply raises_after; intro event_type.
  apply raises_after; intro event_desc.
  apply raises_after; intro days_ago.
  apply raises_bind. intro g. exists ZeroDivisionError. reflexivity.
Qed.

Lemma returns_both {A} (m : M A) (P Q : A -> Prop) :
  returns m P -> ensures m Q -> returns m (fun a => P a /\ Q a).
Proof.
  intros H E g. destruct (H g) as (a & g' & Ea & Pa).
  exists a, g'. split; [exact Ea |]. split; [exact Pa | exact (E _ _ _ Ea)].
Qed.

Lemma generate_news_returns (segment_id : string)
    (segment_coordinates : list (Q * Q)) (analysis_date : date) (days_before : Z) :
  segment_coordinates <> [] ->
  returns (generate_news_for_segment segment_id segment_coordinates analysis_date
             days_before)
          (fun items => (2 <= List.length items)%nat).
Proof.
  intro N. unfold generate_news_for_segment. cbv zeta.
  eapply returns_bind.
  { apply (returns_both _ (fun _ => True) (fun k => (2 <= k)%Z));
      [apply returns_randint | apply randint_lower; lia]. }
  intros num_events [_ L]. eapply returns_weaken.
  - apply returns_repeatM. apply news_item_returns. exact N.
  - intros items [Len _]. simpl in Len. rewrite Len. lia.
Qed.

Lemma generate_news_raises (segment_id : string) (analysis_date : date)
    (days_before : Z) :
  raises (generate_news_for_segment segment_id [] analysis_date days_before).
Proof.
  unfold generate_news_for_segment. cbv zeta.
  eapply raises_when; [apply randint_lower; lia |].
  intros num_events L. simpl in L.
  destruct (Z.to_nat num_events) as [| n] eqn:E; [lia |].
  simpl. apply raises_bind. apply news_item_raises.
Qed.

Lemma route_news_loop_returns (departure : datetime) (vessel_speed_knots : Q)
    (route_segments : list Segment.t) :
  ~ vessel_speed_knots == 0 ->
  (forall s, In s route_segments -> Segment.coordinates s <> []) ->
  forall elapsed,
    returns (route_news_loop departure vessel_speed_knots elapsed route_segments)
            (news_walk_result departure vessel_speed_knots elapsed route_segments).
Proof.
  intro V. induction route_segments as [| s segs IH]; intros N elapsed.
  - apply returns_ret. exists []. split; [reflexivity | constructor].
  - simpl route_news_loop. cbv zeta.
    eapply returns_bind.
    { apply generate_news_returns. apply N. left; reflexivity. }
    intros news_items L.
    eapply returns_bind; [apply returns_div, V |].
    intros segment_hours ->.
    eapply returns_bind.
    { apply IH. intros s' I'. apply N. right; exact I'. }
    intros others (groups & -> & F).
    apply returns_ret.
    exists (map (fun item =>
                   NewsItem.arrive item (departure + timedelta_hours elapsed)%Z elapsed)
                news_items :: groups).
    split; [reflexivity |].
    simpl. constructor; [| exact F].
    split.
    + rewrite length_map. exact L.
    + apply Forall_forall. intros item I'. apply in_map_iff in I'.
      destruct I' as (item0 & <- & _). split; reflexivity.
Qed.

(** ** The three walks of one route *)

Lemma weather_dates (departure_date : date) (vessel_speed_knots : Q)
    (distances : list Q) (forecast : list WeatherForecast.t) :
  Forall2 (weather_entry_at (strptime departure_date) vessel_speed_knots)
          distances forecast ->
  map WeatherForecast.forecast_date forecast
  = map (fun covered =>
           Spec.projected_date departure_date
             (weather_hours vessel_speed_knots covered))
        distances.
Proof.
  induction 1 as [| covered f distances forecast (_ & _ & D) _ IH].
  - reflexivity.
  - simpl. rewrite D, IH. reflexivity.
Qed.

Lemma traffic_dates (departure_date : date) (vessel_speed_knots : Q)
    (forecast : list Traffic.t) :
  forall hours,
    map Traffic.hours_from_departure forecast = map Some hours ->
    Forall (fun t => exists h,
                traffic_entry_at (strptime departure_date) vessel_speed_knots h t)
           forecast ->
    map Traffic.analysis_date forecast
    = map (Spec.projected_date departure_date) hours.
Proof.
  induction forecast as [| t forecast IH]; intros hours Hs F.
  - destruct hours; [reflexivity | discriminate].
  - destruct hours as [| h hours]; [discriminate |].
    simpl in Hs. injection Hs as Ht Hs.
    inversion F as [| ? ? (h' & Hh & _ & D & _) F']; subst.
    rewrite Ht in Hh. injection Hh as <-.
    simpl. rewrite D, (IH hours Hs F'). reflexivity.
Qed.

(** C4, as the code has it. On a route whose segments have coordinates, for
    a base speed other than 0, the three simulators are called in three
    walks of the segments, each with its own clock.  The weather simulator
    gets segment k's date from the distance of the segments before it over
    the base speed (from 0 hours when the base speed is not positive); the
    traffic simulator gets it from the hours of the segments before it at
    their traffic-adjusted effective speeds; the event simulator gets it
    from the hours of the segments before it at the base speed. *)
Theorem walks_project_own_dates :
  forall (route_segments : list Segment.t) (departure_date : date)
         (vessel_speed_knots : Q) (g : Rng),
    (forall s, In s route_segments -> Segment.coordinates s <> []) ->
    ~ vessel_speed_knots == 0 ->
    exists weather g1 traffic g2 news g3,
      get_extended_forecast route_segments departure_date vessel_speed_knots g
      = inr (weather, g1)
      /\ get_traffic_forecast route_segments departure_date vessel_speed_knots g1
         = inr (traffic, g2)
      /\ analyze_route_news route_segments departure_date vessel_speed_knots g2
         = inr (news, g3)
      /\ map WeatherForecast.forecast_date weather
         = map (fun covered =>
                  Spec.projected_date departure_date
                    (weather_hours vessel_speed_knots covered))
               (Spec.totals_before 0 (map segment_distance route_segments))
      /\ map Traffic.analysis_date traffic
         = map (Spec.projected_date departure_date)
               (Spec.totals_before 0
                  (traffic_segment_hours vessel_speed_knots route_segments traffic))
      /\ news_walk_result (strptime departure_date) vessel_speed_knots 0
           route_segments (NewsAnalysis.news_items news).
Proof.
  intros segs dep v g N V.
  destruct (extended_forecast_loop_returns (strptime dep) v segs 0 g)
    as (weather & g1 & Ew & _ & Fw).
  destruct (traffic_forecast_loop_returns (strptime dep) v segs N 0 g1)
    as (traffic & g2 & Et & _ & _ & Hs & Ft).
  destruct (route_news_loop_returns (strptime dep) v segs V N 0 g2)
    as (all_news & g3 & En & Fn).
  eexists weather, g1, traffic, g2, _, g3.
  split; [exact Ew |]. split; [exact Et |]. split.
  { unfold analyze_route_news. rewrite (bind_step _ _ _ _ _ En). reflexivity. }
  split; [apply weather_dates; exact Fw |].
  split; [apply (traffic_dates dep v traffic _ Hs Ft) | exact Fn].
Qed.

Lemma walks_project_own_dates_witness :
  exists weather g1 traffic g2 news g3,
    get_extended_forecast lane_segments 100%Z 20 rough_tape = inr (weather, g1)
    /\ get_traffic_forecast lane_segments 100%Z 20 g1 = inr (traffic, g2)
    /\ analyze_route_news lane_segments 100%Z 20 g2 = inr (news, g3)
    /\ map WeatherForecast.forecast_date weather
       = map (fun covered =>
                Spec.projected_date 100%Z (weather_hours 20 covered))
             (Spec.totals_before 0 (map segment_distance lane_segments))
    /\ map Traffic.analysis_date traffic
       = map (Spec.projected_date 100%Z)
             (Spec.totals_before 0 (traffic_segment_hours 20 lane_segments traffic))
    /\ news_walk_result (strptime 100%Z) 20 0 lane_segments
         (NewsAnalysis.news_items news).
Proof.
  apply (walks_project_own_dates lane_segments 100%Z 20 rough_tape).
  - intros s [<- | [<- | []]]; discriminate.
  - discriminate.
Defined.

(** C4 as stated fails: on the lane route at 20 knots the weather
    simulator is called for the second segment with the day of departure
    (400nm at the base speed take 20 hours), the traffic simulator with the
    next day (at the effective speed of 15 knots they take more than 24). *)
Lemma weather_and_traffic_dates_differ :
  exists weather g1 traffic g2,
    get_extended_forecast lane_segments 100%Z 20 rough_tape = inr (weather, g1)
    /\ get_traffic_forecast lane_segments 100%Z 20 g1 = inr (traffic, g2)
    /\ map WeatherForecast.forecast_date weather = [100; 100]%Z
    /\ map Traffic.analysis_date traffic = [100; 101]%Z
    /\ map WeatherForecast.forecast_date weather <> map Traffic.analysis_date traffic.
Proof.
  eexists; eexists; eexists; eexists.
  split; [vm_compute; reflexivity |].
  split; [vm_compute; reflexivity |].
  repeat split. discriminate.
Qed.

(** ** The analysis of one route *)

Lemma quotient_nonzero (a b : Q) : ~ a == 0 -> ~ b == 0 -> ~ a / b == 0.
Proof.
  intros A B E. unfold Qdiv in E.
  destruct (Qmult_integral _ _ E) as [Z | Z]; [exact (A Z) |].
  apply B. rewrite <- (Qinv_involutive b), Z. reflexivity.
Qed.

Lemma route_time_nonzero (distance vessel_speed_knots : Q) (flagged congested : nat) :
  ~ distance == 0 -> ~ vessel_speed_knots == 0 ->
  ~ route_time_as_analyzed distance vessel_speed_knots flagged congested == 0.
Proof.
  intros D V. unfold route_time_as_analyzed. cbv zeta.
  pose proof (quotient_nonzero _ _ D V) as B.
  set (b := distance / vessel_speed_knots) in *.
  intro E.
  assert (F : exists c, ~ c == 0
                        /\ b + (if Nat.ltb 1 flagged then b * (15 / 100) else 0)
                             + (if Nat.ltb 1 congested then b * (1 # 10) else 0)
                           == b * c).
  { destruct (Nat.ltb 1 flagged), (Nat.ltb 1 congested).
    - exists (125 # 100). split; [discriminate | field].
    - exists (115 # 100). split; [discriminate | field].
    - exists (110 # 100). split; [discriminate | field].
    - exists 1. split; [discriminate | field]. }
  destruct F as (c & C & F). rewrite F in E.
  destruct (Qmult_integral _ _ E) as [Z | Z]; contradiction.
Qed.

Lemma calculate_route_time_value (route : Route.t) (vessel_speed_knots : Q)
    (flagged congested : nat) (tc : TimeCalculation.t) :
  calculate_route_time route vessel_speed_knots
    (weather_impact_of flagged) (traffic_impact_of congested) = inr tc ->
  TimeCalculation.total_time_hours tc
  == py_round (route_time_as_analyzed (Route.total_distance_nm route)
                 vessel_speed_knots flagged congested) 2.
Proof.
  unfold calculate_route_time, py_div.
  destruct (Qeq_bool vessel_speed_knots 0); [discriminate |].
  cbn [bindR ok raise].
  match goal with |- context [Qeq_bool ?t 0] => destruct (Qeq_bool t 0) end;
    [discriminate |].
  cbn [bindR ok raise]. intro H. injection H as <-.
  cbn [TimeCalculation.total_time_hours].
  apply py_round_comp; [| reflexivity].
  unfold route_time_as_analyzed, weather_impact_of, traffic_impact_of.
  destruct (Nat.ltb 1 flagged), (Nat.ltb 1 congested);
    cbn [WeatherImpact.average_wind_speed TrafficImpact.congestion_level];
    reflexivity.
Qed.

Lemma calculate_route_time_returns (route : Route.t) (vessel_speed_knots : Q)
    (flagged congested : nat) :
  ~ Route.total_distance_nm route == 0 -> ~ vessel_speed_knots == 0 ->
  exists tc,
    calculate_route_time route vessel_speed_knots
      (weather_impact_of flagged) (traffic_impact_of congested) = inr tc.
Proof.
  intros D V.
  pose proof (route_time_nonzero _ _ flagged congested D V) as T.
  unfold calculate_route_time.
  rewrite (py_div_ok _ _ V). cbn [bindR].
  rewrite py_div_ok; [cbn [bindR]; eexists; reflexivity |].
  intro E. apply T. rewrite <- E.
  unfold route_time_as_analyzed, weather_impact_of, traffic_impact_of.
  destruct (Nat.ltb 1 flagged), (Nat.ltb 1 congested);
    cbn [WeatherImpact.average_wind_speed TrafficImpact.congestion_level];
    reflexivity.
Qed.

Lemma analyze_single_route_ensures (route : Route.t) (departure_date : date)
    (vessel_speed : Q) :
  ensures (_analyze_single_route route departure_date vessel_speed)
          (analysis_of route vessel_speed).
Proof.
  intros g a g' E. unfold _analyze_single_route in E. cbv zeta in E.
  run_inv E. destruct E as [<- _].
  match goal with
  | H : lift _ _ = inr _ |- _ => apply lift_inr in H; destruct H as [T _]
  end.
  unfold analysis_of. cbn. repeat split. exact T.
Qed.

Lemma analyze_route_news_returns (route_segments : list Segment.t)
    (departure_date : date) (vessel_speed_knots : Q) :
  ~ vessel_speed_knots == 0 ->
  (forall s, In s route_segments -> Segment.coordinates s <> []) ->
  returns (analyze_route_news route_segments departure_date vessel_speed_knots)
          (fun _ => True).
Proof.
  intros V N. unfold analyze_route_news.
  eapply returns_bind; [apply (route_news_loop_returns _ _ _ V N) |].
  intros all_news _. apply returns_ret. exact I.
Qed.

Lemma analyze_single_route_returns (route : Route.t) (departure_date : date)
    (vessel_speed : Q) :
  (forall s, In s (Route.segments route) -> Segment.coordinates s <> []) ->
  ~ vessel_speed == 0 ->
  ~ Route.total_distance_nm route == 0 ->
  returns (_analyze_single_route route departure_date vessel_speed)
          (analysis_of route vessel_speed).
Proof.
  intros N V D.
  apply (returns_weaken _ (fun a => True /\ analysis_of route vessel_speed a));
    [| intros a [_ A]; exact A].
  apply returns_both; [| apply analyze_single_route_ensures].
  unfold _analyze_single_route. cbv zeta.
  eapply returns_bind; [apply extended_forecast_loop_returns |].
  intros weather _.
  eapply returns_bind; [apply traffic_forecast_loop_returns; exact N |].
  intros traffic _.
  eapply returns_bind; [apply analyze_route_news_returns; assumption |].
  intros news _.
  eapply returns_bind.
  { destruct (calculate_route_time_returns route vessel_speed
                (Spec.flagged_segments weather) (Spec.congested_segments traffic) D V)
      as (tc & T).
    eapply (returns_lift _ tc (fun _ => True)); [exact T | exact I]. }
  intros tc _. apply returns_ret. exact I.
Qed.

(** C2, as the code has it. For a route whose segments have coordinates,
    with a distance and a base speed other than 0, the analysis returns and
    its total_time_hours is, rounded to two decimals, base_time +
    weather_delay + traffic_delay with base_time = distance / speed,
    weather_delay = base_time x 15/100 exactly when more than one segment is
    flagged Medium or High weather risk, and traffic_delay = base_time x
    0.10 exactly when more than one segment has Medium or High
    congestion. *)
Theorem analyzed_route_time :
  forall (route : Route.t) (departure_date : date) (vessel_speed : Q) (g : Rng),
    (forall s, In s (Route.segments route) -> Segment.coordinates s <> []) ->
    ~ vessel_speed == 0 ->
    ~ Route.total_distance_nm route == 0 ->
    exists a g',
      _analyze_single_route route departure_date vessel_speed g = inr (a, g')
      /\ Analysis.total_time_hours a
         == py_round
              (route_time_as_analyzed (Route.total_distance_nm route) vessel_speed
                 (Spec.flagged_segments
                    (WeatherAnalysis.forecast_summary (Analysis.weather_analysis a)))
                 (Spec.congested_segments
                    (TrafficAnalysis.traffic_summary (Analysis.traffic_analysis a))))
              2.
Proof.
  intros route dep v g N V D.
  destruct (analyze_single_route_returns route dep v N V D g) as (a & g' & E & A).
  exists a, g'. split; [exact E |].
  destruct A as (_ & _ & _ & _ & _ & _ & _ & T).
  apply (calculate_route_time_value _ _ _ _ _ T).
Qed.

Lemma analyzed_route_time_witness :
  exists a g',
    _analyze_single_route lane_route 100%Z 20 rough_tape = inr (a, g')
    /\ Analysis.total_time_hours a
       == py_round
            (route_time_as_analyzed (Route.total_distance_nm lane_route) 20
               (Spec.flagged_segments
                  (WeatherAnalysis.forecast_summary (Analysis.weather_analysis a)))
               (Spec.congested_segments
                  (TrafficAnalysis.traffic_summary (Analysis.traffic_analysis a))))
            2.
Proof.
  apply (analyzed_route_time lane_route 100%Z 20 rough_tape).
  - intros s [<- | [<- | []]]; discriminate.
  - discriminate.
  - discriminate.
Defined.

(** C2 as stated fails on the lane route at 20 knots: both segments are
    flagged with an average wind of 74.4 knots and both are congested, so
    the route's congestion level is "Medium"; the specification's formula
    gives 25 + 25 x 0.744 + 25 x 0.05 = 44.85 hours, the analysis holds
    25 + 25 x 0.15 + 25 x 0.10 = 31.25 hours. *)
Lemma analyzed_time_differs_from_stated :
  exists a g',
    _analyze_single_route lane_route 100%Z 20 rough_tape = inr (a, g')
    /\ TrafficAnalysis.overall_congestion (Analysis.traffic_analysis a) = Medium
    /\ Spec.route_average_wind
         (WeatherAnalysis.forecast_summary (Analysis.weather_analysis a)) == 744 # 10
    /\ Spec.total_time_hours (Route.total_distance_nm lane_route) 20
         (WeatherAnalysis.forecast_summary (Analysis.weather_analysis a))
         (TrafficAnalysis.traffic_summary (Analysis.traffic_analysis a))
         (TrafficAnalysis.overall_congestion (Analysis.traffic_analysis a))
       == 4485 # 100
    /\ Analysis.total_time_hours a == 3125 # 100
    /\ ~ Analysis.total_time_hours a
         == Spec.total_time_hours (Route.total_distance_nm lane_route) 20
              (WeatherAnalysis.forecast_summary (Analysis.weather_analysis a))
              (TrafficAnalysis.traffic_summary (Analysis.traffic_analysis a))
              (TrafficAnalysis.overall_congestion (Analysis.traffic_analysis a)).
Proof.
  eexists; eexists. split; [vm_compute; reflexivity |].
  split; [reflexivity |].
  split; [vm_compute; reflexivity |].
  split; [vm_compute; reflexivity |].
  split; [vm_compute; reflexivity |].
  vm_compute. discriminate.
Qed.

(** ** Failures of a simulator *)

Lemma traffic_forecast_loop_raises (departure : datetime) (vessel_speed_knots : Q)
    (route_segments : list Segment.t) :
  (exists s, In s route_segments /\ Segment.coordinates s = []) ->
  forall elapsed,
    raises (traffic_forecast_loop departure vessel_speed_knots elapsed route_segments).
Proof.
  induction route_segments as [| s segs IH]; intros (bad & I & B) elapsed.
  - destruct I.
  - simpl traffic_forecast_loop. cbv zeta.
    destruct I as [-> | I].
    + apply raises_bind. rewrite B. intro g.
      exists ZeroDivisionError. apply analyze_maritime_traffic_raises.
    + apply raises_after; intro traffic.
      apply raises_after; intro segment_hours.
      apply raises_bind. apply IH. exists bad. split; assumption.
Qed.

Lemma analyze_single_route_raises (route : Route.t) (departure_date : date)
    (vessel_speed : Q) :
  (exists s, In s (Route.segments route) /\ Segment.coordinates s = []) ->
  raises (_analyze_single_route route departure_date vessel_speed).
Proof.
  intro B. unfold _analyze_single_route. cbv zeta.
  apply raises_after; intro weather.
  apply raises_bind. apply traffic_forecast_loop_raises. exact B.
Qed.

(** C8, as the code has it. No simulator failure is caught per segment.
    The traffic and the event simulators raise on an empty coordinate list;
    a route with such a segment makes its analysis raise, and the handler
    of the request turns that into the failed response, whatever the other
    segments and routes are.  The weather simulator does not raise on an
    empty coordinate list: it reports the label "Unknown" and the risk
    "Low". *)
Theorem simulator_failure_fails_request :
  forall (routes : list Route.t) (origin_port destination_port : string)
         (departure_date : date) (carrier_info : CarrierInfo.t) (g : Rng),
    (exists route s,
        In route routes /\ In s (Route.segments route)
        /\ Segment.coordinates s = []) ->
    (exists e,
        analyze_found_routes routes origin_port destination_port departure_date
          carrier_info g = Failed (ExceptionText e))
    /\ (forall id d w g0,
          analyze_maritime_traffic id [] d w g0 = inl ZeroDivisionError)
    /\ (forall id d n, raises (generate_news_for_segment id [] d n))
    /\ (forall d id g0, exists f,
          get_weather_forecast [] d id g0 = inr (f, g0)
          /\ SegmentSummary.predominant_condition (WeatherForecast.segment_summary f) = []
          /\ SegmentSummary.risk_level (WeatherForecast.segment_summary f) = Low).
Proof.
  intros routes o d dep carrier g (route & s & Ir & Is & B).
  split; [| split; [| split]].
  - unfold analyze_found_routes.
    destruct routes as [| r0 routes0] eqn:R; [destruct Ir |].
    rewrite <- R in *.
    destruct (mapM_inl (fun route => _analyze_single_route route dep
                                       (CarrierInfo.avg_speed_knots carrier))
                routes) with (g := g) as (e & E).
    + exists route. split; [exact Ir |].
      apply analyze_single_route_raises. exists s. split; assumption.
    + exists e. rewrite E. reflexivity.
  - intros. apply analyze_maritime_traffic_raises.
  - intros. apply generate_news_raises.
  - intros d0 id g0.
    destruct (get_weather_forecast_no_coordinates d0 id g0) as (f & E & _ & P & L).
    exists f. repeat split; assumption.
Qed.

Lemma simulator_failure_fails_request_witness :
  (exists e,
      analyze_found_routes [lane_route; broken_route] "New York" "London" 100%Z
        sea_voyager calm_tape = Failed (ExceptionText e))
  /\ (forall id d w g0,
        analyze_maritime_traffic id [] d w g0 = inl ZeroDivisionError)
  /\ (forall id d n, raises (generate_news_for_segment id [] d n))
  /\ (forall d id g0, exists f,
        get_weather_forecast [] d id g0 = inr (f, g0)
        /\ SegmentSummary.predominant_condition (WeatherForecast.segment_summary f) = []
        /\ SegmentSummary.risk_level (WeatherForecast.segment_summary f) = Low).
Proof.
  apply (simulator_failure_fails_request [lane_route; broken_route]
           "New York" "London" 100%Z sea_voyager calm_tape).
  exists broken_route, (Segment.mk "B_seg_2" [] [] (Some 100)).
  split; [right; left; reflexivity |].
  split; [right; left; reflexivity | reflexivity].
Defined.

(** C8 as stated fails: the lane route alone is analysed and ranked; with
    the broken route beside it, whose first segment is sound, the whole
    request fails on the division by zero of the traffic simulator, and the
    analysis of the broken route is not one with a degraded segment. *)
Lemma one_failing_segment_fails_request :
  (exists summary ranking recommendations,
      analyze_found_routes [lane_route] "New York" "London" 100%Z
        sea_voyager calm_tape = Success summary ranking recommendations)
  /\ analyze_found_routes [lane_route; broken_route] "New York" "London" 100%Z
       sea_voyager calm_tape = Failed (ExceptionText ZeroDivisionError)
  /\ _analyze_single_route broken_route 100%Z 20 calm_tape = inl ZeroDivisionError.
Proof.
  split; [eexists; eexists; eexists; vm_compute; reflexivity |].
  split; vm_compute; reflexivity.
Qed.

(** ** Rankings of whole requests *)

(** C3 as stated fails. Three routes between the same ports, 1000nm,
    6000nm and 5000nm, for a carrier of 20 knots on the calm tape: the second
    and the third both score 0, and the ranking keeps the 6000nm route ahead
    of the 5000nm route. *)
Lemma ranking_ties_keep_candidate_order :
  exists summary ranking recommendations,
    analyze_routes (H := series_math) (Some tie_data) "New York" "Cape Town"
      0%Z "CR_0003" calm_tape
    = Success summary ranking recommendations
    /\ map (fun a => (Analysis.route_id a, Qred (score_key a), Qred (Analysis.distance_nm a)))
           ranking
       = [("R_A", 100, 1000); ("R_B", 0, 6000); ("R_C", 0, 5000)]%string
    /\ ~ Spec.ranked ranking.
Proof.
  eexists; eexists; eexists.
  split; [vm_compute; reflexivity |].
  split; [vm_compute; reflexivity |].
  intro S. unfold Spec.ranked in S.
  inversion S as [| ? ? S1 _]; subst; clear S.
  inversion S1 as [| ? ? _ H]; subst; clear S1.
  inversion H as [| ? ? R]; subst; clear H.
  destruct R as [L | [_ [L | [E _]]]];
    vm_compute in L || vm_compute in E; discriminate.
Qed.

Lemma overall_level_low (n : nat) : overall_level n = Low -> n = 0%nat.
Proof.
  unfold overall_level. destruct n as [| [| [| n]]]; simpl; congruence.
Qed.

(** The figures of an analysis on which every factor is "Low": the
    distance of its route, and the route's base time. *)
Lemma low_analysis_figures (route : Route.t) (a : Analysis.t) (distance : Q) :
  analysis_of route 20 a ->
  low_on_every_factor a ->
  Route.total_distance_nm route == distance ->
  Analysis.distance_nm a == distance
  /\ Analysis.total_time_hours a == py_round (distance / 20) 2.
Proof.
  intros (_ & Hd & _ & _ & Hw & _ & Hc & T) (Lw & Lc & _) D.
  split; [rewrite Hd; exact D |].
  rewrite Hw in Lw. rewrite Hc in Lc.
  apply overall_level_low in Lw. apply overall_level_low in Lc.
  rewrite Lw, Lc in T.
  rewrite (calculate_route_time_value _ _ _ _ _ T).
  apply py_round_comp; [| reflexivity].
  unfold route_time_as_analyzed. cbn. rewrite D. ring.
Qed.

Lemma low_total_score (min_distance min_time d t dm tm : Q) (a : Analysis.t) :
  low_on_every_factor a ->
  Analysis.distance_nm a == d -> Analysis.total_time_hours a == t ->
  min_distance == dm -> min_time == tm ->
  Spec.total_score min_distance min_time a
  == Qmax 0 (100 - (d - dm) / dm * 10 - (t - tm) / tm * 15).
Proof.
  intros (Lw & Lc & Le) D T Dm Tm. unfold Spec.total_score.
  apply Q.max_compat; [reflexivity |].
  unfold Spec.distance_penalty, Spec.time_penalty, Spec.weather_penalty,
    Spec.traffic_penalty, Spec.event_penalty.
  rewrite Lw, Lc, Le, D, T, Dm, Tm. ring.
Qed.

Lemma least_of_two (m x y : Q) : Spec.least m [x; y] -> x <= y -> m == x.
Proof.
  intros [I L] Le. destruct I as [<- | [<- | []]]; [reflexivity |].
  apply Qle_antisym; [apply L; left; reflexivity | exact Le].
Qed.

Lemma least_of_two_swapped (m x y : Q) : Spec.least m [y; x] -> x <= y -> m == x.
Proof.
  intros [I L] Le. destruct I as [<- | [<- | []]]; [| reflexivity].
  apply Qle_antisym; [apply L; right; left; reflexivity | exact Le].
Qed.

Lemma insert_by_score_pair (x y : Analysis.t) :
  score_key y <= score_key x -> sort_by_score [x; y] = [x; y].
Proof.
  intro L. apply Qltb_false in L. simpl. rewrite L. reflexivity.
Qed.

Lemma insert_by_score_swap (x y : Analysis.t) :
  score_key y < score_key x -> sort_by_score [y; x] = [x; y].
Proof.
  intro L. apply Qltb_true in L. simpl. rewrite L. reflexivity.
Qed.

(** Two candidates with the figures of scenario A, in either order. *)
Lemma two_low_candidates (a1 a2 : Analysis.t) :
  low_on_every_factor a1 -> low_on_every_factor a2 ->
  Analysis.distance_nm a1 == 3000 -> Analysis.total_time_hours a1 == 150 ->
  Analysis.distance_nm a2 == 3300 -> Analysis.total_time_hours a2 == 165 ->
  exists s1 s2 s1' s2',
    _score_routes [a1; a2]
    = inr [Analysis.with_score a1 s1; Analysis.with_score a2 s2]
    /\ _score_routes [a2; a1]
       = inr [Analysis.with_score a1 s1'; Analysis.with_score a2 s2']
    /\ s1 == 100 /\ s2 == 975 # 10 /\ s1' == 100 /\ s2' == 975 # 10.
Proof.
  intros L1 L2 D1 T1 D2 T2.
  assert (P : forall a, a = a1 \/ a = a2 ->
                0 < Analysis.distance_nm a /\ 0 < Analysis.total_time_hours a).
  { intros a [-> | ->]; split;
      rewrite ?D1, ?T1, ?D2, ?T2; reflexivity. }
  destruct (score_loop_against_baselines [a1; a2]) as (md & mt & scores & Ld & Lt & El & F).
  { discriminate. }
  { intros a [<- | [<- | []]]; apply P; auto. }
  destruct (score_loop_against_baselines [a2; a1]) as (md' & mt' & scores' & Ld' & Lt' & El' & F').
  { discriminate. }
  { intros a [<- | [<- | []]]; apply P; auto. }
  inversion F as [| ? s1 ? ? (S1 & _) F1]; subst.
  inversion F1 as [| ? s2 ? ? (S2 & _) F2]; subst. inversion F2; subst.
  inversion F' as [| ? s2' ? ? (S2' & _) F1']; subst.
  inversion F1' as [| ? s1' ? ? (S1' & _) F2']; subst. inversion F2'; subst.
  clear F F1 F2 F' F1' F2'.
  assert (Md : md == 3000).
  { rewrite (least_of_two _ _ _ Ld); [exact D1 | rewrite D1, D2; discriminate]. }
  assert (Mt : mt == 150).
  { rewrite (least_of_two _ _ _ Lt); [exact T1 | rewrite T1, T2; discriminate]. }
  assert (Md' : md' == 3000).
  { rewrite (least_of_two_swapped _ _ _ Ld'); [exact D1 | rewrite D1, D2; discriminate]. }
  assert (Mt' : mt' == 150).
  { rewrite (least_of_two_swapped _ _ _ Lt'); [exact T1 | rewrite T1, T2; discriminate]. }
  rewrite (low_total_score _ _ _ _ _ _ _ L1 D1 T1 Md Mt) in S1.
  rewrite (low_total_score _ _ _ _ _ _ _ L2 D2 T2 Md Mt) in S2.
  rewrite (low_total_score _ _ _ _ _ _ _ L1 D1 T1 Md' Mt') in S1'.
  rewrite (low_total_score _ _ _ _ _ _ _ L2 D2 T2 Md' Mt') in S2'.
  assert (V1 : Qmax 0 (100 - (3000 - 3000) / 3000 * 10 - (150 - 150) / 150 * 15) == 100)
    by reflexivity.
  assert (V2 : Qmax 0 (100 - (3300 - 3000) / 3000 * 10 - (165 - 150) / 150 * 15) == 975 # 10)
    by reflexivity.
  rewrite V1 in S1, S1'. rewrite V2 in S2, S2'.
  exists s1, s2, s1', s2'.
  split; [| split; [| repeat split; assumption]].
  - unfold _score_routes. rewrite El. unfold bindR, ok. f_equal.
    change (Spec.scored [a1; a2] [s1; s2])
      with [Analysis.with_score a1 s1; Analysis.with_score a2 s2].
    apply insert_by_score_pair.
    cbn [score_key Analysis.with_score Analysis.route_score].
    rewrite S1, S2. discriminate.
  - unfold _score_routes. rewrite El'. unfold bindR, ok. f_equal.
    change (Spec.scored [a2; a1] [s2'; s1'])
      with [Analysis.with_score a2 s2'; Analysis.with_score a1 s1'].
    apply insert_by_score_swap.
    cbn [score_key Analysis.with_score Analysis.route_score].
    rewrite S1', S2'. reflexivity.
Qed.

Lemma Forall2_pair {A B} (R : A -> B -> Prop) (l : list A) (x y : B) :
  Forall2 R l [x; y] -> exists a b, l = [a; b] /\ R a x /\ R b y.
Proof.
  intro F. inversion F as [| a ? l1 ? Ra F1]; subst.
  inversion F1 as [| b ? l2 ? Rb F2]; subst. inversion F2; subst.
  exists a, b. repeat split; assumption.
Qed.

(** C7, as the code has it. Two candidates of 3000nm and 3300nm analysed
    at 20 knots with Low risk on every factor have the times 150 and 165
    hours, so the second carries a distance penalty of 1.0 and a time
    penalty of 1.5: the scorer yields candidate 1 at 100 and candidate 2 at
    97.5, and candidate 1 ranks first in whichever order the two were
    given. *)
Theorem scenario_A_scores :
  forall (routes : list Route.t) (departure_date : date) (g : Rng)
         (analyses : list Analysis.t) (g' : Rng),
    Forall2 Qeq (map Route.total_distance_nm routes) [3000; 3300] ->
    mapM (fun route => _analyze_single_route route departure_date 20) routes g
    = inr (analyses, g') ->
    Forall low_on_every_factor analyses ->
    exists a1 a2 s1 s2 s1' s2',
      analyses = [a1; a2]
      /\ map Analysis.route_id analyses = map Route.route_id routes
      /\ _score_routes [a1; a2]
         = inr [Analysis.with_score a1 s1; Analysis.with_score a2 s2]
      /\ _score_routes [a2; a1]
         = inr [Analysis.with_score a1 s1'; Analysis.with_score a2 s2']
      /\ s1 == 100 /\ s2 == 975 # 10 /\ s1' == 100 /\ s2' == 975 # 10.
Proof.
  intros routes dep g analyses g' D E L.
  assert (R : exists r1 r2,
             routes = [r1; r2]
             /\ Route.total_distance_nm r1 == 3000
             /\ Route.total_distance_nm r2 == 3300).
  { destruct (Forall2_pair _ _ _ _ D) as (d1 & d2 & M & D1 & D2).
    destruct routes as [| r1 [| r2 [| r3 routes]]]; try discriminate.
    injection M as <- <-. exists r1, r2. repeat split; assumption. }
  destruct R as (r1 & r2 & -> & D1 & D2). clear D.
  apply mapM_inr in E.
  inversion E as [| ? a1 ? ? (g1 & g2 & E1) E']; subst.
  inversion E' as [| ? a2 ? ? (g3 & g4 & E2) E'']; subst. inversion E''; subst.
  clear E E' E''.
  apply analyze_single_route_ensures in E1, E2.
  inversion L as [| ? ? L1 L']; subst. inversion L' as [| ? ? L2 _]; subst.
  destruct (low_analysis_figures _ _ _ E1 L1 D1) as [Hd1 Ht1].
  destruct (low_analysis_figures _ _ _ E2 L2 D2) as [Hd2 Ht2].
  assert (V1 : py_round (3000 / 20) 2 == 150) by reflexivity.
  assert (V2 : py_round (3300 / 20) 2 == 165) by reflexivity.
  rewrite V1 in Ht1. rewrite V2 in Ht2.
  destruct (two_low_candidates a1 a2 L1 L2 Hd1 Ht1 Hd2 Ht2)
    as (s1 & s2 & s1' & s2' & R & R' & V).
  exists a1, a2, s1, s2, s1', s2'.
  split; [reflexivity |]. split.
  { simpl. destruct E1 as (-> & _), E2 as (-> & _). reflexivity. }
  split; [exact R |]. split; [exact R' | exact V].
Qed.

Lemma scenario_A_scores_witness :
  exists a1 a2 s1 s2 s1' s2',
    scenario_A_analyses = [a1; a2]
    /\ map Analysis.route_id scenario_A_analyses
       = map Route.route_id scenario_A_routes
    /\ _score_routes [a1; a2]
       = inr [Analysis.with_score a1 s1; Analysis.with_score a2 s2]
    /\ _score_routes [a2; a1]
       = inr [Analysis.with_score a1 s1'; Analysis.with_score a2 s2']
    /\ s1 == 100 /\ s2 == 975 # 10 /\ s1' == 100 /\ s2' == 975 # 10.
Proof.
  apply (scenario_A_scores scenario_A_routes 0%Z calm_tape
           scenario_A_analyses scenario_A_rng).
  - vm_compute. repeat (constructor; try reflexivity).
  - vm_compute. reflexivity.
  - vm_compute. repeat (constructor; try reflexivity).
Defined.

(** C7 as stated fails: on the request of scenario A the second route
    scores 97.5, not 100 - (3300 - 3000) / 3000 x 10 = 99. *)
Lemma scenario_A_second_score :
  exists summary ranking recommendations,
    analyze_routes (H := series_math) (Some scenario_A_data) "New York" "London"
      0%Z "CR_0003" calm_tape
    = Success summary ranking recommendations
    /\ map (fun a => (Analysis.route_id a, Qred (score_key a))) ranking
       = [("R_1", 100); ("R_2", 195 # 2)]%string
    /\ forall a, In a ranking -> Analysis.route_id a = "R_2"%string ->
         ~ score_key a == 100 - (3300 - 3000) / 3000 * 10.
Proof.
  eexists; eexists; eexists.
  split; [vm_compute; reflexivity |].
  split; [vm_compute; reflexivity |].
  intros a [<- | [<- | []]] I.
  - discriminate I.
  - vm_compute. discriminate.
Qed.

(** ** Segmentation *)

Lemma firstn_then_firstn {A} (l : list A) :
  forall a b, firstn a l ++ firstn b (skipn a l) = firstn (a + b) l.
Proof.
  induction l as [| x l IH]; intros a b.
  - rewrite skipn_nil, !firstn_nil. reflexivity.
  - destruct a as [| a]; [reflexivity |].
    simpl. rewrite IH. reflexivity.
Qed.

Lemma slice_step {A} (l : list A) (i n : nat) :
  slice l i (i + n) = firstn n (skipn i l).
Proof. unfold slice. replace (i + n - i)%nat with n by lia. reflexivity. Qed.

Lemma concat_slices_upto {A} (l : list A) (step m : nat) :
  List.concat (map (fun k => slice l (k * step) (k * step + step)) (seq 0 m))
  = firstn (m * step) l.
Proof.
  induction m as [| m IH]; [reflexivity |].
  rewrite seq_S, map_app, concat_app, IH. simpl.
  rewrite app_nil_r, slice_step, firstn_then_firstn.
  f_equal. lia.
Qed.

Lemma range_covers (stop step : nat) :
  (0 < step)%nat -> (stop <= (stop + step - 1) / step * step)%nat.
Proof.
  intro P.
  pose proof (Nat.div_mod (stop + step - 1) step ltac:(lia)) as D.
  pose proof (Nat.mod_upper_bound (stop + step - 1) step ltac:(lia)) as U.
  nia.
Qed.

Lemma concat_slices {A} (l : list A) (step : nat) :
  (0 < step)%nat ->
  List.concat (map (fun i => slice l i (i + step)) (py_range_step (List.length l) step))
  = l.
Proof.
  intro P. unfold py_range_step. rewrite map_map.
  rewrite concat_slices_upto. apply firstn_all2. apply range_covers. exact P.
Qed.

Lemma concat_nonempty {A} (ls : list (list A)) :
  List.concat (filter (fun l => match l with [] => false | _ => true end) ls)
  = List.concat ls.
Proof.
  induction ls as [| [| x l] ls IH]; simpl; [reflexivity | exact IH |].
  rewrite IH. reflexivity.
Qed.

Section Segmentation.

Context `{MathLib}.

Variable Route_ID : string.
Variable route_waypoints : list Waypoint.t.
Variable points_per_segment : nat.

Lemma build_segments_waypoints (starts : list nat) :
  forall segments,
    map Segment.waypoints
        (build_segments Route_ID route_waypoints points_per_segment starts segments)
    = map Segment.waypoints segments
      ++ filter (fun l => match l with [] => false | _ => true end)
           (map (fun i => slice route_waypoints i (i + points_per_segment)) starts).
Proof.
  induction starts as [| i starts IH]; intro segments; simpl.
  - rewrite app_nil_r. reflexivity.
  - destruct (slice route_waypoints i (i + points_per_segment)) as [| w ws] eqn:S.
    + apply IH.
    + rewrite IH, map_app, <- app_assoc. reflexivity.
Qed.

Lemma build_segments_slices (starts : list nat) :
  forall segments,
    Forall (slice_segment points_per_segment) segments ->
    Forall (slice_segment points_per_segment)
      (build_segments Route_ID route_waypoints points_per_segment starts segments).
Proof.
  induction starts as [| i starts IH]; intros segments F; simpl; [exact F |].
  destruct (slice route_waypoints i (i + points_per_segment)) as [| w ws] eqn:S.
  - apply IH. exact F.
  - apply IH. apply Forall_app. split; [exact F |].
    constructor; [| constructor].
    split; [| reflexivity].
    cbn [Segment.waypoints]. rewrite <- S, slice_step. split.
    + rewrite slice_step in S. rewrite S. simpl. lia.
    + apply firstn_le_length.
Qed.

End Segmentation.

Lemma single_waypoint_distance `{MathLib} (ws : list Waypoint.t) :
  List.length ws = 1%nat -> path_distance ws = 0.
Proof.
  destruct ws as [| w [| w' ws]]; try discriminate. reflexivity.
Qed.

Lemma divide_into_segments_segmented `{MathLib} (route : Route.t) :
  Route.segments route
  = divide_into_segments (Route.route_id route) (Route.waypoints route) ->
  segmented route.
Proof.
  intro E. unfold segmented. cbv zeta. rewrite E. unfold divide_into_segments.
  set (wps := Route.waypoints route).
  set (pps := Nat.max 1 (List.length wps / 4)).
  assert (P : (0 < pps)%nat) by (unfold pps; lia).
  pose proof (build_segments_slices (Route.route_id route) wps pps
                (py_range_step (List.length wps) pps) [] (Forall_nil _)) as F.
  split; [| split].
  - eapply Forall_impl; [| exact F]. intros s [B _]. exact B.
  - rewrite build_segments_waypoints. simpl.
    rewrite concat_nonempty. apply concat_slices. exact P.
  - intro Short.
    assert (One : pps = 1%nat).
    { unfold pps.
      assert (List.length wps / 4 <= 1)%nat; [| lia].
      apply Nat.lt_succ_r. apply Nat.Div0.div_lt_upper_bound. lia. }
    eapply Forall_impl; [| exact F].
    intros s [B D]. rewrite One in B.
    assert (L : List.length (Segment.waypoints s) = 1%nat) by lia.
    split; [exact L |]. rewrite D, (single_waypoint_distance _ L). reflexivity.
Qed.

(** ** The candidate routes *)

Section Candidates.

Context `{MathLib}.

Variable table : list WaypointRow.t.

Lemma collect_waypoints_found (waypoint_ids : list string) :
  forall i route_waypoints total found total',
    collect_waypoints table waypoint_ids i route_waypoints total
    = inr (found, total') ->
    found = route_waypoints ++ resolved table waypoint_ids.
Proof.
  induction waypoint_ids as [| wp_id rest IH];
    intros i acc total found total' E; simpl in E.
  - injection E as <- _. simpl. rewrite app_nil_r. reflexivity.
  - simpl resolved.
    destruct (filter _ table) as [| wp_data others].
    + apply IH in E. exact E.
    + destruct (Nat.ltb 0 i).
      * destruct (nth_error _ _); [| discriminate].
        apply IH in E. rewrite E, <- app_assoc. reflexivity.
      * apply IH in E. rewrite E, <- app_assoc. reflexivity.
Qed.

(** The scan runs to its end when the table knows every id. *)
Lemma collect_waypoints_all_found (waypoint_ids : list string) :
  Forall (fun wp_id =>
            filter (fun r => String.eqb (WaypointRow.Waypoint_ID r) (strip wp_id))
                   table <> [])
         waypoint_ids ->
  forall route_waypoints total,
    exists found,
      collect_waypoints table waypoint_ids (List.length route_waypoints)
        route_waypoints total = inr found.
Proof.
  induction 1 as [| wp_id rest K _ IH]; intros acc total; simpl.
  - eexists; reflexivity.
  - destruct (filter _ table) as [| wp_data others]; [congruence |].
    assert (L : List.length (acc ++ [waypoint_of_row wp_data])
                = S (List.length acc)).
    { rewrite length_app. simpl. lia. }
    destruct (Nat.ltb 0 (List.length acc)).
    + destruct (nth_error (acc ++ [waypoint_of_row wp_data])
                          (List.length acc - 1)) as [prev |] eqn:N.
      * rewrite <- L. apply IH.
      * apply nth_error_None in N. lia.
    + rewrite <- L. apply IH.
Qed.

Lemma route_details_of_detail (route : RouteRow.t) (detail : option Route.t) :
  route_details_of table route = inr detail -> detail_of table route detail.
Proof.
  unfold route_details_of. cbv zeta.
  destruct (collect_waypoints table _ 0 [] 0) as [e | [found total]] eqn:E;
    [discriminate |].
  apply collect_waypoints_found in E.
  change (found = usable_waypoints table route) in E.
  cbn [bindR].
  unfold detail_of, admitted. rewrite <- E.
  destruct (Nat.ltb (List.length found) 2) eqn:L; intro R; injection R as <-.
  - apply Nat.ltb_lt in L. apply Nat.leb_gt. exact L.
  - apply Nat.ltb_ge in L. split; [apply Nat.leb_le; exact L |].
    split; reflexivity.
Qed.

Lemma route_details_of_returns (route : RouteRow.t) :
  scan_completes table route ->
  exists detail, route_details_of table route = inr detail.
Proof.
  intros ([found total] & E). unfold route_details_of. cbv zeta.
  fold (waypoint_ids_of route). rewrite E. cbn [bindR].
  destruct (Nat.ltb (List.length found) 2); eexists; reflexivity.
Qed.

Lemma route_details_loop_routes (rows : list RouteRow.t) :
  forall routes,
    route_details_loop table rows = inr routes ->
    map Route.route_id routes
    = map RouteRow.Route_ID (filter (admitted table) rows)
    /\ Forall segmented routes.
Proof.
  induction rows as [| row rows IH]; intros routes E; simpl in E.
  - injection E as <-. split; [reflexivity | constructor].
  - destruct (route_details_of table row) as [e | detail] eqn:D; [discriminate |].
    cbn [bindR] in E.
    destruct (route_details_loop table rows) as [e | others]; [discriminate |].
    cbn [bindR] in E. injection E as <-.
    destruct (IH others eq_refl) as [Ids S].
    apply route_details_of_detail in D. simpl.
    destruct detail as [r |]; simpl in D.
    + destruct D as (A & Id & Seg). rewrite A. simpl. split.
      * rewrite Id, Ids. reflexivity.
      * constructor; [apply divide_into_segments_segmented; exact Seg | exact S].
    + rewrite D. split; assumption.
Qed.

Lemma route_details_loop_returns (rows : list RouteRow.t) :
  Forall (scan_completes table) rows ->
  exists routes, route_details_loop table rows = inr routes.
Proof.
  induction 1 as [| row rows C _ IH]; simpl.
  - eexists; reflexivity.
  - destruct (route_details_of_returns row C) as (detail & ->).
    destruct IH as (others & ->).
    cbn [bindR]. eexists; reflexivity.
Qed.

End Candidates.

(** C6, as the code has it. In every route that [find_routes_between_ports]
    admits, the segments are the consecutive slices of max(1, count // 4)
    waypoints: each holds at least one waypoint, together they give the
    route's waypoint list, and when the route has fewer than 8 waypoints
    every segment holds a single waypoint and has distance_nm 0. *)
Theorem admitted_routes_segmented :
  forall (math : MathLib) (data : option RouteData.t)
         (origin_port destination_port : string) (routes : list Route.t),
    find_routes_between_ports data origin_port destination_port = inr routes ->
    Forall segmented routes.
Proof.
  intros math data o d routes E. unfold find_routes_between_ports in E.
  destruct data as [data |].
  - apply (route_details_loop_routes _ _ _ E).
  - injection E as <-. constructor.
Qed.

Lemma admitted_routes_segmented_witness : Forall segmented cape_town_routes.
Proof.
  apply (admitted_routes_segmented series_math (Some sample_data)
           "New York" "Cape Town" cape_town_routes).
  vm_compute. reflexivity.
Defined.

(** C6 as stated fails on the sample tables: the route from New York to
    Cape Town has two waypoints, enriched to four, and its four segments
    hold one waypoint each, with distance 0. *)
Lemma single_waypoint_segments_occur :
  exists routes,
    find_routes_between_ports (H := series_math) (Some sample_data)
      "New York" "Cape Town" = inr routes
    /\ map (fun r => (Route.waypoint_count r,
                      map (fun s => (List.length (Segment.waypoints s),
                                     Segment.distance_nm s))
                          (Route.segments r)))
           routes
       = [(4%nat, [(1%nat, Some 0); (1%nat, Some 0); (1%nat, Some 0); (1%nat, Some 0)])]
    /\ ~ Forall (fun r => Forall (fun s => (2 <= List.length (Segment.waypoints s))%nat)
                            (Route.segments r))
                routes.
Proof.
  eexists. split; [vm_compute; reflexivity |].
  split; [reflexivity |].
  intro F. inversion F as [| ? ? F1 _]; subst.
  inversion F1 as [| ? ? L _]; subst.
  simpl in L. lia.
Qed.

(** ** The request *)

Lemma score_analysis_id (route_analyses : list Analysis.t) (a b : Analysis.t) :
  score_analysis route_analyses a = inr b -> Analysis.route_id b = Analysis.route_id a.
Proof.
  unfold score_analysis. cbv zeta.
  destruct (min_of Analysis.distance_nm route_analyses); [discriminate |].
  cbn [bindR]. destruct (py_div _ _); [discriminate |].
  cbn [bindR]. destruct (min_of Analysis.total_time_hours route_analyses);
    [discriminate |].
  cbn [bindR]. destruct (py_div _ _); [discriminate |].
  cbn [bindR]. intro E. injection E as <-. reflexivity.
Qed.

Lemma score_loop_ids (route_analyses todo : list Analysis.t) :
  forall scored,
    score_loop route_analyses todo = inr scored ->
    map Analysis.route_id scored = map Analysis.route_id todo.
Proof.
  induction todo as [| a todo IH]; intros scored E; simpl in E.
  - injection E as <-. reflexivity.
  - destruct (score_analysis route_analyses a) as [e | b] eqn:Ea; [discriminate |].
    cbn [bindR] in E.
    destruct (score_loop route_analyses todo) as [e | others]; [discriminate |].
    cbn [bindR] in E. injection E as <-.
    simpl. rewrite (score_analysis_id _ _ _ Ea), (IH others eq_refl). reflexivity.
Qed.

Lemma score_routes_ids (route_analyses ranking : list Analysis.t) :
  _score_routes route_analyses = inr ranking ->
  Permutation (map Analysis.route_id ranking) (map Analysis.route_id route_analyses).
Proof.
  unfold _score_routes.
  destruct (score_loop route_analyses route_analyses) as [e | scored] eqn:E;
    [discriminate |].
  cbn [bindR]. intro R. injection R as <-.
  rewrite <- (score_loop_ids _ _ _ E).
  apply Permutation_map, Permutation_sym, sort_by_score_perm.
Qed.

Lemma analyses_ids (departure_date : date) (vessel_speed : Q)
    (routes : list Route.t) (analyses : list Analysis.t) :
  Forall2 (fun r a => exists g1 g2,
               _analyze_single_route r departure_date vessel_speed g1 = inr (a, g2))
          routes analyses ->
  map Analysis.route_id analyses = map Route.route_id routes.
Proof.
  induction 1 as [| r a routes analyses (g1 & g2 & E) _ IH]; [reflexivity |].
  apply analyze_single_route_ensures in E. destruct E as [Id _].
  simpl. rewrite Id, IH. reflexivity.
Qed.

(** The ranking of a successful request holds the routes that were found. *)
Lemma analyze_found_routes_ranking (routes : list Route.t)
    (origin_port destination_port : string) (departure_date : date)
    (carrier_info : CarrierInfo.t) (g : Rng)
    (summary : RouteSummary.t) (ranking : list Analysis.t)
    (recommendations : option Recommendations.t) :
  analyze_found_routes routes origin_port destination_port departure_date
    carrier_info g = Success summary ranking recommendations ->
  Permutation (map Analysis.route_id ranking) (map Route.route_id routes).
Proof.
  unfold analyze_found_routes.
  destruct routes as [| r0 routes0] eqn:R; [discriminate |].
  rewrite <- R. clear R.
  destruct (mapM _ routes g) as [e | [analyses g']] eqn:E; [discriminate |].
  destruct (_score_routes analyses) as [e | scored] eqn:S; [discriminate |].
  intro X. injection X as _ <- _.
  rewrite <- (analyses_ids _ _ _ _ (mapM_inr _ _ _ _ _ E)).
  apply score_routes_ids. exact S.
Qed.

(** C9, as the code has it. When the waypoint scan of every matching row
    runs to its end, the candidate set holds exactly the rows with at least
    two usable waypoints, in their order, and the ranking of a successful
    request holds those routes and no other; when no row is left, whether
    because no row matched the two ports or because every matching row was
    excluded, the request fails with the one message "No routes found
    between <origin> and <destination>". *)
Theorem unusable_routes_excluded :
  forall (math : MathLib) (data : RouteData.t)
         (origin_port destination_port : string) (departure_date : date)
         (carrier_id : string) (g : Rng) (carrier_info : CarrierInfo.t),
    get_carrier_info (Some data) carrier_id = Some carrier_info ->
    Forall (scan_completes (RouteData.waypoints data))
           (matching_routes (RouteData.routes data) origin_port destination_port) ->
    exists routes,
      find_routes_between_ports (Some data) origin_port destination_port = inr routes
      /\ map Route.route_id routes
         = map RouteRow.Route_ID
             (filter (admitted (RouteData.waypoints data))
                (matching_routes (RouteData.routes data) origin_port destination_port))
      /\ (forall summary ranking recommendations,
             analyze_routes (Some data) origin_port destination_port departure_date
               carrier_id g = Success summary ranking recommendations ->
             Permutation (map Analysis.route_id ranking) (map Route.route_id routes))
      /\ (filter (admitted (RouteData.waypoints data))
            (matching_routes (RouteData.routes data) origin_port destination_port) = [] ->
          analyze_routes (Some data) origin_port destination_port departure_date
            carrier_id g
          = Failed (Message ("No routes found between " ++ origin_port
                               ++ " and " ++ destination_port)%string)).
Proof.
  intros math data o d dep cid g carrier C S.
  destruct (route_details_loop_returns _ _ S) as (routes & E).
  destruct (route_details_loop_routes _ _ _ E) as [Ids _].
  exists routes. split; [exact E |]. split; [exact Ids |].
  unfold analyze_routes. rewrite C.
  change (find_routes_between_ports (Some data) o d)
    with (route_details_loop (RouteData.waypoints data)
            (matching_routes (RouteData.routes data) o d)).
  rewrite E. split.
  - intros summary ranking recs X.
    apply (analyze_found_routes_ranking _ _ _ _ _ _ _ _ _ X).
  - intro N. rewrite N in Ids. destruct routes; [reflexivity | discriminate].
Qed.

Lemma unusable_routes_excluded_witness :
  exists routes,
    find_routes_between_ports (H := series_math) (Some mixed_data)
      "New York" "London" = inr routes
    /\ map Route.route_id routes
       = map RouteRow.Route_ID
           (filter (admitted (RouteData.waypoints mixed_data))
              (matching_routes (RouteData.routes mixed_data) "New York" "London"))
    /\ (forall summary ranking recommendations,
           analyze_routes (H := series_math) (Some mixed_data) "New York" "London"
             0%Z "CR_0003" calm_tape = Success summary ranking recommendations ->
           Permutation (map Analysis.route_id ranking) (map Route.route_id routes))
    /\ (filter (admitted (RouteData.waypoints mixed_data))
          (matching_routes (RouteData.routes mixed_data) "New York" "London") = [] ->
        analyze_routes (H := series_math) (Some mixed_data) "New York" "London"
          0%Z "CR_0003" calm_tape
        = Failed (Message ("No routes found between " ++ "New York"
                             ++ " and " ++ "London")%string)).
Proof.
  apply (unusable_routes_excluded series_math mixed_data "New York" "London"
           0%Z "CR_0003" calm_tape sea_voyager).
  - vm_compute. reflexivity.
  - repeat constructor; eexists; vm_compute; reflexivity.
Defined.

(** The mixed tables in full: the row with one usable waypoint is left out,
    the request succeeds, and its ranking holds the other route only. *)
Example mixed_request_ranks_sound_route :
  exists summary ranking recommendations,
    analyze_routes (H := series_math) (Some mixed_data) "New York" "London"
      0%Z "CR_0003" calm_tape = Success summary ranking recommendations
    /\ map Analysis.route_id ranking = ["R_003"%string].
Proof.
  eexists; eexists; eexists. split; [vm_compute; reflexivity | reflexivity].
Qed.

(** C9 as stated fails in its second half: with a route whose geometry is
    unusable and with no route at all, the request returns the same failed
    response; no kind tells the two apart. *)
Lemma excluded_and_missing_routes_fail_alike :
  matching_routes (RouteData.routes stub_data) "New York" "London" <> []
  /\ matching_routes (RouteData.routes no_route_data) "New York" "London" = []
  /\ analyze_routes (H := series_math) (Some stub_data) "New York" "London"
       0%Z "CR_0003" calm_tape
     = Failed (Message "No routes found between New York and London")
  /\ analyze_routes (H := series_math) (Some no_route_data) "New York" "London"
       0%Z "CR_0003" calm_tape
     = analyze_routes (H := series_math) (Some stub_data) "New York" "London"
         0%Z "CR_0003" calm_tape.
Proof.
  split; [discriminate |]. split; [reflexivity |].
  split; vm_compute; reflexivity.
Qed.

(** The scan of a row does not always run to its end: the distance to the
    previous waypoint is read at the index of the id, not of the waypoint,
    so a known waypoint after two unknown ones raises [IndexError], and the
    request fails on it. *)
Example late_waypoint_fails_request :
  find_routes_between_ports (H := series_math) (Some late_waypoint_data)
    "New York" "London" = inl IndexError
  /\ analyze_routes (H := series_math) (Some late_waypoint_data) "New York" "London"
       0%Z "CR_0003" calm_tape = Failed (ExceptionText IndexError).
Proof. split; vm_compute; reflexivity. Qed.

(** * Further properties of the code *)

(** ** Ranges of the draws and of rounding *)

Lemma frac_below_one (u : Q) : frac u < 1.
Proof.
  unfold frac. apply (Qplus_lt_l _ _ (inject_Z (Qfloor u))). ring_simplify.
  pose proof (Qlt_floor u) as L. rewrite inject_Z_plus in L.
  eapply Qlt_le_trans; [exact L |]. apply Qle_refl.
Qed.

Lemma random_unit : ensures random.random (fun u => 0 <= u /\ u < 1).
Proof.
  intros g u g' E. unfold random.random in E. injection E as <- _.
  split; [apply frac_nonneg | apply frac_below_one].
Qed.

Lemma uniform_range (a b : Q) :
  a <= b -> ensures (random.uniform a b) (fun x => a <= x /\ x <= b).
Proof.
  intros L g x g' E. unfold random.uniform in E. run_inv E.
  destruct E as [<- _]. apply random_unit in E0. destruct E0 as [U0 U1].
  assert (D : 0 <= b - a).
  { apply (Qplus_le_l _ _ a). ring_simplify. exact L. }
  split.
  - rewrite <- (Qplus_0_r a) at 1. apply Qplus_le_r.
    apply Qmult_le_0_compat; assumption.
  - apply Qle_trans with (y := a + (b - a) * 1).
    + apply Qplus_le_r. rewrite (Qmult_comm (b - a) x0), (Qmult_comm (b - a) 1).
      apply Qmult_le_compat_r; [apply Qlt_le_weak; exact U1 | exact D].
    + ring_simplify. apply Qle_refl.
Qed.

Lemma randbelow_range (n : Z) :
  (0 < n)%Z -> ensures (random.randbelow n) (fun k => (0 <= k < n)%Z).
Proof.
  intros N g k g' E.
  split; [exact (randbelow_nonneg n ltac:(lia) _ _ _ E) |].
  unfold random.randbelow in E. run_inv E. destruct E as [<- _].
  apply random_unit in E0. destruct E0 as [U0 U1].
  rewrite Zlt_Qlt.
  apply Qle_lt_trans with (y := x * inject_Z n); [apply Qfloor_le |].
  rewrite <- (Qmult_1_l (inject_Z n)) at 2.
  apply Qmult_lt_compat_r; [| exact U1].
  change 0 with (inject_Z 0). rewrite <- Zlt_Qlt. exact N.
Qed.

Lemma randint_range (a b : Z) :
  (a <= b)%Z -> ensures (random.randint a b) (fun k => (a <= k <= b)%Z).
Proof.
  intros L g k g' E. unfold random.randint in E. run_inv E.
  destruct E as [<- _].
  assert (R : (0 <= x < b - a + 1)%Z)
    by exact (randbelow_range (b - a + 1) ltac:(lia) _ _ _ E0).
  lia.
Qed.

Lemma choice_member {A} (seq : list A) :
  ensures (random.choice seq) (fun x => In x seq).
Proof.
  intros g x g' E. destruct seq as [| y seq]; [discriminate |].
  destruct (choice_returns (y :: seq) g ltac:(discriminate)) as (x' & g1 & E' & I).
  rewrite E in E'. injection E' as <- _. exact I.
Qed.

(** Rounding to the nearest integer stays between the integers around. *)
Lemma round_half_even_lower (x : Q) (k : Z) :
  inject_Z k <= x -> (k <= round_half_even x)%Z.
Proof.
  intro L. unfold round_half_even.
  assert (F : (k <= Qfloor x)%Z).
  { rewrite <- (Qfloor_Z k). apply Qfloor_resp_le. exact L. }
  destruct (x - inject_Z (Qfloor x) ?= 1 # 2); [destruct (Z.even _) | |]; lia.
Qed.

Lemma round_half_even_upper (x : Q) (k : Z) :
  x <= inject_Z k -> (round_half_even x <= k)%Z.
Proof.
  intro U. unfold round_half_even.
  assert (F : (Qfloor x <= k)%Z).
  { rewrite <- (Qfloor_Z k). apply Qfloor_resp_le. exact U. }
  destruct (Z.eq_dec (Qfloor x) k) as [E | N].
  - assert (C : (x - inject_Z (Qfloor x) ?= 1 # 2) = Lt).
    { rewrite <- Qlt_alt. rewrite E.
      apply Qle_lt_trans with (y := 0); [| reflexivity].
      apply (Qplus_le_l _ _ (inject_Z k)). ring_simplify. exact U. }
    rewrite C. lia.
  - destruct (x - inject_Z (Qfloor x) ?= 1 # 2); [destruct (Z.even _) | |]; lia.
Qed.

Lemma scale_positive (n : nat) : 0 < inject_Z (10 ^ Z.of_nat n).
Proof.
  change 0 with (inject_Z 0). rewrite <- Zlt_Qlt.
  apply Z.pow_pos_nonneg; lia.
Qed.

Lemma quotient_le_scaled (a x s : Q) : 0 < s -> a / s <= x -> a <= x * s.
Proof.
  intros P L.
  assert (E : a == a / s * s).
  { field. intro Z. rewrite Z in P. exact (Qlt_irrefl _ P). }
  rewrite E. apply Qmult_le_compat_r; [exact L | apply Qlt_le_weak, P].
Qed.

Lemma scaled_le_quotient (a x s : Q) : 0 < s -> x <= a / s -> x * s <= a.
Proof.
  intros P L.
  assert (E : a == a / s * s).
  { field. intro Z. rewrite Z in P. exact (Qlt_irrefl _ P). }
  rewrite E. apply Qmult_le_compat_r; [exact L | apply Qlt_le_weak, P].
Qed.

(** [round(x, n)] stays between bounds that have [n] decimals. *)
Lemma py_round_lower (x : Q) (n : nat) (k : Z) :
  inject_Z k / inject_Z (10 ^ Z.of_nat n) <= x ->
  inject_Z k / inject_Z (10 ^ Z.of_nat n) <= py_round x n.
Proof.
  intro L. unfold py_round. cbv zeta.
  pose proof (scale_positive n) as P.
  set (s := inject_Z (10 ^ Z.of_nat n)) in *.
  apply Qmult_le_compat_r; [| apply Qlt_le_weak, Qinv_lt_0_compat, P].
  rewrite <- Zle_Qle. apply round_half_even_lower.
  apply quotient_le_scaled; assumption.
Qed.

Lemma py_round_upper (x : Q) (n : nat) (k : Z) :
  x <= inject_Z k / inject_Z (10 ^ Z.of_nat n) ->
  py_round x n <= inject_Z k / inject_Z (10 ^ Z.of_nat n).
Proof.
  intro U. unfold py_round. cbv zeta.
  pose proof (scale_positive n) as P.
  set (s := inject_Z (10 ^ Z.of_nat n)) in *.
  apply Qmult_le_compat_r; [| apply Qlt_le_weak, Qinv_lt_0_compat, P].
  rewrite <- Zle_Qle. apply round_half_even_upper.
  apply scaled_le_quotient; assumption.
Qed.

(** ** Rules for what a computation ensures *)

Lemma ensures_mapM {A B} (f : A -> M B) (xs : list A) (P : A -> B -> Prop) :
  (forall x, In x xs -> ensures (f x) (P x)) ->
  ensures (mapM f xs) (Forall2 P xs).
Proof.
  induction xs as [| x xs IH]; intros F g ys g' E; simpl in E.
  - apply ret_inr in E. destruct E as [<- _]. constructor.
  - run_inv E. destruct E as [<- _]. constructor.
    + eapply F; [left; reflexivity | eassumption].
    + eapply IH; [| eassumption]. intros y I. apply F. right. exact I.
Qed.

Lemma ensures_repeatM {A} (n : nat) (m : M A) (P : A -> Prop) :
  ensures m P ->
  ensures (repeatM n m) (fun l => List.length l = n /\ Forall P l).
Proof.
  intro F. induction n as [| n IH]; intros g l g' E; simpl in E.
  - apply ret_inr in E. destruct E as [<- _]. split; [reflexivity | constructor].
  - run_inv E. destruct E as [<- _].
    match goal with
    | H : repeatM _ _ _ = inr _ |- _ => apply IH in H; destruct H as [L Q]
    end.
    split; [simpl; congruence |]. constructor; [eapply F; eassumption | exact Q].
Qed.

Lemma py_int_nonneg (x : Q) : 0 <= x -> py_int x = Qfloor x.
Proof.
  intro N. unfold py_int. destruct (Qcompare_spec x 0) as [E | L | G]; try reflexivity.
  exfalso. exact (Qlt_not_le _ _ L N).
Qed.

Lemma py_int_scaled (t a : Z) (b : positive) :
  (0 <= t)%Z -> (0 <= a)%Z ->
  py_int (inject_Z t * (a # b)) = (t * a / Z.pos b)%Z.
Proof.
  intros T A. rewrite py_int_nonneg.
  - unfold Qfloor, Qmult, inject_Z. simpl. reflexivity.
  - apply Qmult_le_0_compat.
    + change 0 with (inject_Z 0). rewrite <- Zle_Qle. exact T.
    + unfold Qle. simpl. lia.
Qed.

(** ** Rounding: error and monotony *)

Lemma floor_bounds (x : Q) :
  inject_Z (Qfloor x) <= x /\ x < inject_Z (Qfloor x) + 1.
Proof.
  split; [apply Qfloor_le |].
  pose proof (Qlt_floor x) as L. rewrite inject_Z_plus in L. exact L.
Qed.

Lemma round_half_even_error (x : Q) :
  x - (1 # 2) <= inject_Z (round_half_even x)
  /\ inject_Z (round_half_even x) <= x + (1 # 2).
Proof.
  unfold round_half_even. destruct (floor_bounds x) as [L U].
  set (f := Qfloor x) in *.
  destruct (Qcompare_spec (x - inject_Z f) (1 # 2)) as [E | C | C].
  - destruct (Z.even f); [| rewrite inject_Z_plus; change (inject_Z 1) with 1];
      split; lra.
  - split; lra.
  - rewrite inject_Z_plus. change (inject_Z 1) with 1. split; lra.
Qed.



Lemma py_round_error (x : Q) (n : nat) :
  x - (1 # 2) / inject_Z (10 ^ Z.of_nat n) <= py_round x n
  /\ py_round x n <= x + (1 # 2) / inject_Z (10 ^ Z.of_nat n).
Proof.
  unfold py_round. cbv zeta.
  pose proof (scale_positive n) as P.
  set (s := inject_Z (10 ^ Z.of_nat n)) in *.
  destruct (round_half_even_error (x * s)) as [L U].
  assert (N : ~ s == 0) by (intro Z; rewrite Z in P; exact (Qlt_irrefl _ P)).
  split.
  - apply Qle_shift_div_l; [exact P |].
    setoid_replace ((x - (1 # 2) / s) * s) with (x * s - (1 # 2)) by (field; exact N).
    exact L.
  - apply Qle_shift_div_r; [exact P |].
    setoid_replace ((x + (1 # 2) / s) * s) with (x * s + (1 # 2)) by (field; exact N).
    exact U.
Qed.

Lemma py_div_inr (a b x : Q) : py_div a b = inr x -> ~ b == 0 /\ x = a / b.
Proof.
  unfold py_div. destruct (Qeq_bool b 0) eqn:E; [discriminate |].
  intro H. injection H as <-. split; [| reflexivity].
  intro Z. apply Qeq_bool_iff in Z. congruence.
Qed.

Lemma py_round_ge (x lo : Q) (n : nat) (k : Z) :
  lo == inject_Z k / inject_Z (10 ^ Z.of_nat n) -> lo <= x -> lo <= py_round x n.
Proof.
  intros E L. rewrite E in *. apply py_round_lower. exact L.
Qed.

Lemma py_round_le (x hi : Q) (n : nat) (k : Z) :
  hi == inject_Z k / inject_Z (10 ^ Z.of_nat n) -> x <= hi -> py_round x n <= hi.
Proof.
  intros E U. rewrite E in *. apply py_round_upper. exact U.
Qed.

(** Bounds with [n] decimals, recognised by computation. *)
Lemma py_round_at_least (x lo : Q) (n : nat) :
  inject_Z (Qfloor (lo * inject_Z (10 ^ Z.of_nat n)))
  == lo * inject_Z (10 ^ Z.of_nat n) ->
  lo <= x -> lo <= py_round x n.
Proof.
  intros G L. pose proof (scale_positive n) as P.
  apply (py_round_ge _ _ n (Qfloor (lo * inject_Z (10 ^ Z.of_nat n)))); [| exact L].
  rewrite G. field. intro Z. rewrite Z in P. exact (Qlt_irrefl _ P).
Qed.

Lemma py_round_at_most (x hi : Q) (n : nat) :
  inject_Z (Qfloor (hi * inject_Z (10 ^ Z.of_nat n)))
  == hi * inject_Z (10 ^ Z.of_nat n) ->
  x <= hi -> py_round x n <= hi.
Proof.
  intros G U. pose proof (scale_positive n) as P.
  apply (py_round_le _ _ n (Qfloor (hi * inject_Z (10 ^ Z.of_nat n)))); [| exact U].
  rewrite G. field. intro Z. rewrite Z in P. exact (Qlt_irrefl _ P).
Qed.

(** ** The traffic simulator: ranges *)

Lemma count_at_least_one {A} (l : list A) :
  ~ inject_Z (Z.of_nat (List.length l)) == 0 ->
  1 <= inject_Z (Z.of_nat (List.length l)).
Proof.
  intro N. change 1 with (inject_Z 1). rewrite <- Zle_Qle.
  destruct l as [| x l]; [exfalso; apply N; reflexivity | simpl; lia].
Qed.

Lemma density_bound (total : Z) (n : Q) :
  (total <= 70)%Z -> 1 <= n -> inject_Z total / (n * 10) <= 7.
Proof.
  intros T N. apply Qle_shift_div_r.
  - apply Qlt_le_trans with (y := 1 * 10); [reflexivity |].
    apply Qmult_le_compat_r; [exact N | discriminate].
  - apply Qle_trans with (y := 70); [change 70 with (inject_Z 70); rewrite <- Zle_Qle; exact T |].
    apply Qle_trans with (y := 7 * (1 * 10)); [discriminate |].
    apply Qmult_le_l; [reflexivity |].
    apply Qmult_le_compat_r; [exact N | discriminate].
Qed.

Lemma reduction_draw (congestion_level : Level) :
  ensures (match congestion_level with
           | High => random.uniform 2 5
           | Medium => random.uniform (1 # 2) 2
           | _ => ret 0
           end)
          (fun x => reduction_in_range congestion_level (py_round x 1)).
Proof.
  intros g x g' E. destruct congestion_level; simpl.
  - apply ret_inr in E. destruct E as [<- _]. reflexivity.
  - apply (uniform_range (1 # 2) 2 ltac:(discriminate)) in E. destruct E as [L U].
    split.
    + apply (py_round_ge _ _ 1 5); [reflexivity | exact L].
    + apply (py_round_le _ _ 1 20); [reflexivity | exact U].
  - apply (uniform_range 2 5 ltac:(discriminate)) in E. destruct E as [L U].
    split.
    + apply (py_round_ge _ _ 1 20); [reflexivity | exact L].
    + apply (py_round_le _ _ 1 50); [reflexivity | exact U].
  - apply ret_inr in E. destruct E as [<- _]. reflexivity.
Qed.

Lemma analyze_maritime_traffic_sound (segment_id : string)
    (coordinates : list (Q * Q)) (analysis_date : date) (time_window_hours : Z) :
  ensures (analyze_maritime_traffic segment_id coordinates analysis_date time_window_hours)
          (fun r =>
             sound_traffic_summary (Traffic.traffic_summary r)
             /\ NavigationImpact.collision_risk (Traffic.navigation_impact r) <> High).
Proof.
  intros g r g' E. unfold analyze_maritime_traffic in E. cbv zeta in E.
  run_inv E. destruct E as [<- _].
  match goal with
  | H : random.randint (-10) 20 _ = inr _ |- _ =>
      apply (randint_range (-10) 20 ltac:(lia)) in H; rename H into Delta
  end.
  match goal with
  | H : lift (py_div (inject_Z _) _) _ = inr _ |- _ =>
      apply lift_inr in H; destruct H as [H _];
      apply py_div_inr in H; destruct H as [Nz ->]
  end.
  match goal with
  | H : (match congestion_of _ with _ => _ end) _ = inr _ |- _ =>
      apply reduction_draw in H; rename H into Red
  end.
  set (base := if is_major_lane _ then 50%Z else 20%Z) in *.
  assert (T : (10 <= base + x1 <= 70)%Z).
  { subst base. destruct (is_major_lane _); lia. }
  assert (One : 1 <= inject_Z (Z.of_nat (List.length coordinates))).
  { apply count_at_least_one. intro Z. apply Nz. rewrite Z. reflexivity. }
  pose proof (density_bound _ _ (proj2 T) One) as D.
  split.
  - unfold sound_traffic_summary. cbn.
    split; [exact T |]. split; [reflexivity |]. split; [exact Red |].
    apply (py_round_le _ _ 2 700); [reflexivity | exact D].
  - cbn. unfold collision_risk_of.
    assert (F : Qltb 8 (inject_Z (base + x1)
                        / (inject_Z (Z.of_nat (List.length coordinates)) * 10)) = false).
    { apply Qltb_false. eapply Qle_trans; [exact D | discriminate]. }
    rewrite F. destruct (_ && _); discriminate.
Qed.

Lemma reduction_bounds (congestion_level : Level) (reduction : Q) :
  reduction_in_range congestion_level reduction -> 0 <= reduction <= 5.
Proof.
  destruct congestion_level; simpl.
  - intros ->. split; discriminate.
  - intros [L U]. split; eapply Qle_trans; try eassumption; discriminate.
  - intros [L U]. split; [eapply Qle_trans; try eassumption; discriminate | exact U].
  - intros ->. split; discriminate.
Qed.

(** X1. On every segment with coordinates the traffic simulator returns a
    count of 10 to 70 vessels and a density of at most 7, and its collision
    risk is never "High": the density test of that label, more than 8,
    cannot be met. *)
Theorem traffic_collision_risk_never_high :
  forall (segment_id : string) (coordinates : list (Q * Q))
         (analysis_date : date) (time_window_hours : Z) (g : Rng),
    coordinates <> [] ->
    exists r g',
      analyze_maritime_traffic segment_id coordinates analysis_date
        time_window_hours g = inr (r, g')
      /\ (10 <= TrafficSummary.total_vessels_24h (Traffic.traffic_summary r) <= 70)%Z
      /\ TrafficSummary.traffic_density (Traffic.traffic_summary r) <= 7
      /\ NavigationImpact.collision_risk (Traffic.navigation_impact r) <> High.
Proof.
  intros id coordinates d w g N.
  destruct (analyze_maritime_traffic_returns id coordinates d w N g)
    as (r & g' & E & _).
  destruct (analyze_maritime_traffic_sound id coordinates d w g r g' E)
    as [(T & _ & _ & D) C].
  exists r, g'. repeat split; try assumption; apply T.
Qed.

Lemma traffic_collision_risk_never_high_witness :
  exists r g',
    analyze_maritime_traffic "L_seg_1" [(35, -20)] 100%Z 24 rough_tape = inr (r, g')
    /\ (10 <= TrafficSummary.total_vessels_24h (Traffic.traffic_summary r) <= 70)%Z
    /\ TrafficSummary.traffic_density (Traffic.traffic_summary r) <= 7
    /\ NavigationImpact.collision_risk (Traffic.navigation_impact r) <> High.
Proof.
  apply (traffic_collision_risk_never_high "L_seg_1" [(35, -20)] 100%Z 24 rough_tape).
  discriminate.
Defined.

(** X2. The congestion label follows the vessel count (more than 60
    "High", more than 40 "Medium", else "Low"), and the reported speed
    reduction goes with the label: 0 for "Low", 0.5 to 2 knots for
    "Medium", 2 to 5 knots for "High". *)
Theorem traffic_reduction_follows_congestion :
  forall (segment_id : string) (coordinates : list (Q * Q))
         (analysis_date : date) (time_window_hours : Z) (g : Rng),
    coordinates <> [] ->
    exists r g',
      analyze_maritime_traffic segment_id coordinates analysis_date
        time_window_hours g = inr (r, g')
      /\ TrafficSummary.congestion_level (Traffic.traffic_summary r)
         = congestion_of (TrafficSummary.total_vessels_24h (Traffic.traffic_summary r))
      /\ reduction_in_range
           (TrafficSummary.congestion_level (Traffic.traffic_summary r))
           (TrafficSummary.average_speed_reduction_knots (Traffic.traffic_summary r)).
Proof.
  intros id coordinates d w g N.
  destruct (analyze_maritime_traffic_returns id coordinates d w N g)
    as (r & g' & E & _).
  destruct (analyze_maritime_traffic_sound id coordinates d w g r g' E)
    as [(_ & C & R & _) _].
  exists r, g'. repeat split; assumption.
Qed.

Lemma traffic_reduction_follows_congestion_witness :
  exists r g',
    analyze_maritime_traffic "L_seg_1" [(35, -20)] 100%Z 24 rough_tape = inr (r, g')
    /\ TrafficSummary.congestion_level (Traffic.traffic_summary r)
       = congestion_of (TrafficSummary.total_vessels_24h (Traffic.traffic_summary r))
    /\ reduction_in_range
         (TrafficSummary.congestion_level (Traffic.traffic_summary r))
         (TrafficSummary.average_speed_reduction_knots (Traffic.traffic_summary r)).
Proof.
  apply (traffic_reduction_follows_congestion "L_seg_1" [(35, -20)] 100%Z 24 rough_tape).
  discriminate.
Defined.

Lemma traffic_forecast_loop_sound (departure : datetime) (vessel_speed_knots : Q)
    (route_segments : list Segment.t) :
  forall elapsed,
    ensures (traffic_forecast_loop departure vessel_speed_knots elapsed route_segments)
            (Forall (fun t =>
                       sound_traffic_summary (Traffic.traffic_summary t)
                       /\ Traffic.effective_speed_knots t
                          = Some (py_max (vessel_speed_knots - speed_reduction_of t) 10))).
Proof.
  induction route_segments as [| s segs IH]; intros elapsed g out g' E.
  - apply ret_inr in E. destruct E as [<- _]. constructor.
  - simpl in E. cbv zeta in E. run_inv E. destruct E as [<- _].
    constructor.
    + match goal with
      | H : analyze_maritime_traffic _ _ _ _ _ = inr _ |- _ =>
          apply analyze_maritime_traffic_sound in H; destruct H as [S _]
      end.
      split; [exact S | reflexivity].
    + match goal with
      | H : traffic_forecast_loop _ _ _ _ _ = inr _ |- _ => exact (IH _ _ _ _ H)
      end.
Qed.

Lemma effective_speed_bounds (v reduction : Q) :
  0 <= reduction <= 5 ->
  10 <= py_max (v - reduction) 10
  /\ v - 5 <= py_max (v - reduction) 10
  /\ py_max (v - reduction) 10 <= Qmax v 10
  /\ (v <= 10 -> py_max (v - reduction) 10 == 10).
Proof.
  intros [L U].
  assert (A : v - 5 <= v - reduction).
  { apply Qplus_le_r. apply Qopp_le_compat. exact U. }
  assert (B : v - reduction <= v).
  { rewrite <- (Qplus_0_r v) at 2. apply Qplus_le_r.
    change 0 with (- 0). apply Qopp_le_compat. exact L. }
  rewrite py_max_Qmax. split; [apply Q.le_max_r |]. split.
  - eapply Qle_trans; [exact A | apply Q.le_max_l].
  - split.
    + apply Q.max_le_compat_r. exact B.
    + intro S. apply Q.max_r. eapply Qle_trans; [exact B | exact S].
Qed.

(** X3. In the traffic walk every segment's effective speed is at least
    10 knots, at most 5 knots below the base speed, and never above the
    larger of the base speed and 10 knots; for a base speed of 10 knots or
    less it is 10 knots whatever the traffic, so the floor speeds such a
    vessel up. *)
Theorem effective_speed_within_bounds :
  forall (route_segments : list Segment.t) (departure_date : date)
         (vessel_speed_knots : Q) (g : Rng),
    (forall s, In s route_segments -> Segment.coordinates s <> []) ->
    exists forecast g',
      get_traffic_forecast route_segments departure_date vessel_speed_knots g
      = inr (forecast, g')
      /\ Forall (fun t => exists speed,
                     Traffic.effective_speed_knots t = Some speed
                     /\ 10 <= speed
                     /\ vessel_speed_knots - 5 <= speed
                     /\ speed <= Qmax vessel_speed_knots 10
                     /\ (vessel_speed_knots <= 10 -> speed == 10))
                forecast.
Proof.
  intros segs dep v g N.
  destruct (traffic_forecast_loop_returns (strptime dep) v segs N 0 g)
    as (forecast & g' & E & _).
  exists forecast, g'. split; [exact E |].
  pose proof (traffic_forecast_loop_sound _ _ _ _ _ _ _ E) as F.
  eapply Forall_impl; [| exact F].
  intros t [(_ & _ & R & _) S]. eexists. split; [exact S |].
  apply effective_speed_bounds. eapply reduction_bounds. exact R.
Qed.

Lemma effective_speed_within_bounds_witness :
  exists forecast g',
    get_traffic_forecast lane_segments 100%Z 8 rough_tape = inr (forecast, g')
    /\ Forall (fun t => exists speed,
                   Traffic.effective_speed_knots t = Some speed
                   /\ 10 <= speed
                   /\ 8 - 5 <= speed
                   /\ speed <= Qmax 8 10
                   /\ (8 <= 10 -> speed == 10))
              forecast.
Proof.
  apply (effective_speed_within_bounds lane_segments 100%Z 8 rough_tape).
  intros s [<- | [<- | []]]; discriminate.
Defined.

Lemma analyze_maritime_traffic_counts (segment_id : string)
    (coordinates : list (Q * Q)) (analysis_date : date) (time_window_hours : Z) :
  ensures (analyze_maritime_traffic segment_id coordinates analysis_date time_window_hours)
          (fun r =>
             let total := TrafficSummary.total_vessels_24h (Traffic.traffic_summary r) in
             TrafficSummary.vessels_by_type (Traffic.traffic_summary r)
             = map (fun vt => (fst vt, py_int (inject_Z total * snd vt))) vessel_types
             /\ exists g1 g2,
                  mapM (hourly_entry total) (map Z.of_nat (seq 0 24)) g1
                  = inr (Traffic.hourly_distribution r, g2)).
Proof.
  intros g r g' E. unfold analyze_maritime_traffic in E. cbv zeta in E.
  run_inv E. destruct E as [<- _]. cbn [Traffic.traffic_summary
    TrafficSummary.total_vessels_24h TrafficSummary.vessels_by_type
    Traffic.hourly_distribution]. split; [reflexivity |].
  match goal with
  | H : mapM _ _ ?a = inr (_, ?b) |- _ => exists a, b; exact H
  end.
Qed.

(** X4. The per-type vessel counts are the truncated shares 40%, 25%, 20%,
    10% and 5% of the total, each truncated on its own: together they never
    exceed the reported total and fall short of it by at most 4 vessels. *)
Theorem vessel_type_counts_below_total :
  forall (segment_id : string) (coordinates : list (Q * Q))
         (analysis_date : date) (time_window_hours : Z) (g : Rng),
    coordinates <> [] ->
    exists r g',
      analyze_maritime_traffic segment_id coordinates analysis_date
        time_window_hours g = inr (r, g')
      /\ map fst (TrafficSummary.vessels_by_type (Traffic.traffic_summary r))
         = ["Container"; "Tanker"; "Bulk Carrier"; "General Cargo"; "Other"]%string
      /\ (TrafficSummary.total_vessels_24h (Traffic.traffic_summary r) - 4
          <= Zsum (map snd (TrafficSummary.vessels_by_type (Traffic.traffic_summary r)))
          <= TrafficSummary.total_vessels_24h (Traffic.traffic_summary r))%Z.
Proof.
  intros id coordinates d w g N.
  destruct (analyze_maritime_traffic_returns id coordinates d w N g)
    as (r & g' & E & _).
  destruct (analyze_maritime_traffic_sound id coordinates d w g r g' E)
    as [(T & _) _].
  destruct (analyze_maritime_traffic_counts id coordinates d w g r g' E)
    as [V _].
  exists r, g'. split; [exact E |]. cbv zeta in V. rewrite V.
  set (total := TrafficSummary.total_vessels_24h _) in *.
  unfold vessel_types. cbn [map fst snd].
  split; [reflexivity |].
  rewrite !py_int_scaled by lia. unfold Zsum. cbn [fold_right].
  clearbody total. clear V E. Z.div_mod_to_equations. lia.
Qed.

Lemma vessel_type_counts_below_total_witness :
  exists r g',
    analyze_maritime_traffic "L_seg_1" [(35, -20)] 100%Z 24 rough_tape = inr (r, g')
    /\ map fst (TrafficSummary.vessels_by_type (Traffic.traffic_summary r))
       = ["Container"; "Tanker"; "Bulk Carrier"; "General Cargo"; "Other"]%string
    /\ (TrafficSummary.total_vessels_24h (Traffic.traffic_summary r) - 4
        <= Zsum (map snd (TrafficSummary.vessels_by_type (Traffic.traffic_summary r)))
        <= TrafficSummary.total_vessels_24h (Traffic.traffic_summary r))%Z.
Proof.
  apply (vessel_type_counts_below_total "L_seg_1" [(35, -20)] 100%Z 24 rough_tape).
  discriminate.
Defined.

Lemma hour_multiplier_range (hour : Z) :
  0 <= hour_multiplier hour /\ hour_multiplier hour <= 12 # 10.
Proof.
  unfold hour_multiplier.
  destruct (_ && _)%bool; [split; discriminate |].
  destruct (_ || _)%bool; split; discriminate.
Qed.

Lemma hourly_share (t m u : Q) :
  0 <= t -> 0 <= m <= 12 # 10 -> 8 # 10 <= u <= 12 # 10 ->
  0 <= t / 24 * m * u /\ t / 24 * m * u <= t * (6 # 100).
Proof.
  intros T M U.
  assert (A : m * u <= (12 # 10) * (12 # 10)) by nra.
  assert (B : 0 <= m * u) by nra.
  setoid_replace (t / 24 * m * u) with (t * (m * u) / 24) by field.
  split.
  - apply Qle_shift_div_l; [reflexivity |]. nra.
  - apply Qle_shift_div_r; [reflexivity |]. nra.
Qed.

Lemma hourly_entry_sound (total_vessels hour : Z) :
  (0 <= total_vessels)%Z ->
  ensures (hourly_entry total_vessels hour) (sound_hourly_entry total_vessels hour).
Proof.
  intros T g e g' E. unfold hourly_entry in E. run_inv E. destruct E as [<- _].
  match goal with
  | H : random.uniform _ _ _ = inr (?u, _) |- _ =>
      apply (uniform_range (8 # 10) (12 # 10) ltac:(discriminate)) in H;
      rename H into U; set (draw := u) in *
  end.
  assert (T' : 0 <= inject_Z total_vessels).
  { change 0 with (inject_Z 0). rewrite <- Zle_Qle. exact T. }
  destruct (hourly_share _ _ _ T' (hour_multiplier_range hour) U) as [L R].
  set (share := inject_Z total_vessels / 24 * hour_multiplier hour * draw) in *.
  unfold sound_hourly_entry. cbn [HourlyTraffic.hour HourlyTraffic.vessel_count
    HourlyTraffic.congestion].
  rewrite (py_int_nonneg share L).
  assert (F0 : (0 <= Qfloor share)%Z).
  { change 0%Z with (Qfloor 0). apply Qfloor_resp_le. exact L. }
  assert (F1 : inject_Z (Qfloor share) <= inject_Z total_vessels * (6 # 100)).
  { eapply Qle_trans; [apply Qfloor_le | exact R]. }
  split; [reflexivity |]. split; [exact F0 |]. split.
  - rewrite Zle_Qle, !inject_Z_mult.
    change (inject_Z 100) with 100. change (inject_Z 6) with 6. lra.
  - assert (S : inject_Z total_vessels / 20 < inject_Z (Qfloor share)
                <-> (total_vessels < 20 * Qfloor share)%Z).
    { rewrite Zlt_Qlt, inject_Z_mult. change (inject_Z 20) with 20.
      setoid_replace (inject_Z total_vessels / 20)
        with (inject_Z total_vessels * (1 # 20)) by field.
      split; intro H; lra. }
    rewrite <- S.
    destruct (Qltb _ _) eqn:C.
    + apply Qltb_true in C. split; [intros _; exact C | reflexivity].
    + apply Qltb_false in C. split; [discriminate |].
      intro H. exfalso. exact (Qlt_not_le _ _ H C).
Qed.

(** X5. The hourly distribution has one entry for each of the hours 0 to
    23, in that order; every hourly count is at least 0 and at most 6% of
    the day's total, and an hour is labelled "High" exactly when its count
    is above a twentieth of the total. *)
Theorem hourly_distribution_covers_day :
  forall (segment_id : string) (coordinates : list (Q * Q))
         (analysis_date : date) (time_window_hours : Z) (g : Rng),
    coordinates <> [] ->
    exists r g',
      analyze_maritime_traffic segment_id coordinates analysis_date
        time_window_hours g = inr (r, g')
      /\ Forall2 (sound_hourly_entry
                    (TrafficSummary.total_vessels_24h (Traffic.traffic_summary r)))
           (map Z.of_nat (seq 0 24)) (Traffic.hourly_distribution r).
Proof.
  intros id coordinates d w g N.
  destruct (analyze_maritime_traffic_returns id coordinates d w N g)
    as (r & g' & E & _).
  destruct (analyze_maritime_traffic_sound id coordinates d w g r g' E)
    as [(T & _) _].
  destruct (analyze_maritime_traffic_counts id coordinates d w g r g' E)
    as [_ (g1 & g2 & H)].
  exists r, g'. split; [exact E |].
  eapply ensures_mapM; [| exact H].
  intros hour _. apply hourly_entry_sound. lia.
Qed.

Lemma hourly_distribution_covers_day_witness :
  exists r g',
    analyze_maritime_traffic "L_seg_1" [(35, -20)] 100%Z 24 rough_tape = inr (r, g')
    /\ Forall2 (sound_hourly_entry
                  (TrafficSummary.total_vessels_24h (Traffic.traffic_summary r)))
         (map Z.of_nat (seq 0 24)) (Traffic.hourly_distribution r).
Proof.
  apply (hourly_distribution_covers_day "L_seg_1" [(35, -20)] 100%Z 24 rough_tape).
  discriminate.
Defined.

Lemma analyze_maritime_traffic_lane (segment_id : string)
    (coordinates : list (Q * Q)) (analysis_date : date) (time_window_hours : Z) :
  ensures (analyze_maritime_traffic segment_id coordinates analysis_date time_window_hours)
          (fun r =>
             let total := TrafficSummary.total_vessels_24h (Traffic.traffic_summary r) in
             if is_major_lane (mean_latitude coordinates)
             then (40 <= total <= 70)%Z
             else (10 <= total <= 40)%Z).
Proof.
  intros g r g' E. unfold analyze_maritime_traffic in E. cbv zeta in E.
  run_inv E. destruct E as [<- _].
  match goal with
  | H : random.randint (-10) 20 _ = inr _ |- _ =>
      apply (randint_range (-10) 20 ltac:(lia)) in H; rename H into Delta
  end.
  match goal with
  | H : lift (py_div (py_sum (map fst coordinates)) _) _ = inr _ |- _ =>
      apply lift_inr in H; destruct H as [H _];
      apply py_div_inr in H; destruct H as [_ ->]
  end.
  cbv zeta. cbn [Traffic.traffic_summary TrafficSummary.total_vessels_24h].
  fold (mean_latitude coordinates).
  destruct (is_major_lane (mean_latitude coordinates)); lia.
Qed.

(** X6. Away from the three latitude bands of the major lanes (mean
    latitude between -10 and 10, 30 and 40, -35 and -25) a segment has 10
    to 40 vessels, so its congestion is always "Low" and its speed
    reduction 0; inside a band it has 40 to 70 vessels. *)
Theorem congestion_only_on_major_lanes :
  forall (segment_id : string) (coordinates : list (Q * Q))
         (analysis_date : date) (time_window_hours : Z) (g : Rng),
    coordinates <> [] ->
    exists r g',
      analyze_maritime_traffic segment_id coordinates analysis_date
        time_window_hours g = inr (r, g')
      /\ (is_major_lane (mean_latitude coordinates) = false ->
          (10 <= TrafficSummary.total_vessels_24h (Traffic.traffic_summary r) <= 40)%Z
          /\ TrafficSummary.congestion_level (Traffic.traffic_summary r) = Low
          /\ TrafficSummary.average_speed_reduction_knots (Traffic.traffic_summary r)
             == 0)
      /\ (is_major_lane (mean_latitude coordinates) = true ->
          (40 <= TrafficSummary.total_vessels_24h (Traffic.traffic_summary r) <= 70)%Z).
Proof.
  intros id coordinates d w g N.
  destruct (analyze_maritime_traffic_returns id coordinates d w N g)
    as (r & g' & E & _).
  destruct (analyze_maritime_traffic_sound id coordinates d w g r g' E)
    as [(_ & C & R & _) _].
  pose proof (analyze_maritime_traffic_lane id coordinates d w g r g' E) as L.
  cbv zeta in L.
  exists r, g'. split; [exact E |].
  destruct (is_major_lane (mean_latitude coordinates)).
  - split; [discriminate | intros _; exact L].
  - split; [intros _ | discriminate].
    assert (Low_ : TrafficSummary.congestion_level (Traffic.traffic_summary r) = Low).
    { rewrite C. unfold congestion_of.
      destruct (Z.ltb_spec 60 (TrafficSummary.total_vessels_24h (Traffic.traffic_summary r)));
        [lia |].
      destruct (Z.ltb_spec 40 (TrafficSummary.total_vessels_24h (Traffic.traffic_summary r)));
        [lia | reflexivity]. }
    split; [exact L |]. split; [exact Low_ |].
    rewrite Low_ in R. exact R.
Qed.

Lemma congestion_only_on_major_lanes_witness :
  exists r g',
    analyze_maritime_traffic "S_seg_1" [(50, -20)] 100%Z 24 rough_tape = inr (r, g')
    /\ (is_major_lane (mean_latitude [(50, -20)]) = false ->
        (10 <= TrafficSummary.total_vessels_24h (Traffic.traffic_summary r) <= 40)%Z
        /\ TrafficSummary.congestion_level (Traffic.traffic_summary r) = Low
        /\ TrafficSummary.average_speed_reduction_knots (Traffic.traffic_summary r)
           == 0)
    /\ (is_major_lane (mean_latitude [(50, -20)]) = true ->
        (40 <= TrafficSummary.total_vessels_24h (Traffic.traffic_summary r) <= 70)%Z).
Proof.
  apply (congestion_only_on_major_lanes "S_seg_1" [(50, -20)] 100%Z 24 rough_tape).
  discriminate.
Defined.

(** ** The weather simulator: ranges and warnings *)

Lemma severity_factor_range (c : Condition) :
  1 <= severity_factor c /\ severity_factor c <= 5 # 2.
Proof. destruct c; split; discriminate. Qed.

Lemma point_forecast_sound (forecast_date : date) (c : Q * Q) :
  ensures (point_forecast forecast_date c) (sound_point_forecast forecast_date c).
Proof.
  destruct c as [lat lon]. intros g p g' E.
  unfold point_forecast in E. cbv zeta in E. run_inv E. destruct E as [<- _].
  repeat match goal with
         | H : random.uniform ?a ?b _ = inr _ |- _ =>
             apply (uniform_range a b ltac:(discriminate)) in H
         | H : random.randint ?a ?b _ = inr _ |- _ =>
             apply (randint_range a b ltac:(lia)) in H
         | H : random.choice _ _ = inr _ |- _ => clear H
         end.
  unfold sound_point_forecast.
  cbn [PointForecast.location PointForecast.date PointForecast.warnings
       PointForecast.metrics PointForecast.condition Metrics.humidity_percent
       Metrics.pressure_mb Metrics.wind_speed_knots Metrics.wave_height_meters
       Metrics.visibility_km Metrics.temperature_celsius fst].
  match goal with
  | |- context [severity_factor ?c] =>
      pose proof (severity_factor_range c) as [F1 F2]
  end.
  split; [reflexivity |]. split; [reflexivity |]. split; [reflexivity |].
  split; [assumption |]. split; [assumption |].
  match goal with
  | |- context [severity_factor ?c] => set (factor := severity_factor c) in *
  end.
  assert (P : 0 < factor) by lra.
  assert (N : ~ factor == 0) by lra.
  split; [| split; [| split; [| split]]].
  - split.
    + apply (py_round_at_least _ _ 1); [reflexivity | nra].
    + subst factor.
      match goal with
      | |- context [severity_factor ?c] =>
          destruct c; cbn [severity_factor] in *;
            (apply (py_round_at_most _ _ 1); [reflexivity | nra])
      end.
  - split.
    + apply (py_round_at_least _ _ 1); [reflexivity | nra].
    + subst factor.
      match goal with
      | |- context [severity_factor ?c] =>
          destruct c; cbn [severity_factor] in *;
            (apply (py_round_at_most _ _ 1); [reflexivity | nra])
      end.
  - split.
    + apply (py_round_at_least _ _ 1); [reflexivity |].
      apply Qle_shift_div_l; [exact P | nra].
    + apply (py_round_at_most _ _ 1); [reflexivity |].
      apply Qle_shift_div_r; [exact P | nra].
  - intro One. apply (py_round_at_least _ _ 1); [reflexivity |].
    apply Qle_shift_div_l; [exact P | nra].
  - match goal with
    | |- context [py_round ?y 1] => destruct (py_round_error y 1) as [L U]
    end.
    change ((1 # 2) / inject_Z (10 ^ Z.of_nat 1)) with (1 # 20) in *.
    split; lra.
Qed.

Lemma py_sum_from (l : list Q) (a : Q) : fold_left Qplus l a == a + py_sum l.
Proof.
  unfold py_sum. revert a. induction l as [| x l IH]; intro a; simpl.
  - ring.
  - rewrite IH, (IH (0 + x)). ring.
Qed.

Lemma py_sum_cons (x : Q) (l : list Q) : py_sum (x :: l) == x + py_sum l.
Proof. unfold py_sum. simpl. rewrite py_sum_from. unfold py_sum. ring. Qed.

Lemma py_sum_at_most (l : list Q) (bound : Q) :
  Forall (fun x => x <= bound) l ->
  py_sum l <= bound * inject_Z (Z.of_nat (List.length l)).
Proof.
  induction 1 as [| x l X _ IH].
  - unfold py_sum. simpl. change (inject_Z 0) with 0. rewrite Qmult_0_r. apply Qle_refl.
  - rewrite py_sum_cons. cbn [List.length].
    rewrite Nat2Z.inj_succ, <- Z.add_1_r, inject_Z_plus.
    change (inject_Z 1) with 1. lra.
Qed.

Lemma mean_or_zero_at_most (l : list Q) (bound : Q) :
  0 <= bound -> Forall (fun x => x <= bound) l -> mean_or_zero l <= bound.
Proof.
  intros B F. pose proof (py_sum_at_most l bound F) as S.
  destruct l as [| x l]; [exact B |].
  unfold mean_or_zero. apply Qle_shift_div_r; [| exact S].
  change 0 with (inject_Z 0). rewrite <- Zlt_Qlt. simpl. lia.
Qed.

Lemma get_weather_forecast_sound (coordinates : list (Q * Q))
    (forecast_date : date) (segment_id : string) :
  ensures (get_weather_forecast coordinates forecast_date segment_id)
          (fun f =>
             let winds := map (fun p => Metrics.wind_speed_knots (PointForecast.metrics p))
                              (WeatherForecast.forecasts f) in
             let waves := map (fun p => Metrics.wave_height_meters (PointForecast.metrics p))
                              (WeatherForecast.forecasts f) in
             WeatherForecast.points_analyzed f = List.length coordinates
             /\ Forall2 (sound_point_forecast forecast_date) coordinates
                  (WeatherForecast.forecasts f)
             /\ SegmentSummary.risk_level (WeatherForecast.segment_summary f)
                = weather_risk (mean_or_zero winds) (mean_or_zero waves)
             /\ SegmentSummary.average_wind_speed (WeatherForecast.segment_summary f)
                = py_round (mean_or_zero winds) 1
             /\ SegmentSummary.average_wave_height (WeatherForecast.segment_summary f)
                = py_round (mean_or_zero waves) 1).
Proof.
  intros g f g' E. unfold get_weather_forecast in E. cbv zeta in E.
  run_inv E. destruct E as [<- _].
  cbn [WeatherForecast.points_analyzed WeatherForecast.forecasts
       WeatherForecast.segment_summary SegmentSummary.risk_level
       SegmentSummary.average_wind_speed SegmentSummary.average_wave_height].
  split; [reflexivity |]. split; [| repeat split].
  eapply ensures_mapM; [| eassumption].
  intros c _. apply point_forecast_sound.
Qed.

(** X7. The weather simulator never raises.  It reports one point forecast
    per coordinate, in the order of the coordinates, each at its coordinate
    and on the forecast date, with humidity 40 to 95, pressure 990 to 1030,
    wind from 5 knots to 30 times the severity factor of the condition,
    waves from 0.5 m to 4 times that factor, visibility from 0.8 to 20 km
    (at least 2 km when the factor is 1), and a temperature within 5.05
    degrees of 25 - |latitude| / 4. *)
Theorem weather_metrics_within_ranges :
  forall (coordinates : list (Q * Q)) (forecast_date : date)
         (segment_id : string) (g : Rng),
    exists f g',
      get_weather_forecast coordinates forecast_date segment_id g = inr (f, g')
      /\ WeatherForecast.points_analyzed f = List.length coordinates
      /\ Forall2 (sound_point_forecast forecast_date) coordinates
           (WeatherForecast.forecasts f).
Proof.
  intros coordinates d id g.
  destruct (get_weather_forecast_returns coordinates d id g) as (f & g' & E & _).
  exists f, g'. split; [exact E |].
  destruct (get_weather_forecast_sound coordinates d id g f g' E) as (P & F & _).
  split; assumption.
Qed.

Lemma warnings_of_sound_point (forecast_date : date) (c : Q * Q)
    (p : PointForecast.t) :
  sound_point_forecast forecast_date c p ->
  (unscaled p -> PointForecast.warnings p = [])
  /\ (In storm_warning (PointForecast.warnings p)
      <-> PointForecast.condition p = Stormy).
Proof.
  unfold sound_point_forecast, unscaled. cbv zeta.
  intros (_ & _ & W & _ & _ & [_ Wind] & [_ Wave] & _ & Vis & _).
  rewrite W. unfold weather_warnings. split.
  - intro One. specialize (Vis One). rewrite One in Wind, Wave.
    assert (A : Qltb 40 (Metrics.wind_speed_knots (PointForecast.metrics p)) = false)
      by (apply Qltb_false; lra).
    assert (B : Qltb 5 (Metrics.wave_height_meters (PointForecast.metrics p)) = false)
      by (apply Qltb_false; lra).
    assert (C : Qltb (Metrics.visibility_km (PointForecast.metrics p)) 2 = false)
      by (apply Qltb_false; lra).
    rewrite A, B, C.
    destruct (PointForecast.condition p); try reflexivity.
    exfalso. revert One. discriminate.
  - destruct (Qltb 40 _), (Qltb 5 _), (Qltb _ 2), (PointForecast.condition p);
      cbn [Condition_eqb app In]; unfold storm_warning;
      split; intro H; try reflexivity; try discriminate;
      repeat (destruct H as [H | H]; try discriminate H);
      try contradiction; auto 6.
Qed.

(** X8. A point forecast whose condition has severity factor 1 (clear,
    partly cloudy, overcast, light rain) carries no warning at all: its
    wind stays at or below 30 knots, its waves at or below 4 m and its
    visibility at or above 2 km.  The storm warning is among the warnings
    exactly when the condition is "Stormy". *)
Theorem weather_warnings_by_condition :
  forall (coordinates : list (Q * Q)) (forecast_date : date)
         (segment_id : string) (g : Rng),
    exists f g',
      get_weather_forecast coordinates forecast_date segment_id g = inr (f, g')
      /\ Forall (fun p =>
                   (unscaled p -> PointForecast.warnings p = [])
                   /\ (In storm_warning (PointForecast.warnings p)
                       <-> PointForecast.condition p = Stormy))
                (WeatherForecast.forecasts f).
Proof.
  intros coordinates d id g.
  destruct (get_weather_forecast_returns coordinates d id g) as (f & g' & E & _).
  exists f, g'. split; [exact E |].
  destruct (get_weather_forecast_sound coordinates d id g f g' E) as (_ & F & _).
  clear E. induction F as [| c p cs ps S _ IH]; constructor; [| exact IH].
  eapply warnings_of_sound_point. exact S.
Qed.

(** X9. A segment all of whose points have a condition of severity factor
    1 is never rated "High": its average wind is at most 30 knots and its
    average wave height at most 4 m, below the thresholds of that rating. *)
Theorem unscaled_segment_never_high :
  forall (coordinates : list (Q * Q)) (forecast_date : date)
         (segment_id : string) (g : Rng),
    exists f g',
      get_weather_forecast coordinates forecast_date segment_id g = inr (f, g')
      /\ (Forall unscaled (WeatherForecast.forecasts f) ->
          SegmentSummary.risk_level (WeatherForecast.segment_summary f) <> High
          /\ SegmentSummary.average_wind_speed (WeatherForecast.segment_summary f) <= 30
          /\ SegmentSummary.average_wave_height (WeatherForecast.segment_summary f) <= 4).
Proof.
  intros coordinates d id g.
  destruct (get_weather_forecast_returns coordinates d id g) as (f & g' & E & _).
  exists f, g'. split; [exact E |].
  destruct (get_weather_forecast_sound coordinates d id g f g' E)
    as (_ & F & R & W & V).
  cbv zeta in R, W, V. intro U.
  assert (Winds : Forall (fun x => x <= 30)
                    (map (fun p => Metrics.wind_speed_knots (PointForecast.metrics p))
                         (WeatherForecast.forecasts f))).
  { clear - F U. induction F as [| c p cs ps S _ IH]; [constructor |].
    inversion U as [| ? ? Up Ups]; subst. constructor; [| exact (IH Ups)].
    destruct S as (_ & _ & _ & _ & _ & [_ Wind] & _).
    unfold unscaled in Up. rewrite Up in Wind. lra. }
  assert (Waves : Forall (fun x => x <= 4)
                    (map (fun p => Metrics.wave_height_meters (PointForecast.metrics p))
                         (WeatherForecast.forecasts f))).
  { clear - F U. induction F as [| c p cs ps S _ IH]; [constructor |].
    inversion U as [| ? ? Up Ups]; subst. constructor; [| exact (IH Ups)].
    destruct S as (_ & _ & _ & _ & _ & _ & [_ Wave] & _).
    unfold unscaled in Up. rewrite Up in Wave. lra. }
  apply (mean_or_zero_at_most _ 30 ltac:(discriminate)) in Winds.
  apply (mean_or_zero_at_most _ 4 ltac:(discriminate)) in Waves.
  rewrite R, W, V. split; [| split].
  - unfold weather_risk.
    assert (A : Qltb 35 (mean_or_zero
                           (map (fun p => Metrics.wind_speed_knots (PointForecast.metrics p))
                                (WeatherForecast.forecasts f))) = false)
      by (apply Qltb_false; lra).
    assert (B : Qltb 4 (mean_or_zero
                          (map (fun p => Metrics.wave_height_meters (PointForecast.metrics p))
                               (WeatherForecast.forecasts f))) = false)
      by (apply Qltb_false; lra).
    rewrite A, B. cbn [orb]. destruct (_ || _)%bool; discriminate.
  - apply (py_round_at_most _ _ 1); [reflexivity | exact Winds].
  - apply (py_round_at_most _ _ 1); [reflexivity | exact Waves].
Qed.

Lemma idle_walk_entries (departure_date : date) (vessel_speed_knots : Q)
    (distances : list Q) (forecast : list WeatherForecast.t) :
  vessel_speed_knots <= 0 ->
  Forall2 (weather_entry_at (strptime departure_date) vessel_speed_knots)
          distances forecast ->
  Forall (fun f =>
            WeatherForecast.forecast_date f = departure_date
            /\ WeatherForecast.estimated_arrival f = Some (strptime departure_date)
            /\ exists hours,
                 WeatherForecast.hours_from_departure f = Some hours /\ hours == 0)
         forecast.
Proof.
  intros V F. induction F as [| covered f distances forecast (H & A & D) _ IH];
    constructor; [| exact IH].
  unfold weather_hours in *.
  assert (C : Qltb 0 vessel_speed_knots = false) by (apply Qltb_false; exact V).
  rewrite C in *.
  assert (T : timedelta_hours 0 = 0%Z) by reflexivity.
  rewrite T, Z.add_0_r in *.
  split; [| split].
  - rewrite D. unfold strftime, strptime. apply Z.div_mul. discriminate.
  - exact A.
  - eexists. split; [exact H | reflexivity].
Qed.

(** X10. For a vessel speed of 0 or less the weather walk does not divide
    and does not raise: it returns one forecast per segment, in order, each
    for the departure date itself, at the departure time and 0 hours from
    departure. *)
Theorem weather_walk_ignores_idle_speed :
  forall (route_segments : list Segment.t) (departure_date : date)
         (vessel_speed_knots : Q) (g : Rng),
    vessel_speed_knots <= 0 ->
    exists forecast g',
      get_extended_forecast route_segments departure_date vessel_speed_knots g
      = inr (forecast, g')
      /\ map WeatherForecast.segment_id forecast
         = map Segment.segment_id route_segments
      /\ Forall (fun f =>
                   WeatherForecast.forecast_date f = departure_date
                   /\ WeatherForecast.estimated_arrival f
                      = Some (strptime departure_date)
                   /\ exists hours,
                        WeatherForecast.hours_from_departure f = Some hours
                        /\ hours == 0)
                forecast.
Proof.
  intros segs dep v g V.
  destruct (extended_forecast_loop_returns (strptime dep) v segs 0 g)
    as (forecast & g' & E & Ids & F).
  exists forecast, g'. split; [exact E |]. split; [exact Ids |].
  eapply idle_walk_entries; eassumption.
Qed.

Lemma weather_walk_ignores_idle_speed_witness :
  exists forecast g',
    get_extended_forecast lane_segments 100%Z 0 rough_tape = inr (forecast, g')
    /\ map WeatherForecast.segment_id forecast
       = map Segment.segment_id lane_segments
    /\ Forall (fun f =>
                 WeatherForecast.forecast_date f = 100%Z
                 /\ WeatherForecast.estimated_arrival f = Some (strptime 100%Z)
                 /\ exists hours,
                      WeatherForecast.hours_from_departure f = Some hours
                      /\ hours == 0)
              forecast.
Proof.
  apply (weather_walk_ignores_idle_speed lane_segments 100%Z 0 rough_tape).
  discriminate.
Defined.

(** *** The predominant condition *)

Lemma Condition_eqb_eq (a b : Condition) : Condition_eqb a b = true <-> a = b.
Proof. destruct a, b; split; (reflexivity || discriminate). Qed.

Lemma Condition_eq_dec (a b : Condition) : {a = b} + {a <> b}.
Proof. decide equality. Qed.

Lemma count_condition_positive (c : Condition) (l : list Condition) :
  (0 < count_condition c l)%nat <-> In c l.
Proof.
  unfold count_condition. induction l as [| x l IH]; cbn [filter List.length In].
  - split; [lia | intros []].
  - destruct (Condition_eqb c x) eqn:E; cbn [List.length].
    + apply Condition_eqb_eq in E. subst x. split; [intros _; left; reflexivity | lia].
    + rewrite IH. split; [intro I; right; exact I |].
      intros [Q | I]; [| exact I]. subst x.
      assert (T : Condition_eqb c c = true) by (apply Condition_eqb_eq; reflexivity).
      congruence.
Qed.

Lemma top_count_bounds (l all : list Condition) :
  let top := fold_right Nat.max O (map (fun c => count_condition c all) l) in
  (forall c, In c l -> (count_condition c all <= top)%nat)
  /\ (l <> [] -> exists c, In c l /\ count_condition c all = top).
Proof.
  cbv zeta. induction l as [| x l [B A]]; cbn [map fold_right].
  - split; [intros c [] | congruence].
  - split.
    + intros c [<- | I]; [lia |]. specialize (B c I). lia.
    + intros _. destruct l as [| y l'].
      * exists x. split; [left; reflexivity |]. cbn. lia.
      * destruct (A ltac:(discriminate)) as (c & I & E).
        destruct (Nat.le_ge_cases
                    (fold_right Nat.max O
                       (map (fun c0 => count_condition c0 all) (y :: l')))
                    (count_condition x all)) as [L | L].
        -- exists x. split; [left; reflexivity | lia].
        -- exists c. split; [right; exact I | lia].
Qed.

Lemma most_frequent_spec (l : list Condition) (c : Condition) :
  In c (most_frequent l)
  <-> In c l /\ forall c', (count_condition c' l <= count_condition c l)%nat.
Proof.
  unfold most_frequent. cbv zeta.
  destruct (top_count_bounds l l) as [B A]. cbv zeta in B, A.
  set (top := fold_right Nat.max O (map (fun c0 => count_condition c0 l) l)) in *.
  rewrite filter_In. split.
  - intros [_ T]. apply andb_true_iff in T. destruct T as [P E].
    apply Nat.ltb_lt in P. apply Nat.eqb_eq in E. split.
    + apply count_condition_positive. lia.
    + intro c'. rewrite E.
      destruct (in_dec Condition_eq_dec c' l) as [I | Out]; [apply B; exact I |].
      assert (Z : ~ (0 < count_condition c' l)%nat)
        by (rewrite count_condition_positive; exact Out).
      lia.
  - intros [I M]. split; [destruct c; cbn; auto 8 |].
    assert (N : l <> []) by (intro Z; rewrite Z in I; destruct I).
    destruct (A N) as (c0 & I0 & E0).
    pose proof (B c I) as Le. specialize (M c0).
    apply count_condition_positive in I.
    apply andb_true_iff. split; [apply Nat.ltb_lt; lia | apply Nat.eqb_eq; lia].
Qed.

(** X11. The predominant condition of a segment is a condition that occurs
    among its point forecasts at least as often as every other one (any of
    them, when several tie); the label "Unknown" stands exactly for a
    segment without coordinates. *)
Theorem predominant_condition_occurs_most :
  forall (coordinates : list (Q * Q)) (forecast_date : date)
         (segment_id : string) (g : Rng),
    exists f g',
      get_weather_forecast coordinates forecast_date segment_id g = inr (f, g')
      /\ let conditions := map PointForecast.condition (WeatherForecast.forecasts f) in
         let predominant :=
           SegmentSummary.predominant_condition (WeatherForecast.segment_summary f) in
         (predominant = [] <-> coordinates = [])
         /\ forall c,
              In c predominant
              <-> In c conditions
                  /\ forall c', (count_condition c' conditions
                                 <= count_condition c conditions)%nat.
Proof.
  intros coordinates d id g.
  destruct (get_weather_forecast_returns coordinates d id g) as (f & g' & E & _).
  exists f, g'. split; [exact E |].
  destruct (get_weather_forecast_sound coordinates d id g f g' E) as (_ & F & _).
  assert (P : SegmentSummary.predominant_condition (WeatherForecast.segment_summary f)
              = most_frequent (map PointForecast.condition (WeatherForecast.forecasts f))).
  { unfold get_weather_forecast in E. cbv zeta in E. run_inv E.
    destruct E as [<- _]. reflexivity. }
  cbv zeta. rewrite P. split; [| intro c; apply most_frequent_spec].
  set (conds := map PointForecast.condition (WeatherForecast.forecasts f)).
  assert (Len : List.length conds = List.length coordinates).
  { unfold conds. rewrite length_map. symmetry. eapply Forall2_length. exact F. }
  split.
  - intro Z. destruct coordinates as [| c0 cs]; [reflexivity | exfalso].
    destruct conds as [| c conds'] eqn:Q; [discriminate |].
    destruct (top_count_bounds (c :: conds') (c :: conds')) as [_ A]. cbv zeta in A.
    destruct (A ltac:(discriminate)) as (m & I & Em).
    assert (In m (most_frequent (c :: conds'))).
    { apply most_frequent_spec. split; [exact I |]. intro c'.
      destruct (top_count_bounds (c :: conds') (c :: conds')) as [B _]. cbv zeta in B.
      destruct (in_dec Condition_eq_dec c' (c :: conds')) as [I' | Out].
      - rewrite Em. apply B. exact I'.
      - assert (~ (0 < count_condition c' (c :: conds'))%nat)
          by (rewrite count_condition_positive; exact Out).
        lia. }
    rewrite Z in *. contradiction.
  - intros ->. destruct conds; [reflexivity | discriminate].
Qed.

(** ** The event simulator: events, counts and the overall risk *)

Lemma news_item_sound (segment_id : string) (segment_coordinates : list (Q * Q))
    (base_date : date) (days_before : Z) :
  (0 <= days_before)%Z ->
  ensures (news_item segment_id segment_coordinates base_date days_before)
          (sound_news_item base_date days_before).
Proof.
  intros W g item g' E. unfold news_item in E. cbv zeta in E.
  run_inv E. destruct E as [<- _].
  repeat match goal with
         | H : random.choice _ _ = inr _ |- _ => apply choice_member in H
         | H : random.randint 0 days_before _ = inr _ |- _ =>
             apply (randint_range 0 days_before W) in H
         | H : (if low_or_medium ?s then _ else _) _ = inr _ |- _ =>
             destruct (low_or_medium s) eqn:Sev;
               [apply (randint_range 1 7 ltac:(lia)) in H
               | apply (randint_range 3 14 ltac:(lia)) in H]
         end;
    unfold sound_news_item;
    cbn [NewsItem.duration NewsItem.date NewsItem.severity NewsItem.type
         NewsItem.affected_radius_nm NewsItem.impact NewsItem.headline
         Duration.start_date Duration.end_date Duration.days];
    rewrite Sev;
    (split; [lia |]); (split; [reflexivity |]); (split; [reflexivity |]);
    (split; [assumption |]); (split; [reflexivity |]); (split; [reflexivity |]);
    (eexists; split; [eassumption | split; [reflexivity | assumption]]).
Qed.

Lemma generate_news_sound (segment_id : string)
    (segment_coordinates : list (Q * Q)) (analysis_date : date) (days_before : Z) :
  (0 <= days_before)%Z ->
  ensures (generate_news_for_segment segment_id segment_coordinates analysis_date
             days_before)
          (fun items =>
             (2 <= List.length items <= 5)%nat
             /\ Forall (sound_news_item analysis_date days_before) items).
Proof.
  intros W g items g' E. unfold generate_news_for_segment in E. cbv zeta in E.
  run_inv E.
  match goal with
  | H : random.randint 2 5 _ = inr _ |- _ =>
      apply (randint_range 2 5 ltac:(lia)) in H
  end.
  eapply (ensures_repeatM _ _ _ (news_item_sound _ _ _ _ W)) in E.
  destruct E as [L F]. split; [lia | exact F].
Qed.

(** X12. For a segment with coordinates and a window of 0 days or more,
    the event simulator returns 2 to 5 events.  Each is dated within the
    window before the analysis date, starts on its date and ends [days]
    later, lasts 1 to 7 days when its severity is Low or Medium and 3 to 14
    days otherwise, carries the radius and the impact of its severity, and
    has a headline from the template of its type. *)
Theorem segment_events_within_window :
  forall (segment_id : string) (segment_coordinates : list (Q * Q))
         (analysis_date : date) (days_before : Z) (g : Rng),
    segment_coordinates <> [] ->
    (0 <= days_before)%Z ->
    exists items g',
      generate_news_for_segment segment_id segment_coordinates analysis_date
        days_before g = inr (items, g')
      /\ (2 <= List.length items <= 5)%nat
      /\ Forall (sound_news_item analysis_date days_before) items.
Proof.
  intros id coordinates d w g N W.
  destruct (generate_news_returns id coordinates d w N g) as (items & g' & E & _).
  exists items, g'. split; [exact E |].
  exact (generate_news_sound id coordinates d w W g items g' E).
Qed.

Lemma segment_events_within_window_witness :
  exists items g',
    generate_news_for_segment "L_seg_1" [(35, -20)] 100%Z 7 rough_tape
    = inr (items, g')
    /\ (2 <= List.length items <= 5)%nat
    /\ Forall (sound_news_item 100%Z 7) items.
Proof.
  apply (segment_events_within_window "L_seg_1" [(35, -20)] 100%Z 7 rough_tape).
  - discriminate.
  - lia.
Defined.

Lemma route_news_loop_count (departure : datetime) (vessel_speed_knots : Q)
    (route_segments : list Segment.t) :
  forall elapsed,
    ensures (route_news_loop departure vessel_speed_knots elapsed route_segments)
            (fun all_news =>
               (2 * List.length route_segments <= List.length all_news
                <= 5 * List.length route_segments)%nat).
Proof.
  induction route_segments as [| s segs IH]; intros elapsed g all g' E.
  - apply ret_inr in E. destruct E as [<- _]. simpl. lia.
  - simpl in E. cbv zeta in E. run_inv E. destruct E as [<- _].
    match goal with
    | H : generate_news_for_segment _ _ _ _ _ = inr _ |- _ =>
        apply (generate_news_sound _ _ _ 7 ltac:(lia)) in H; destruct H as [L _]
    end.
    match goal with
    | H : route_news_loop _ _ _ _ _ = inr _ |- _ => apply IH in H
    end.
    rewrite length_app, length_map. cbn [List.length]. lia.
Qed.

Lemma severity_counts_total (all_news : list NewsItem.t) :
  (List.length (with_severity Critical all_news)
   + List.length (with_severity High all_news)
   + List.length (with_severity Medium all_news)
   + List.length (with_severity Low all_news)
   = List.length all_news)%nat.
Proof.
  unfold with_severity. induction all_news as [| n l IH]; [reflexivity |].
  cbn [filter]. destruct (NewsItem.severity n); cbn [Level_eqb List.length]; lia.
Qed.

(** X13. For a route whose segments have coordinates and a speed other
    than 0, the event analysis returns; its total_events is the number of
    its news items, between 2 and 5 per segment, and its counts by
    severity, listed for Critical, High, Medium and Low, add up to
    total_events. *)
Theorem route_event_counts_add_up :
  forall (route_segments : list Segment.t) (departure_date : date)
         (vessel_speed_knots : Q) (g : Rng),
    (forall s, In s route_segments -> Segment.coordinates s <> []) ->
    ~ vessel_speed_knots == 0 ->
    exists news g',
      analyze_route_news route_segments departure_date vessel_speed_knots g
      = inr (news, g')
      /\ NewsAnalysis.total_events news = List.length (NewsAnalysis.news_items news)
      /\ (2 * List.length route_segments <= NewsAnalysis.total_events news
          <= 5 * List.length route_segments)%nat
      /\ map fst (NewsAnalysis.events_by_severity news) = [Critical; High; Medium; Low]
      /\ nat_sum (map snd (NewsAnalysis.events_by_severity news))
         = NewsAnalysis.total_events news.
Proof.
  intros segs dep v g N V.
  destruct (analyze_route_news_returns segs dep v V N g) as (news & g' & E & _).
  exists news, g'. split; [exact E |].
  unfold analyze_route_news in E. run_inv E. destruct E as [<- _].
  match goal with
  | H : route_news_loop _ _ _ _ _ = inr _ |- _ =>
      apply route_news_loop_count in H; rename H into C
  end.
  cbn [NewsAnalysis.total_events NewsAnalysis.news_items
       NewsAnalysis.events_by_severity map fst snd].
  split; [reflexivity |]. split; [exact C |]. split; [reflexivity |].
  unfold nat_sum. cbn [fold_right].
  match goal with
  | |- context [with_severity Critical ?l] => pose proof (severity_counts_total l)
  end.
  lia.
Qed.

Lemma route_event_counts_add_up_witness :
  exists news g',
    analyze_route_news lane_segments 100%Z 20 rough_tape = inr (news, g')
    /\ NewsAnalysis.total_events news = List.length (NewsAnalysis.news_items news)
    /\ (2 * List.length lane_segments <= NewsAnalysis.total_events news
        <= 5 * List.length lane_segments)%nat
    /\ map fst (NewsAnalysis.events_by_severity news) = [Critical; High; Medium; Low]
    /\ nat_sum (map snd (NewsAnalysis.events_by_severity news))
       = NewsAnalysis.total_events news.
Proof.
  apply (route_event_counts_add_up lane_segments 100%Z 20 rough_tape).
  - intros s [<- | [<- | []]]; discriminate.
  - discriminate.
Defined.

Lemma with_severity_none (s : Level) (all_news : list NewsItem.t) :
  with_severity s all_news = []
  <-> Forall (fun n => NewsItem.severity n <> s) all_news.
Proof.
  unfold with_severity. induction all_news as [| n l IH]; cbn [filter].
  - split; constructor.
  - destruct (Level_eqb (NewsItem.severity n) s) eqn:E.
    + split; [discriminate |]. intro F. inversion F as [| ? ? D _]; subst.
      exfalso. apply D. destruct (NewsItem.severity n), s; (discriminate || reflexivity).
    + rewrite IH. split.
      * intro F. constructor; [| exact F]. intro Q. rewrite Q in E.
        destruct s; discriminate.
      * intro F. inversion F; assumption.
Qed.

Lemma overall_news_risk_low (all_news : list NewsItem.t) :
  overall_news_risk all_news = Low
  <-> Forall (fun n => low_or_medium (NewsItem.severity n) = true) all_news.
Proof.
  unfold overall_news_risk. cbv zeta.
  pose proof (with_severity_none Critical all_news) as C.
  pose proof (with_severity_none High all_news) as H.
  assert (S : Forall (fun n => low_or_medium (NewsItem.severity n) = true) all_news
              <-> Forall (fun n => NewsItem.severity n <> Critical) all_news
                  /\ Forall (fun n => NewsItem.severity n <> High) all_news).
  { rewrite !Forall_forall. split.
    - intro F. split; intros n I E; specialize (F n I); rewrite E in F; discriminate.
    - intros [F1 F2] n I. specialize (F1 n I). specialize (F2 n I).
      destruct (NewsItem.severity n); (reflexivity || contradiction). }
  rewrite S, <- C, <- H.
  destruct (with_severity Critical all_news) as [| c cs].
  - destruct (with_severity High all_news) as [| h hs].
    + cbn. split; [intros _; split; reflexivity | reflexivity].
    + destruct (Nat.ltb 2 (List.length (h :: hs)));
        split; try discriminate; intros [_ D]; discriminate.
  - split; [discriminate | intros [D _]; discriminate].
Qed.

Lemma overall_news_risk_critical (all_news : list NewsItem.t) :
  overall_news_risk all_news = Critical
  <-> Exists (fun n => NewsItem.severity n = Critical) all_news.
Proof.
  unfold overall_news_risk. cbv zeta.
  pose proof (with_severity_none Critical all_news) as C.
  rewrite Exists_exists.
  destruct (with_severity Critical all_news) as [| c cs] eqn:W.
  - split.
    + destruct (Nat.ltb 2 _); [discriminate |].
      destruct (with_severity High all_news); discriminate.
    + intros (n & I & E). exfalso.
      pose proof (proj1 C eq_refl) as F. rewrite Forall_forall in F.
      exact (F n I E).
  - split; [intros _ | reflexivity].
    assert (I : In c (with_severity Critical all_news)) by (rewrite W; left; reflexivity).
    unfold with_severity in I. apply filter_In in I. destruct I as [I E].
    exists c. split; [exact I |]. destruct (NewsItem.severity c); (discriminate || reflexivity).
Qed.

(** X14. The overall event risk of a route is "Low" exactly when every
    event on it has the severity Low or Medium, and "Critical" exactly when
    some event is Critical: events of Medium severity never raise the
    overall risk, and one Critical event decides it. *)
Theorem overall_event_risk_extremes :
  forall (route_segments : list Segment.t) (departure_date : date)
         (vessel_speed_knots : Q) (g : Rng),
    (forall s, In s route_segments -> Segment.coordinates s <> []) ->
    ~ vessel_speed_knots == 0 ->
    exists news g',
      analyze_route_news route_segments departure_date vessel_speed_knots g
      = inr (news, g')
      /\ (NewsAnalysis.overall_risk_assessment news = Low
          <-> Forall (fun n => low_or_medium (NewsItem.severity n) = true)
                     (NewsAnalysis.news_items news))
      /\ (NewsAnalysis.overall_risk_assessment news = Critical
          <-> Exists (fun n => NewsItem.severity n = Critical)
                     (NewsAnalysis.news_items news)).
Proof.
  intros segs dep v g N V.
  destruct (analyze_route_news_returns segs dep v V N g) as (news & g' & E & _).
  exists news, g'. split; [exact E |].
  unfold analyze_route_news in E. run_inv E. destruct E as [<- _].
  cbn [NewsAnalysis.overall_risk_assessment NewsAnalysis.news_items].
  split; [apply overall_news_risk_low | apply overall_news_risk_critical].
Qed.

Lemma overall_event_risk_extremes_witness :
  exists news g',
    analyze_route_news lane_segments 100%Z 20 rough_tape = inr (news, g')
    /\ (NewsAnalysis.overall_risk_assessment news = Low
        <-> Forall (fun n => low_or_medium (NewsItem.severity n) = true)
                   (NewsAnalysis.news_items news))
    /\ (NewsAnalysis.overall_risk_assessment news = Critical
        <-> Exists (fun n => NewsItem.severity n = Critical)
                   (NewsAnalysis.news_items news)).
Proof.
  apply (overall_event_risk_extremes lane_segments 100%Z 20 rough_tape).
  - intros s [<- | [<- | []]]; discriminate.
  - discriminate.
Defined.

(** *** The counts behind the summary text *)

Lemma EventType_eqb_eq (a b : EventType) : EventType_eqb a b = true <-> a = b.
Proof. destruct a, b; split; (reflexivity || discriminate). Qed.

Lemma EventType_eqb_refl (a : EventType) : EventType_eqb a a = true.
Proof. destruct a; reflexivity. Qed.

Lemma EventType_eqb_neq (a b : EventType) : EventType_eqb a b = false <-> a <> b.
Proof.
  split.
  - intros E ->. rewrite EventType_eqb_refl in E. discriminate.
  - intro N. destruct (EventType_eqb a b) eqn:E; [| reflexivity].
    apply EventType_eqb_eq in E. contradiction.
Qed.

Lemma count_event_type_get (t t' : EventType) (d : list (EventType * nat)) :
  dict_get t' (count_event_type t d)
  = if EventType_eqb t t'
    then Some (match dict_get t d with Some c => c + 1 | None => 1 end)%nat
    else dict_get t' d.
Proof.
  induction d as [| [k c] d IH]; cbn [count_event_type dict_get].
  - destruct (EventType_eqb t t'); reflexivity.
  - destruct (EventType_eqb k t) eqn:K; cbn [dict_get].
    + apply EventType_eqb_eq in K. subst k.
      destruct (EventType_eqb t t'); reflexivity.
    + rewrite IH. destruct (EventType_eqb t t') eqn:T; [| reflexivity].
      apply EventType_eqb_eq in T. subst t'. rewrite K. reflexivity.
Qed.

Lemma count_event_type_keys (t k : EventType) (d : list (EventType * nat)) :
  In k (map fst (count_event_type t d)) <-> In k (map fst d) \/ k = t.
Proof.
  induction d as [| [k0 c] d IH]; cbn [count_event_type map fst In].
  - split; [intros [E | []]; right; symmetry; exact E | intros [[] | E]; left; symmetry; exact E].
  - destruct (EventType_eqb k0 t) eqn:K; cbn [map fst In].
    + apply EventType_eqb_eq in K. subst k0. intuition congruence.
    + rewrite IH. intuition.
Qed.

Lemma count_event_type_nodup (t : EventType) (d : list (EventType * nat)) :
  NoDup (map fst d) -> NoDup (map fst (count_event_type t d)).
Proof.
  induction d as [| [k c] d IH]; cbn [count_event_type map fst]; intro N.
  - constructor; [intros [] | constructor].
  - inversion N as [| ? ? Out N']; subst.
    destruct (EventType_eqb k t) eqn:K; cbn [map fst].
    + constructor; assumption.
    + constructor; [| exact (IH N')].
      rewrite count_event_type_keys. intros [I | E]; [exact (Out I) |].
      apply EventType_eqb_neq in K. contradiction.
Qed.

Lemma count_event_type_sum (t : EventType) (d : list (EventType * nat)) :
  nat_sum (map snd (count_event_type t d)) = S (nat_sum (map snd d)).
Proof.
  unfold nat_sum. induction d as [| [k c] d IH]; cbn [count_event_type map snd fold_right].
  - reflexivity.
  - destruct (EventType_eqb k t); cbn [map snd fold_right]; [lia |].
    rewrite IH. lia.
Qed.

Lemma dict_get_in (t : EventType) (c : nat) (d : list (EventType * nat)) :
  NoDup (map fst d) -> (In (t, c) d <-> dict_get t d = Some c).
Proof.
  induction d as [| [k c0] d IH]; cbn [map fst dict_get In]; intro N.
  - split; [intros [] | discriminate].
  - inversion N as [| ? ? Out N']; subst.
    destruct (EventType_eqb k t) eqn:K.
    + apply EventType_eqb_eq in K. subst k. split.
      * intros [E | I]; [congruence |].
        exfalso. apply Out. apply in_map_iff. exists (t, c). split; [reflexivity | exact I].
      * intro E. left. congruence.
    + rewrite <- (IH N'). split; [| intro I; right; exact I].
      intros [E | I]; [| exact I].
      apply EventType_eqb_neq in K. congruence.
Qed.

Lemma events_of_type_app (t : EventType) (l1 l2 : list NewsItem.t) :
  events_of_type t (l1 ++ l2) = (events_of_type t l1 + events_of_type t l2)%nat.
Proof. unfold events_of_type. rewrite filter_app, length_app. reflexivity. Qed.

Lemma count_event_types_from (news_items seen : list NewsItem.t)
    (d : list (EventType * nat)) :
  NoDup (map fst d)
  /\ (forall t, dict_get t d
                = if Nat.eqb (events_of_type t seen) 0 then None
                  else Some (events_of_type t seen))
  /\ nat_sum (map snd d) = List.length seen ->
  let d' := fold_left (fun event_types item =>
                         count_event_type (NewsItem.type item) event_types)
                      news_items d in
  NoDup (map fst d')
  /\ (forall t, dict_get t d'
                = if Nat.eqb (events_of_type t (seen ++ news_items)) 0 then None
                  else Some (events_of_type t (seen ++ news_items)))
  /\ nat_sum (map snd d') = List.length (seen ++ news_items).
Proof.
  revert seen d. induction news_items as [| item items IH]; intros seen d (N & G & Sum).
  - cbn [fold_left]. rewrite app_nil_r. repeat split; assumption.
  - cbn [fold_left].
    replace (seen ++ item :: items) with ((seen ++ [item]) ++ items)
      by (rewrite <- app_assoc; reflexivity).
    apply IH. split; [apply count_event_type_nodup; exact N |]. split.
    + intro t. rewrite count_event_type_get, events_of_type_app.
      unfold events_of_type at 2 4. cbn [filter].
      rewrite (G (NewsItem.type item)), (G t).
      destruct (EventType_eqb (NewsItem.type item) t) eqn:T; cbn [List.length].
      * apply EventType_eqb_eq in T. subst t.
        destruct (events_of_type (NewsItem.type item) seen) as [| n]; cbn [Nat.eqb].
        -- reflexivity.
        -- replace (S n + 1)%nat with (S (S n)) by lia. reflexivity.
      * rewrite Nat.add_0_r. reflexivity.
    + rewrite count_event_type_sum, Sum, length_app. cbn [List.length]. lia.
Qed.

(** X15. The counts that the summary text reports name each event type
    that occurs among the events once, with the number of the events of
    that type: no type is listed twice, none with the count 0, and the
    counts add up to the number of events.  Without events the summary is
    the fixed text "No significant events detected along the route." *)
Theorem news_summary_counts_every_event :
  forall news_items : list NewsItem.t,
    NoDup (map fst (count_event_types news_items))
    /\ (forall t c,
          In (t, c) (count_event_types news_items)
          <-> c = events_of_type t news_items /\ (0 < c)%nat)
    /\ nat_sum (map snd (count_event_types news_items)) = List.length news_items
    /\ (_generate_news_summary news_items
        = "No significant events detected along the route."%string
        <-> news_items = []).
Proof.
  intro items.
  destruct (count_event_types_from items [] []) as (N & G & Sum).
  { split; [constructor |]. split; [intro t; reflexivity | reflexivity]. }
  cbn [app] in G, Sum. fold (count_event_types items) in N, G, Sum.
  split; [exact N |]. split; [| split; [exact Sum |]].
  - intros t c. rewrite (dict_get_in t c _ N), G.
    destruct (events_of_type t items) as [| n]; cbn [Nat.eqb].
    + split; [discriminate | intros [-> L]; lia].
    + split; [intro E; injection E as <-; split; [reflexivity | lia]
             | intros [-> _]; reflexivity].
  - destruct items as [| item items]; [split; reflexivity |].
    split; [| discriminate]. unfold _generate_news_summary. cbv zeta.
    intro E. exfalso. revert E. cbn [append]. discriminate.
Qed.

(** ** Route time *)



Lemma Qeq_bool_false (a b : Q) : Qeq_bool a b = false <-> ~ a == b.
Proof.
  split.
  - intros E Z. apply Qeq_bool_iff in Z. congruence.
  - intro N. destruct (Qeq_bool a b) eqn:E; [| reflexivity].
    apply Qeq_bool_iff in E. contradiction.
Qed.




Lemma calculate_route_time_fails_by_division (route : Route.t)
    (vessel_speed_knots : Q) (weather_impact : option WeatherImpact.t)
    (traffic_impact : option TrafficImpact.t) (e : exn) :
  calculate_route_time route vessel_speed_knots weather_impact traffic_impact = inl e ->
  e = ZeroDivisionError.
Proof.
  unfold calculate_route_time, py_div.
  destruct (Qeq_bool vessel_speed_knots 0); cbn [bindR raise ok];
    [intro E; injection E as <-; reflexivity |].
  match goal with
  | |- context [Qeq_bool ?total 0] => destruct (Qeq_bool total 0)
  end; cbn [bindR raise ok]; [intro E; injection E as <-; reflexivity | discriminate].
Qed.





(** ** Carrier lookup *)

Lemma filter_first_match {A} (f : A -> bool) (l : list A) (x : A) (rest : list A) :
  filter f l = x :: rest ->
  exists before after,
    l = before ++ x :: after
    /\ Forall (fun y => f y = false) before
    /\ f x = true
    /\ rest = filter f after.
Proof.
  induction l as [| y l IH]; cbn [filter]; [discriminate |].
  destruct (f y) eqn:Fy.
  - intro E. injection E as -> <-. exists [], l. repeat split; [constructor | exact Fy].
  - intro E. destruct (IH E) as (before & after & -> & B & Fx & R).
    exists (y :: before), after. repeat split; try assumption.
    constructor; assumption.
Qed.

Lemma filter_none {A} (f : A -> bool) (l : list A) :
  filter f l = [] <-> Forall (fun y => f y = false) l.
Proof.
  induction l as [| y l IH]; cbn [filter].
  - split; constructor.
  - destruct (f y) eqn:Fy.
    + split; [discriminate |]. intro F. inversion F; congruence.
    + rewrite IH. split; [intro F; constructor; assumption | intro F; inversion F; assumption].
Qed.

(** X18. [get_carrier_info] returns None exactly when no row of the
    carrier table has the id (and when the tables failed to load).
    Otherwise the id, name, speed and service type are those of the first
    row with that id, whatever later rows with the same id say, while
    [routes] lists the port pair of every row with that id, in table
    order. *)
Theorem carrier_info_from_first_row :
  forall (data : RouteData.t) (carrier_id : string),
    get_carrier_info None carrier_id = None
    /\ (get_carrier_info (Some data) carrier_id = None
        <-> Forall (fun c => CarrierRow.CARRIER_ID c <> carrier_id)
                   (RouteData.carriers data))
    /\ (forall info,
          get_carrier_info (Some data) carrier_id = Some info ->
          exists before row after,
            RouteData.carriers data = before ++ row :: after
            /\ Forall (fun c => CarrierRow.CARRIER_ID c <> carrier_id) before
            /\ CarrierRow.CARRIER_ID row = carrier_id
            /\ CarrierInfo.carrier_id info = carrier_id
            /\ CarrierInfo.carrier_name info = CarrierRow.CARRIER_NAME row
            /\ CarrierInfo.avg_speed_knots info = CarrierRow.AVG_SPEED_KNOTS row
            /\ CarrierInfo.service_type info = CarrierRow.SERVICE_TYPE row
            /\ CarrierInfo.routes info
               = map (fun c => (CarrierRow.ORIGIN_PORT c, CarrierRow.DESTINATION_PORT c))
                     (filter (fun c => String.eqb (CarrierRow.CARRIER_ID c) carrier_id)
                             (RouteData.carriers data))).
Proof.
  intros data id. split; [reflexivity |].
  assert (Neq : forall l,
             Forall (fun c => String.eqb (CarrierRow.CARRIER_ID c) id = false) l
             <-> Forall (fun c => CarrierRow.CARRIER_ID c <> id) l).
  { intro l. rewrite !Forall_forall.
    split; intros F c I; specialize (F c I); apply String.eqb_neq; exact F. }
  unfold get_carrier_info.
  destruct (filter _ (RouteData.carriers data)) as [| row rest] eqn:E.
  - split; [| discriminate]. split; [intros _ | reflexivity].
    apply Neq, filter_none. exact E.
  - split.
    + split; [discriminate |]. intro F. apply Neq, filter_none in F. congruence.
    + intros info I. injection I as <-.
      destruct (filter_first_match _ _ _ _ E) as (before & after & L & B & M & _).
      exists before, row, after. apply String.eqb_eq in M.
      split; [exact L |]. split; [apply Neq; exact B |].
      repeat split; try assumption.
Qed.

(** When an id stands on two rows with different names and speeds, the
    lookup answers with the first row and lists both port pairs. *)
Example twice_listed_carrier :
  get_carrier_info (Some twice_listed_data) "CR_0001"
  = Some (CarrierInfo.mk "CR_0001" "Ocean Express" 22 "Container"
            [("New York", "Cape Town"); ("New York", "London")]%string).
Proof. reflexivity. Qed.

(** ** Candidate routes: waypoints, segments and distances *)

Lemma interpolated_length (start end_ : Waypoint.t) (num_points : nat) :
  List.length (interpolated start end_ num_points) = num_points.
Proof. unfold interpolated. rewrite length_map, length_seq. reflexivity. Qed.

Lemma enrich_from_length (num_points : nat) (rest : list Waypoint.t) :
  forall start,
    List.length (enrich_from num_points start rest)
    = (List.length rest * (num_points + 1))%nat.
Proof.
  induction rest as [| end_ rest IH]; intro start; cbn [enrich_from List.length].
  - reflexivity.
  - rewrite length_app, interpolated_length. cbn [List.length]. rewrite IH. lia.
Qed.

Lemma last_after {A} (l1 l2 : list A) (x d : A) :
  last (l1 ++ x :: l2) d = last (x :: l2) d.
Proof.
  induction l1 as [| y l1 IH]; [reflexivity |].
  change ((y :: l1) ++ x :: l2) with (y :: (l1 ++ x :: l2)).
  destruct (l1 ++ x :: l2) eqn:E; [destruct l1; discriminate |].
  cbn [last]. cbn [last] in IH. exact IH.
Qed.

Lemma enrich_from_last (num_points : nat) (rest : list Waypoint.t) :
  forall start w,
    last (start :: enrich_from num_points start rest) w = last (start :: rest) w.
Proof.
  induction rest as [| end_ rest IH]; intros start w; cbn [enrich_from].
  - reflexivity.
  - change (start :: interpolated start end_ num_points
              ++ end_ :: enrich_from num_points end_ rest)
      with ((start :: interpolated start end_ num_points)
              ++ end_ :: enrich_from num_points end_ rest).
    rewrite last_after, IH. reflexivity.
Qed.

Lemma enrich_filled (usable : list Waypoint.t) :
  (2 <= List.length usable < 4)%nat ->
  List.length (enrich usable)
  = match List.length usable with
    | 2 => 4
    | 3 => 5
    | n => n
    end%nat
  /\ hd_error (enrich usable) = hd_error usable
  /\ (forall w, last (enrich usable) w = last usable w).
Proof.
  intro L. destruct usable as [| first rest]; [simpl in L; lia |].
  unfold enrich. split; [| split; [reflexivity | intro w; apply enrich_from_last]].
  cbn [List.length] in *. rewrite enrich_from_length.
  destruct rest as [| a [| b [| c rest]]]; cbn [List.length] in *; try lia; reflexivity.
Qed.

Section Rows.

Context `{MathLib}.

Variable table : list WaypointRow.t.

Lemma route_details_of_route (route : RouteRow.t) (r : Route.t) :
  route_details_of table route = inr (Some r) ->
  let usable := usable_waypoints table route in
  (2 <= List.length usable)%nat
  /\ Route.waypoints r
     = (if Nat.ltb (List.length usable) 4 then enrich usable else usable)
  /\ Route.waypoint_count r = List.length (Route.waypoints r)
  /\ Route.route_id r = RouteRow.Route_ID route
  /\ Route.segments r
     = divide_into_segments (RouteRow.Route_ID route) (Route.waypoints r)
  /\ Route.total_distance_nm r
     = py_round match RouteRow.Distance_NM route with
                | Some d => d
                | None => py_sum (map segment_distance (Route.segments r))
                end 2.
Proof.
  unfold route_details_of. cbv zeta.
  destruct (collect_waypoints table _ 0 [] 0) as [e | [found total]] eqn:E;
    [discriminate |].
  apply collect_waypoints_found in E.
  change (found = usable_waypoints table route) in E. subst found.
  cbn [bindR].
  destruct (Nat.ltb (List.length (usable_waypoints table route)) 2) eqn:L;
    intro R; [discriminate |].
  injection R as <-. apply Nat.ltb_ge in L.
  cbn [Route.waypoints Route.waypoint_count Route.route_id Route.segments
       Route.total_distance_nm].
  repeat split; try reflexivity. exact L.
Qed.

Lemma route_details_loop_details (rows : list RouteRow.t) :
  forall routes,
    route_details_loop table rows = inr routes ->
    Forall2 (fun row r => route_details_of table row = inr (Some r))
            (filter (admitted table) rows) routes.
Proof.
  induction rows as [| row rows IH]; intros routes E; simpl in E.
  - injection E as <-. constructor.
  - destruct (route_details_of table row) as [e | detail] eqn:D; [discriminate |].
    cbn [bindR] in E.
    destruct (route_details_loop table rows) as [e | others]; [discriminate |].
    cbn [bindR] in E. injection E as <-.
    specialize (IH others eq_refl).
    pose proof (route_details_of_detail _ _ _ D) as A. cbn [filter].
    destruct detail as [r |]; simpl in A.
    + destruct A as (A & _). rewrite A. constructor; assumption.
    + rewrite A. exact IH.
Qed.

Lemma route_waypoints_filled (route : RouteRow.t) (r : Route.t) :
  route_details_of table route = inr (Some r) ->
  waypoints_filled (usable_waypoints table route) r.
Proof.
  intro D. apply route_details_of_route in D. cbv zeta in D.
  destruct D as (L & W & C & _). unfold waypoints_filled.
  set (usable := usable_waypoints table route) in *.
  rewrite C, W.
  destruct (Nat.ltb (List.length usable) 4) eqn:Few.
  - apply Nat.ltb_lt in Few.
    destruct (enrich_filled usable ltac:(lia)) as (Len & Hd & La).
    rewrite Len.
    destruct (List.length usable) as [| [| [| [| n]]]] eqn:N; try lia;
      repeat split; try assumption; try lia; try reflexivity.
  - apply Nat.ltb_ge in Few.
    destruct (List.length usable) as [| [| [| [| n]]]] eqn:N; try lia.
    repeat split; try reflexivity. lia.
Qed.

End Rows.

(** X19. Every route that [find_routes_between_ports] returns has at least
    4 waypoints, and waypoint_count counts them: a row with 2 usable
    waypoints is filled up to 4 and one with 3 to 5, a row with 4 or more
    keeps its waypoints as they are.  The first and the last waypoint of a
    route are the first and the last usable waypoint of its row. *)
Theorem routes_filled_to_four_waypoints :
  forall (math : MathLib) (data : RouteData.t)
         (origin_port destination_port : string) (routes : list Route.t),
    find_routes_between_ports (Some data) origin_port destination_port = inr routes ->
    Forall2 (fun row r =>
               waypoints_filled (usable_waypoints (RouteData.waypoints data) row) r)
            (filter (admitted (RouteData.waypoints data))
                    (matching_routes (RouteData.routes data) origin_port destination_port))
            routes.
Proof.
  intros math data o d routes E. unfold find_routes_between_ports in E.
  apply route_details_loop_details in E.
  induction E as [| row r rows routes D _ IH]; constructor; [| exact IH].
  apply route_waypoints_filled. exact D.
Qed.

Lemma routes_filled_to_four_waypoints_witness :
  Forall2 (fun row r =>
             waypoints_filled (usable_waypoints (RouteData.waypoints sample_data) row) r)
          (filter (admitted (RouteData.waypoints sample_data))
                  (matching_routes (RouteData.routes sample_data)
                     "New York" "Cape Town"))
          cape_town_routes.
Proof.
  apply (routes_filled_to_four_waypoints series_math sample_data
           "New York" "Cape Town" cape_town_routes).
  vm_compute. reflexivity.
Defined.

Lemma slice_nonempty {A} (l : list A) (i step : nat) :
  (i < List.length l)%nat -> (0 < step)%nat -> slice l i (i + step) <> [].
Proof.
  intros I P. rewrite slice_step. intro E.
  apply (f_equal (@List.length A)) in E.
  rewrite length_firstn, length_skipn in E. simpl in E. lia.
Qed.

Lemma range_starts_inside (stop step : nat) :
  (0 < step)%nat -> Forall (fun i => (i < stop)%nat) (py_range_step stop step).
Proof.
  intro P. unfold py_range_step. apply Forall_forall. intros i I.
  apply in_map_iff in I. destruct I as (k & <- & K). apply in_seq in K.
  pose proof (Nat.Div0.mul_div_le (stop + step - 1) step) as D.
  nia.
Qed.

Lemma map_fst_combine {A B} (l1 : list A) (l2 : list B) :
  List.length l1 = List.length l2 -> map fst (combine l1 l2) = l1.
Proof.
  revert l2. induction l1 as [| x l1 IH]; intros [| y l2] E; try discriminate.
  - reflexivity.
  - simpl. rewrite IH; [reflexivity | simpl in E; lia].
Qed.

Section Numbering.

Context `{MathLib}.

Variable Route_ID : string.
Variable route_waypoints : list Waypoint.t.
Variable points_per_segment : nat.
Hypothesis positive_step : (0 < points_per_segment)%nat.

Lemma build_segments_numbered (starts : list nat) :
  Forall (fun i => (i < List.length route_waypoints)%nat) starts ->
  forall segments,
    build_segments Route_ID route_waypoints points_per_segment starts segments
    = segments
      ++ map (fun p => segment_of Route_ID (fst p)
                         (slice route_waypoints (snd p) (snd p + points_per_segment)))
             (combine (seq (List.length segments + 1) (List.length starts)) starts).
Proof.
  induction 1 as [| i starts I _ IH]; intro segments; cbn [build_segments].
  - cbn. rewrite app_nil_r. reflexivity.
  - pose proof (slice_nonempty route_waypoints i points_per_segment I positive_step) as N.
    destruct (slice route_waypoints i (i + points_per_segment)) as [| w ws] eqn:Sl;
      [congruence |].
    rewrite IH, <- app_assoc, length_app. cbn [List.length seq combine map app fst snd].
    rewrite Sl. unfold segment_of at 2.
    replace (List.length segments + 1 + 1)%nat
      with (S (List.length segments + 1))%nat by lia.
    reflexivity.
Qed.

End Numbering.

Lemma segment_count_range (n : nat) :
  (4 <= n)%nat ->
  (4 <= (n + Nat.max 1 (n / 4) - 1) / Nat.max 1 (n / 4) <= 7)%nat.
Proof.
  intro L.
  pose proof (Nat.div_mod n 4 ltac:(lia)) as D.
  pose proof (Nat.mod_upper_bound n 4 ltac:(lia)) as U.
  assert (Q : (1 <= n / 4)%nat) by (apply Nat.div_le_lower_bound; lia).
  replace (Nat.max 1 (n / 4)) with (n / 4)%nat by lia.
  set (q := (n / 4)%nat) in *. split.
  - apply Nat.div_le_lower_bound; lia.
  - apply Nat.lt_succ_r. apply Nat.Div0.div_lt_upper_bound. lia.
Qed.

Lemma divide_into_segments_numbered `{MathLib} (r : Route.t) :
  Route.waypoint_count r = List.length (Route.waypoints r) ->
  (4 <= Route.waypoint_count r)%nat ->
  Route.segments r = divide_into_segments (Route.route_id r) (Route.waypoints r) ->
  segments_numbered r.
Proof.
  intros C L E. unfold segments_numbered. cbv zeta. rewrite E, C.
  unfold divide_into_segments. rewrite C in L.
  set (wps := Route.waypoints r) in *.
  set (pps := Nat.max 1 (List.length wps / 4)).
  assert (P : (0 < pps)%nat) by (unfold pps; lia).
  rewrite (build_segments_numbered _ wps pps P _ (range_starts_inside _ _ P) []).
  cbn [app List.length Nat.add].
  set (starts := py_range_step (List.length wps) pps).
  assert (Len : List.length starts = ((List.length wps + pps - 1) / pps)%nat).
  { unfold starts, py_range_step. rewrite length_map, length_seq. reflexivity. }
  assert (Comb : List.length (combine (seq 1 (List.length starts)) starts)
                 = List.length starts).
  { rewrite length_combine, length_seq. lia. }
  rewrite length_map, Comb, Len.
  split; [reflexivity |]. split; [apply segment_count_range; exact L |]. split.
  - rewrite map_map. cbn [segment_of Segment.segment_id].
    rewrite <- (map_map fst (fun k => (Route.route_id r ++ "_seg_"
                                        ++ decimal (Z.of_nat k))%string)).
    rewrite map_fst_combine by (rewrite length_seq; symmetry; exact Len).
    reflexivity.
  - apply Forall_forall. intros s I. apply in_map_iff in I.
    destruct I as ([k i] & <- & I). apply in_combine_r in I.
    cbn [segment_of Segment.coordinates Segment.waypoints fst snd].
    split; [reflexivity |].
    pose proof (range_starts_inside (List.length wps) pps P) as Inside.
    rewrite Forall_forall in Inside. specialize (Inside i I).
    pose proof (slice_nonempty wps i pps Inside P) as N.
    destruct (slice wps i (i + pps)); [congruence | discriminate].
Qed.

(** X20. Every route that [find_routes_between_ports] returns has between
    4 and 7 segments, not always 4: the number is the waypoint count over
    max(1, count // 4), rounded up.  The segments are numbered
    "<route id>_seg_1", "_seg_2", ... in their order, and each carries the
    coordinates of its own waypoints, at least one. *)
Theorem routes_have_four_to_seven_segments :
  forall (math : MathLib) (data : RouteData.t)
         (origin_port destination_port : string) (routes : list Route.t),
    find_routes_between_ports (Some data) origin_port destination_port = inr routes ->
    Forall segments_numbered routes.
Proof.
  intros math data o d routes E. unfold find_routes_between_ports in E.
  apply route_details_loop_details in E.
  induction E as [| row r rows routes D _ IH]; constructor; [| exact IH].
  pose proof (route_waypoints_filled _ _ _ D) as (C & L & _).
  apply route_details_of_route in D. cbv zeta in D.
  destruct D as (_ & _ & _ & Id & Seg & _).
  apply divide_into_segments_numbered; try assumption.
  rewrite Id. exact Seg.
Qed.

Lemma routes_have_four_to_seven_segments_witness :
  Forall segments_numbered cape_town_routes.
Proof.
  apply (routes_have_four_to_seven_segments series_math sample_data
           "New York" "Cape Town" cape_town_routes).
  vm_compute. reflexivity.
Defined.

Lemma between_endpoints (a b fraction : Q) :
  0 <= fraction <= 1 ->
  Qmin a b <= a + fraction * (b - a) /\ a + fraction * (b - a) <= Qmax a b.
Proof.
  intros [L U]. destruct (Qlt_le_dec a b) as [C | C].
  - rewrite (Q.min_l a b), (Q.max_r a b) by lra. split; nra.
  - rewrite (Q.min_r a b), (Q.max_l a b) by lra. split; nra.
Qed.

(** X21. The points that the enrichment puts between two waypoints are as
    many as asked for; each has the type "Intermediate", no port name and
    the id "<start id>_int_<j>", and lies between the two waypoints in
    latitude and in longitude: the interpolation is linear in the two
    angles and never leaves their box. *)
Theorem interpolated_points_between :
  forall (start end_ : Waypoint.t) (num_points : nat),
    List.length (interpolated start end_ num_points) = num_points
    /\ map Waypoint.waypoint_id (interpolated start end_ num_points)
       = map (fun j => (Waypoint.waypoint_id start ++ "_int_"
                        ++ decimal (Z.of_nat j))%string)
             (seq 1 num_points)
    /\ Forall (fun p =>
                 Waypoint.type p = "Intermediate"%string
                 /\ Waypoint.port_name p = None
                 /\ within_box start end_ p)
              (interpolated start end_ num_points).
Proof.
  intros start end_ k. split; [apply interpolated_length |].
  unfold interpolated. split; [rewrite map_map; reflexivity |].
  apply Forall_forall. intros p I. apply in_map_iff in I.
  destruct I as (j & <- & J). apply in_seq in J.
  cbn [Waypoint.type Waypoint.port_name]. split; [reflexivity |]. split; [reflexivity |].
  assert (F : 0 <= inject_Z (Z.of_nat j) / inject_Z (Z.of_nat (k + 1)) <= 1).
  { assert (P : 0 < inject_Z (Z.of_nat (k + 1))).
    { change 0 with (inject_Z 0). rewrite <- Zlt_Qlt. lia. }
    split.
    - apply Qle_shift_div_l; [exact P |]. rewrite Qmult_0_l.
      change 0 with (inject_Z 0). rewrite <- Zle_Qle. lia.
    - apply Qle_shift_div_r; [exact P |]. rewrite Qmult_1_l.
      rewrite <- Zle_Qle. lia. }
  unfold within_box. cbn [Waypoint.latitude Waypoint.longitude].
  destruct (between_endpoints (Waypoint.latitude start) (Waypoint.latitude end_) _ F).
  destruct (between_endpoints (Waypoint.longitude start) (Waypoint.longitude end_) _ F).
  repeat split; assumption.
Qed.

(** ** Candidate routes in a request *)

Lemma py_sum_zeros (l : list Q) : Forall (fun x => x == 0) l -> py_sum l == 0.
Proof.
  induction 1 as [| x l X _ IH]; [reflexivity |].
  rewrite py_sum_cons, X, IH. reflexivity.
Qed.

Lemma route_unmeasured_is_zero `{MathLib} (table : list WaypointRow.t)
    (row : RouteRow.t) (r : Route.t) :
  route_details_of table row = inr (Some r) -> unmeasured_is_zero row r.
Proof.
  intros D None_ Short.
  apply route_details_of_route in D. cbv zeta in D.
  destruct D as (_ & _ & C & Id & Seg & Total).
  rewrite Total, None_.
  assert (S : segmented r).
  { apply divide_into_segments_segmented. rewrite Id. exact Seg. }
  destruct S as (_ & _ & Zero). rewrite C in Short. specialize (Zero Short).
  assert (Z : py_sum (map segment_distance (Route.segments r)) == 0).
  { apply py_sum_zeros. apply Forall_forall. intros x I.
    apply in_map_iff in I. destruct I as (s & <- & I).
    rewrite Forall_forall in Zero. destruct (Zero s I) as [_ Dz].
    unfold segment_distance. rewrite Dz. reflexivity. }
  rewrite Z. reflexivity.
Qed.

(** X22. When a table row gives no distance, the route's total distance is
    the sum of the distances inside its segments, which leaves out the legs
    from one segment to the next: for a route of fewer than 8 waypoints
    every segment is a single point, so the total distance of the route is
    0, however far apart its waypoints are. *)
Theorem unmeasured_short_routes_have_distance_zero :
  forall (math : MathLib) (data : RouteData.t)
         (origin_port destination_port : string) (routes : list Route.t),
    find_routes_between_ports (Some data) origin_port destination_port = inr routes ->
    Forall2 unmeasured_is_zero
            (filter (admitted (RouteData.waypoints data))
                    (matching_routes (RouteData.routes data) origin_port destination_port))
            routes.
Proof.
  intros math data o d routes E. unfold find_routes_between_ports in E.
  apply route_details_loop_details in E.
  induction E as [| row r rows routes D _ IH]; constructor; [| exact IH].
  eapply route_unmeasured_is_zero. exact D.
Qed.

Lemma unmeasured_short_routes_have_distance_zero_witness :
  Forall2 unmeasured_is_zero
          (filter (admitted (RouteData.waypoints unmeasured_data))
                  (matching_routes (RouteData.routes unmeasured_data)
                     "New York" "London"))
          unmeasured_routes.
Proof.
  apply (unmeasured_short_routes_have_distance_zero series_math unmeasured_data
           "New York" "London" unmeasured_routes).
  vm_compute. reflexivity.
Defined.

(** The route from New York to London without a distance figure is
    admitted with 4 waypoints, more than 3000 nautical miles apart, and the
    total distance 0. *)
Example unmeasured_route_has_distance_zero :
  map (fun r => (Route.waypoint_count r, Qred (Route.total_distance_nm r)))
      unmeasured_routes = [(4%nat, 0)].
Proof. vm_compute. reflexivity. Qed.

(** X23. Every segment of a route that [find_routes_between_ports] returns
    has coordinates, so no simulator raises on it: the analysis of such a
    route returns whenever the vessel speed and the route's total distance
    are not 0, with the route's id and distance and its 4 to 7 segments. *)
Theorem candidate_route_analysis_returns :
  forall (math : MathLib) (data : RouteData.t)
         (origin_port destination_port : string) (routes : list Route.t)
         (route : Route.t) (departure_date : date) (vessel_speed : Q) (g : Rng),
    find_routes_between_ports (Some data) origin_port destination_port = inr routes ->
    In route routes ->
    ~ vessel_speed == 0 ->
    ~ Route.total_distance_nm route == 0 ->
    exists a g',
      _analyze_single_route route departure_date vessel_speed g = inr (a, g')
      /\ Analysis.route_id a = Route.route_id route
      /\ Analysis.distance_nm a = Route.total_distance_nm route
      /\ Analysis.segments a = List.length (Route.segments route)
      /\ (4 <= Analysis.segments a <= 7)%nat.
Proof.
  intros math data o d routes route dep v g E I V D.
  unfold find_routes_between_ports in E.
  apply route_details_loop_details in E.
  assert (S : segments_numbered route).
  { clear - E I. induction E as [| row r rows routes Dr _ IH]; [destruct I |].
    destruct I as [<- | I]; [| exact (IH I)].
    pose proof (route_waypoints_filled _ _ _ Dr) as (C & L & _).
    apply route_details_of_route in Dr. cbv zeta in Dr.
    destruct Dr as (_ & _ & _ & Id & Seg & _).
    apply divide_into_segments_numbered; try assumption.
    rewrite Id. exact Seg. }
  destruct S as (_ & Count & _ & Coordinates).
  assert (N : forall s, In s (Route.segments route) -> Segment.coordinates s <> []).
  { intros s Is. rewrite Forall_forall in Coordinates. apply (Coordinates s Is). }
  destruct (analyze_single_route_returns route dep v N V D g) as (a & g' & Ea & A).
  exists a, g'. split; [exact Ea |].
  destruct A as (Id & Dist & _).
  assert (Sg : Analysis.segments a = List.length (Route.segments route)).
  { unfold _analyze_single_route in Ea. cbv zeta in Ea. run_inv Ea.
    destruct Ea as [<- _]. reflexivity. }
  split; [exact Id |]. split; [exact Dist |]. split; [exact Sg |].
  rewrite Sg. exact Count.
Qed.

Lemma candidate_route_analysis_returns_witness :
  exists a g',
    _analyze_single_route (nth 0 cape_town_routes lane_route) 100%Z 22 rough_tape
    = inr (a, g')
    /\ Analysis.route_id a = Route.route_id (nth 0 cape_town_routes lane_route)
    /\ Analysis.distance_nm a
       = Route.total_distance_nm (nth 0 cape_town_routes lane_route)
    /\ Analysis.segments a
       = List.length (Route.segments (nth 0 cape_town_routes lane_route))
    /\ (4 <= Analysis.segments a <= 7)%nat.
Proof.
  apply (candidate_route_analysis_returns series_math sample_data
           "New York" "Cape Town" cape_town_routes
           (nth 0 cape_town_routes lane_route) 100%Z 22 rough_tape).
  - vm_compute. reflexivity.
  - vm_compute. left. reflexivity.
  - discriminate.
  - vm_compute. discriminate.
Defined.

(** ** The analysis of a route, the scorer and the recommendation *)

Lemma weather_walk_length (departure : datetime) (vessel_speed_knots : Q)
    (route_segments : list Segment.t) :
  forall covered,
    ensures (extended_forecast_loop departure vessel_speed_knots covered route_segments)
            (fun forecast => List.length forecast = List.length route_segments).
Proof.
  induction route_segments as [| s segs IH]; intros covered g forecast g' E.
  - apply ret_inr in E. destruct E as [<- _]. reflexivity.
  - simpl in E. cbv zeta in E. run_inv E. destruct E as [<- _].
    match goal with
    | H : extended_forecast_loop _ _ _ _ _ = inr _ |- _ => apply IH in H
    end.
    cbn [List.length]. congruence.
Qed.

Lemma traffic_walk_ids (departure : datetime) (vessel_speed_knots : Q)
    (route_segments : list Segment.t) :
  forall elapsed,
    ensures (traffic_forecast_loop departure vessel_speed_knots elapsed route_segments)
            (fun forecast =>
               map Traffic.segment_id forecast
               = map Segment.segment_id route_segments).
Proof.
  induction route_segments as [| s segs IH]; intros elapsed g forecast g' E.
  - apply ret_inr in E. destruct E as [<- _]. reflexivity.
  - simpl in E. cbv zeta in E. run_inv E. destruct E as [<- _].
    match goal with
    | H : traffic_forecast_loop _ _ _ _ _ = inr _ |- _ => apply IH in H; rename H into Ids
    end.
    match goal with
    | H : analyze_maritime_traffic _ _ _ _ _ = inr _ |- _ =>
        apply analyze_maritime_traffic_ensures in H; destruct H as (_ & Id & _)
    end.
    cbn [map Traffic.arrive Traffic.segment_id]. rewrite Id, Ids. reflexivity.
Qed.

Lemma filter_length_le {A} (f : A -> bool) (l : list A) :
  (List.length (filter f l) <= List.length l)%nat.
Proof.
  induction l as [| x l IH]; [apply Nat.le_refl |].
  cbn [filter]. destruct (f x); cbn [List.length]; lia.
Qed.

Lemma filter_length_weaker {A} (f h : A -> bool) (l : list A) :
  (forall x, f x = true -> h x = true) ->
  (List.length (filter f l) <= List.length (filter h l))%nat.
Proof.
  intro W. induction l as [| x l IH]; [apply Nat.le_refl |].
  cbn [filter]. destruct (f x) eqn:F.
  - rewrite (W x F). cbn [List.length]. lia.
  - destruct (h x); cbn [List.length]; lia.
Qed.

Lemma overall_level_not_critical (n : nat) : overall_level n <> Critical.
Proof.
  unfold overall_level. destruct (Nat.ltb 2 n); [discriminate |].
  destruct (Nat.ltb 0 n); discriminate.
Qed.

Lemma analysis_consistent (route : Route.t) (departure_date : date)
    (vessel_speed : Q) :
  ensures (_analyze_single_route route departure_date vessel_speed)
          (consistent_analysis route).
Proof.
  intros g a g' E. unfold _analyze_single_route in E. cbv zeta in E.
  run_inv E. destruct E as [<- _].
  match goal with
  | H : get_extended_forecast _ _ _ _ = inr _ |- _ =>
      apply weather_walk_length in H; rename H into Wl
  end.
  match goal with
  | H : get_traffic_forecast _ _ _ _ = inr _ |- _ =>
      apply traffic_walk_ids in H; rename H into Ti
  end.
  match goal with
  | H : analyze_route_news _ _ _ _ = inr _ |- _ =>
      unfold analyze_route_news in H; run_inv H; destruct H as [<- _]
  end.
  match goal with
  | H : route_news_loop _ _ _ _ _ = inr _ |- _ =>
      apply route_news_loop_count in H; rename H into Nc
  end.
  assert (Tl : forall l : list Traffic.t,
             map Traffic.segment_id l = map Segment.segment_id (Route.segments route) ->
             List.length l = List.length (Route.segments route)).
  { intros l Q. apply (f_equal (@List.length string)) in Q.
    rewrite !length_map in Q. exact Q. }
  unfold consistent_analysis.
  cbn [Analysis.segments Analysis.weather_analysis Analysis.traffic_analysis
       Analysis.news_analysis WeatherAnalysis.forecast_summary
       WeatherAnalysis.risk_segments WeatherAnalysis.overall_risk
       TrafficAnalysis.traffic_summary TrafficAnalysis.congested_segments
       TrafficAnalysis.overall_congestion TrafficAnalysis.peak_traffic_areas
       NewsAnalysis.total_events].
  split; [reflexivity |]. split; [exact Wl |]. split; [apply Tl; exact Ti |].
  split; [rewrite <- Wl; apply filter_length_le |].
  split; [rewrite <- (Tl _ Ti); apply filter_length_le |].
  split; [apply overall_level_not_critical |].
  split; [apply overall_level_not_critical |].
  split.
  { rewrite length_map. apply filter_length_weaker.
    intros t Q. destruct (TrafficSummary.congestion_level _); (reflexivity || discriminate). }
  split; [| exact Nc].
  rewrite <- Ti. intros id I. apply in_map_iff in I.
  destruct I as (t & <- & I). apply filter_In in I. apply in_map. apply I.
Qed.

(** X24. The analysis of a route reports as many weather and traffic
    forecasts as the route has segments; the numbers of flagged and of
    congested segments do not exceed that number, the two overall labels
    are never "Critical", the peak traffic areas are segment ids of the
    route, no more than the congested segments, and the events number 2 to
    5 per segment. *)
Theorem route_analysis_consistent :
  forall (route : Route.t) (departure_date : date) (vessel_speed : Q) (g : Rng),
    (forall s, In s (Route.segments route) -> Segment.coordinates s <> []) ->
    ~ vessel_speed == 0 ->
    ~ Route.total_distance_nm route == 0 ->
    exists a g',
      _analyze_single_route route departure_date vessel_speed g = inr (a, g')
      /\ consistent_analysis route a.
Proof.
  intros route dep v g N V D.
  destruct (analyze_single_route_returns route dep v N V D g) as (a & g' & E & _).
  exists a, g'. split; [exact E |].
  exact (analysis_consistent route dep v g a g' E).
Qed.

Lemma route_analysis_consistent_witness :
  exists a g',
    _analyze_single_route lane_route 100%Z 20 rough_tape = inr (a, g')
    /\ consistent_analysis lane_route a.
Proof.
  apply (route_analysis_consistent lane_route 100%Z 20 rough_tape).
  - intros s [<- | [<- | []]]; discriminate.
  - discriminate.
  - discriminate.
Defined.

(** *** The recommendation *)

Lemma descending_head (best : Analysis.t) (rest : list Analysis.t) :
  Ranking.descending (best :: rest) ->
  forall a, In a (best :: rest) -> score_key a <= score_key best.
Proof.
  intros S a I. inversion S as [| ? ? _ F]; subst.
  destruct I as [<- | I]; [apply Qle_refl |].
  rewrite Forall_forall in F. exact (F a I).
Qed.

Lemma recommendations_of_ranking (best : Analysis.t) (rest : list Analysis.t) :
  Ranking.descending (best :: rest) ->
  exists recs,
    _generate_recommendations (best :: rest) = Some recs
    /\ recommends best rest recs.
Proof.
  intro S. pose proof (descending_head best rest S) as H.
  eexists. split; [reflexivity |].
  unfold recommends. cbv zeta.
  cbn [Recommendations.best_route Recommendations.alternative_routes
       BestRoute.route_id BestRoute.score].
  split; [reflexivity |]. split; [reflexivity |]. split; [exact H |].
  assert (Diff : forall a, In a rest -> score_key a - score_key best <= 0).
  { intros a I. specialize (H a (or_intror I)). lra. }
  unfold slice. cbn [Nat.sub skipn].
  destruct rest as [| a [| b rest]]; cbn.
  - repeat split; constructor.
  - repeat split. constructor; [| constructor].
    apply Diff. left; reflexivity.
  - repeat split. constructor; [| constructor; [| constructor]]; apply Diff.
    + left; reflexivity.
    + right; left; reflexivity.
Qed.

Lemma score_routes_ranking (route_analyses ranking : list Analysis.t) :
  _score_routes route_analyses = inr ranking ->
  Ranking.descending ranking /\ List.length ranking = List.length route_analyses.
Proof.
  unfold _score_routes.
  destruct (score_loop route_analyses route_analyses) as [e | scored] eqn:E;
    [discriminate |].
  cbn [bindR]. intro R. injection R as <-.
  split; [apply sort_by_score_descending |].
  rewrite <- (Permutation_length (sort_by_score_perm scored)).
  apply score_loop_ids in E. apply (f_equal (@List.length string)) in E.
  rewrite !length_map in E. exact E.
Qed.

(** X25. For a ranking that the scorer returned for at least one
    candidate, the recommendation names the head of the ranking as the best
    route, with a score that no route of the ranking exceeds; its
    alternatives are the next two routes of the ranking (or the one, or
    none), ranked 2 and 3, each with a score difference to the best of 0 or
    less. *)
Theorem recommendation_follows_ranking :
  forall route_analyses ranking : list Analysis.t,
    route_analyses <> [] ->
    _score_routes route_analyses = inr ranking ->
    exists best rest recs,
      ranking = best :: rest
      /\ _generate_recommendations ranking = Some recs
      /\ recommends best rest recs.
Proof.
  intros ras ranking N E.
  destruct (score_routes_ranking ras ranking E) as [S L].
  destruct ranking as [| best rest].
  - destruct ras; [congruence | discriminate].
  - destruct (recommendations_of_ranking best rest S) as (recs & R & P).
    exists best, rest, recs. split; [reflexivity | split; [exact R | exact P]].
Qed.

Lemma recommendation_follows_ranking_witness :
  exists best rest recs,
    plain_ranking = best :: rest
    /\ _generate_recommendations plain_ranking = Some recs
    /\ recommends best rest recs.
Proof.
  apply (recommendation_follows_ranking plain_candidates plain_ranking).
  - discriminate.
  - vm_compute. reflexivity.
Defined.

(** *** The scorer and its two baselines *)

Lemma least_unique (m m' : Q) (l : list Q) :
  Spec.least m l -> Spec.least m' l -> m == m'.
Proof.
  intros [I L] [I' L']. apply Qle_antisym; [apply L; exact I' | apply L'; exact I].
Qed.

Lemma Qeq_bool_compat (a b : Q) : a == b -> Qeq_bool a 0 = Qeq_bool b 0.
Proof.
  intro E. destruct (Qeq_bool a 0) eqn:A, (Qeq_bool b 0) eqn:B; try reflexivity.
  - apply Qeq_bool_iff in A. apply Qeq_bool_false in B. rewrite <- E in B. contradiction.
  - apply Qeq_bool_iff in B. apply Qeq_bool_false in A. rewrite E in A. contradiction.
Qed.

Lemma score_analysis_division (route_analyses : list Analysis.t) (a : Analysis.t)
    (m_distance m_time : Q) :
  min_of Analysis.distance_nm route_analyses = inr m_distance ->
  min_of Analysis.total_time_hours route_analyses = inr m_time ->
  if Qeq_bool m_distance 0 || Qeq_bool m_time 0
  then score_analysis route_analyses a = inl ZeroDivisionError
  else exists b, score_analysis route_analyses a = inr b.
Proof.
  intros Ed Et. unfold score_analysis. cbv zeta. rewrite Ed, Et.
  cbn [bindR]. unfold py_div.
  destruct (Qeq_bool m_distance 0); cbn [bindR raise ok orb]; [reflexivity |].
  destruct (Qeq_bool m_time 0); cbn [bindR raise ok]; [reflexivity |].
  eexists. reflexivity.
Qed.

Lemma score_loop_division (route_analyses : list Analysis.t) (m_distance m_time : Q) :
  min_of Analysis.distance_nm route_analyses = inr m_distance ->
  min_of Analysis.total_time_hours route_analyses = inr m_time ->
  forall todo,
    if Qeq_bool m_distance 0 || Qeq_bool m_time 0
    then todo <> [] -> score_loop route_analyses todo = inl ZeroDivisionError
    else exists scored, score_loop route_analyses todo = inr scored.
Proof.
  intros Ed Et todo.
  pose proof (fun a => score_analysis_division route_analyses a _ _ Ed Et) as A.
  destruct (Qeq_bool m_distance 0 || Qeq_bool m_time 0)%bool.
  - destruct todo as [| a todo]; [congruence | intros _].
    cbn [score_loop]. rewrite A. reflexivity.
  - induction todo as [| a todo IH]; cbn [score_loop]; [eexists; reflexivity |].
    destruct (A a) as (b & ->). destruct IH as (scored & ->).
    cbn [bindR]. eexists. reflexivity.
Qed.

(** X26. On a candidate list of Python numbers with the least distance
    [min_distance] and the least time [min_time], the scorer raises
    ZeroDivisionError exactly when one of the two is 0: it divides by both
    without a test.  Otherwise it returns a ranking of all the candidates.
    The empty list is returned as it is. *)
Theorem scorer_raises_exactly_on_zero_baseline :
  forall (route_analyses : list Analysis.t) (min_distance min_time : Q),
    Spec.least min_distance (map Analysis.distance_nm route_analyses) ->
    Spec.least min_time (map Analysis.total_time_hours route_analyses) ->
    _score_routes [] = inr []
    /\ (min_distance == 0 \/ min_time == 0 ->
        _score_routes route_analyses = inl ZeroDivisionError)
    /\ (~ min_distance == 0 -> ~ min_time == 0 ->
        exists ranking,
          _score_routes route_analyses = inr ranking
          /\ List.length ranking = List.length route_analyses).
Proof.
  intros ras md mt Ld Lt. split; [reflexivity |].
  assert (N : ras <> []).
  { destruct Ld as [I _]. destruct ras; [destruct I | discriminate]. }
  destruct (min_of_least Analysis.distance_nm ras N) as (md' & Ed & Ld').
  destruct (min_of_least Analysis.total_time_hours ras N) as (mt' & Et & Lt').
  pose proof (Qeq_bool_compat _ _ (least_unique _ _ _ Ld' Ld)) as Qd.
  pose proof (Qeq_bool_compat _ _ (least_unique _ _ _ Lt' Lt)) as Qt.
  pose proof (score_loop_division ras md' mt' Ed Et ras) as D.
  rewrite Qd, Qt in D. unfold _score_routes. split.
  - intros [Z | Z]; apply Qeq_bool_iff in Z; rewrite Z in D;
      [| rewrite orb_true_r in D]; rewrite (D N); reflexivity.
  - intros Zd Zt. apply Qeq_bool_false in Zd. apply Qeq_bool_false in Zt.
    rewrite Zd, Zt in D. destruct D as (scored & E).
    exists (sort_by_score scored). split; [rewrite E; reflexivity |].
    rewrite <- (Permutation_length (sort_by_score_perm scored)).
    apply score_loop_ids in E. apply (f_equal (@List.length string)) in E.
    rewrite !length_map in E. exact E.
Qed.

Lemma scorer_raises_exactly_on_zero_baseline_witness :
  _score_routes [] = inr []
  /\ (1 == 0 \/ 0 == 0 -> _score_routes instant_candidates = inl ZeroDivisionError)
  /\ (~ 1 == 0 -> ~ 0 == 0 ->
      exists ranking,
        _score_routes instant_candidates = inr ranking
        /\ List.length ranking = List.length instant_candidates).
Proof.
  apply (scorer_raises_exactly_on_zero_baseline instant_candidates 1 0).
  - split; [right; left; reflexivity |].
    intros x [<- | [<- | []]]; discriminate.
  - split; [right; left; reflexivity |].
    intros x [<- | [<- | []]]; discriminate.
Defined.

(** *** Requests that succeed *)

Lemma candidate_segments_have_coordinates `{MathLib} (data : RouteData.t)
    (origin_port destination_port : string) (routes : list Route.t) :
  find_routes_between_ports (Some data) origin_port destination_port = inr routes ->
  forall r, In r routes ->
  forall s, In s (Route.segments r) -> Segment.coordinates s <> [].
Proof.
  intros E r I. unfold find_routes_between_ports in E.
  apply route_details_loop_details in E.
  induction E as [| row r0 rows routes D _ IH]; [destruct I |].
  destruct I as [<- | I]; [| exact (IH I)].
  pose proof (route_waypoints_filled _ _ _ D) as (C & L & _).
  apply route_details_of_route in D. cbv zeta in D.
  destruct D as (_ & _ & _ & Id & Seg & _).
  assert (S : segments_numbered r0).
  { apply divide_into_segments_numbered; try assumption. rewrite Id. exact Seg. }
  destruct S as (_ & _ & _ & Coordinates).
  intros s Is. rewrite Forall_forall in Coordinates. apply (Coordinates s Is).
Qed.

Lemma route_time_at_least_base (distance vessel_speed_knots : Q)
    (flagged congested : nat) :
  0 < vessel_speed_knots -> vessel_speed_knots <= distance ->
  1 <= route_time_as_analyzed distance vessel_speed_knots flagged congested.
Proof.
  intros V D. unfold route_time_as_analyzed. cbv zeta.
  assert (B : 1 <= distance / vessel_speed_knots).
  { apply Qle_shift_div_l; [exact V | lra]. }
  set (b := distance / vessel_speed_knots) in *.
  assert (W : 0 <= b * (15 / 100)).
  { apply Qmult_le_0_compat; [lra | discriminate]. }
  destruct (Nat.ltb 1 flagged), (Nat.ltb 1 congested); lra.
Qed.

Lemma analysis_positive (route : Route.t) (departure_date : date) (vessel_speed : Q) :
  (forall s, In s (Route.segments route) -> Segment.coordinates s <> []) ->
  0 < vessel_speed ->
  vessel_speed <= Route.total_distance_nm route ->
  returns (_analyze_single_route route departure_date vessel_speed)
          (fun a => 0 < Analysis.distance_nm a /\ 0 < Analysis.total_time_hours a).
Proof.
  intros N V D.
  eapply returns_weaken.
  - apply analyze_single_route_returns; [exact N | lra | lra].
  - intros a (_ & Dist & _ & _ & _ & _ & _ & T). split; [rewrite Dist; lra |].
    apply calculate_route_time_value in T. unfold Analysis.total_time_hours.
    rewrite T.
    apply Qlt_le_trans with (y := 1); [reflexivity |].
    apply (py_round_at_least _ _ 2); [reflexivity |].
    apply route_time_at_least_base; assumption.
Qed.

(** X27. A request succeeds when its carrier is found with a positive
    speed, the route search returns at least one route, and no route is
    shorter than one hour's sailing: the response then counts the routes,
    ranks every one of them, and recommends the head of the ranking. *)
Theorem request_succeeds :
  forall (math : MathLib) (data : RouteData.t)
         (origin_port destination_port : string) (departure_date : date)
         (carrier_id : string) (g : Rng) (carrier_info : CarrierInfo.t)
         (routes : list Route.t),
    get_carrier_info (Some data) carrier_id = Some carrier_info ->
    find_routes_between_ports (Some data) origin_port destination_port = inr routes ->
    routes <> [] ->
    0 < CarrierInfo.avg_speed_knots carrier_info ->
    Forall (fun r => CarrierInfo.avg_speed_knots carrier_info
                     <= Route.total_distance_nm r) routes ->
    exists summary ranking recs best rest,
      analyze_routes (Some data) origin_port destination_port departure_date
        carrier_id g = Success summary ranking (Some recs)
      /\ RouteSummary.carrier summary = carrier_info
      /\ RouteSummary.routes_analyzed summary = List.length routes
      /\ List.length ranking = List.length routes
      /\ ranking = best :: rest
      /\ recommends best rest recs.
Proof.
  intros math data o d dep id g carrier routes Ec Er N V D.
  unfold analyze_routes. rewrite Ec, Er. unfold analyze_found_routes.
  destruct routes as [| r0 routes0] eqn:R; [congruence |].
  rewrite <- R in *. clear N.
  set (v := CarrierInfo.avg_speed_knots carrier) in *.
  destruct (returns_mapM (fun route => _analyze_single_route route dep v) routes
              (fun a => 0 < Analysis.distance_nm a /\ 0 < Analysis.total_time_hours a))
    with (g := g) as (analyses & g' & Ea & La & Pa).
  { intros r I. apply analysis_positive.
    - apply (candidate_segments_have_coordinates data o d routes Er r I).
    - exact V.
    - rewrite Forall_forall in D. exact (D r I). }
  rewrite Ea.
  assert (Na : analyses <> []).
  { intro Z. rewrite Z, R in La. discriminate. }
  rewrite Forall_forall in Pa.
  destruct (score_loop_against_baselines analyses Na Pa)
    as (md & mt & scores & _ & _ & El & _).
  assert (Es : _score_routes analyses
               = inr (sort_by_score (Spec.scored analyses scores))).
  { unfold _score_routes. rewrite El. reflexivity. }
  rewrite Es.
  destruct (score_routes_ranking _ _ Es) as [S L].
  destruct (sort_by_score (Spec.scored analyses scores)) as [| best rest] eqn:Q.
  { destruct analyses; [congruence | discriminate]. }
  destruct (recommendations_of_ranking best rest S) as (recs & Rc & P).
  rewrite Rc.
  eexists; exists (best :: rest), recs, best, rest.
  split; [reflexivity |]. cbn [RouteSummary.carrier RouteSummary.routes_analyzed].
  split; [reflexivity |]. split; [reflexivity |].
  split; [congruence |]. split; [reflexivity | exact P].
Qed.

Lemma request_succeeds_witness :
  exists summary ranking recs best rest,
    analyze_routes (H := series_math) (Some sample_data) "New York" "Cape Town"
      100%Z "CR_0001" rough_tape = Success summary ranking (Some recs)
    /\ RouteSummary.carrier summary = ocean_express
    /\ RouteSummary.routes_analyzed summary = List.length cape_town_routes
    /\ List.length ranking = List.length cape_town_routes
    /\ ranking = best :: rest
    /\ recommends best rest recs.
Proof.
  apply (request_succeeds series_math sample_data "New York" "Cape Town" 100%Z
           "CR_0001" rough_tape ocean_express cape_town_routes).
  - reflexivity.
  - vm_compute. reflexivity.
  - vm_compute. discriminate.
  - reflexivity.
  - vm_compute. constructor; [discriminate | constructor].
Defined.

(** *** The analyses in the response *)

Lemma score_loop_scored (route_analyses todo : list Analysis.t) :
  forall scored,
    score_loop route_analyses todo = inr scored ->
    Forall (fun a => Analysis.route_score a <> None) scored.
Proof.
  induction todo as [| a todo IH]; intros scored E; cbn [score_loop] in E.
  - injection E as <-. constructor.
  - destruct (score_analysis route_analyses a) as [e | b] eqn:Ea; [discriminate |].
    cbn [bindR] in E.
    destruct (score_loop route_analyses todo) as [e | others]; [discriminate |].
    cbn [bindR] in E. injection E as <-.
    constructor; [| apply IH; reflexivity].
    unfold score_analysis in Ea. cbv zeta in Ea.
    destruct (min_of Analysis.distance_nm route_analyses); [discriminate |].
    cbn [bindR] in Ea. destruct (py_div _ _); [discriminate |].
    cbn [bindR] in Ea. destruct (min_of Analysis.total_time_hours route_analyses);
      [discriminate |].
    cbn [bindR] in Ea. destruct (py_div _ _); [discriminate |].
    cbn [bindR] in Ea. injection Ea as <-. discriminate.
Qed.

(** X28. The detailed analyses of a successful response are not the
    analyses in the order of the candidates: the scorer sorts the list it
    was given, so they are the ranking itself, in descending order of
    score, every entry with its score, one per route found; and the
    recommendation is the one made from that list. *)
Theorem response_lists_the_ranking :
  forall (math : MathLib) (data : option RouteData.t)
         (origin_port destination_port : string) (departure_date : date)
         (carrier_id : string) (g : Rng) (route_summary : RouteSummary.t)
         (detailed_analyses : list Analysis.t)
         (recommendations : option Recommendations.t),
    analyze_routes data origin_port destination_port departure_date carrier_id g
    = Success route_summary detailed_analyses recommendations ->
    Ranking.descending detailed_analyses
    /\ Forall (fun a => Analysis.route_score a <> None) detailed_analyses
    /\ List.length detailed_analyses = RouteSummary.routes_analyzed route_summary
    /\ recommendations = _generate_recommendations detailed_analyses
    /\ get_carrier_info data carrier_id = Some (RouteSummary.carrier route_summary).
Proof.
  intros math data o d dep id g summary ranking recs. unfold analyze_routes.
  destruct (get_carrier_info data id) as [carrier |]; [| discriminate].
  destruct (find_routes_between_ports data o d) as [e | routes]; [discriminate |].
  unfold analyze_found_routes.
  destruct routes as [| r0 routes0] eqn:R; [discriminate |].
  rewrite <- R. clear R.
  destruct (mapM _ routes g) as [e | [analyses g']] eqn:E; [discriminate |].
  destruct (_score_routes analyses) as [e | scored] eqn:S; [discriminate |].
  intro X. injection X as <- <- <-.
  destruct (score_routes_ranking _ _ S) as [D L].
  split; [exact D |]. split.
  - unfold _score_routes in S.
    destruct (score_loop analyses analyses) as [e | marked] eqn:M; [discriminate |].
    cbn [bindR] in S. injection S as <-.
    apply score_loop_scored in M. rewrite Forall_forall in *.
    intros a I. apply M.
    eapply Permutation_in; [apply Permutation_sym, sort_by_score_perm | exact I].
  - cbn [RouteSummary.routes_analyzed RouteSummary.carrier].
    split; [| split; reflexivity].
    rewrite L. apply mapM_inr in E. symmetry. eapply Forall2_length. exact E.
Qed.

Lemma response_lists_the_ranking_witness :
  Ranking.descending (detailed_analyses_of sample_response)
  /\ Forall (fun a => Analysis.route_score a <> None)
            (detailed_analyses_of sample_response)
  /\ List.length (detailed_analyses_of sample_response)
     = RouteSummary.routes_analyzed
         (match route_summary_of sample_response with
          | Some route_summary => route_summary
          | None => RouteSummary.mk "" "" 0%Z ocean_express 0
          end)
  /\ recommendations_of sample_response
     = _generate_recommendations (detailed_analyses_of sample_response)
  /\ get_carrier_info (Some sample_data) "CR_0001"
     = Some (RouteSummary.carrier
               (match route_summary_of sample_response with
                | Some route_summary => route_summary
                | None => RouteSummary.mk "" "" 0%Z ocean_express 0
                end)).
Proof.
  apply (response_lists_the_ranking series_math (Some sample_data)
           "New York" "Cape Town" 100%Z "CR_0001" rough_tape).
  vm_compute. reflexivity.
Defined.

(** ** The report texts of the recommendation *)

(** X29. For a route of three segments or more the action items always
    end with the two items on security and news: every segment draws at
    least 2 events, so the test for more than 5 events is always met.  The
    list opens with the three standing items and has 5, 7 or 9 entries. *)
Theorem action_items_always_review_security :
  forall (route : Route.t) (departure_date : date) (vessel_speed : Q) (g : Rng),
    (forall s, In s (Route.segments route) -> Segment.coordinates s <> []) ->
    ~ vessel_speed == 0 ->
    ~ Route.total_distance_nm route == 0 ->
    (3 <= List.length (Route.segments route))%nat ->
    exists a g',
      _analyze_single_route route departure_date vessel_speed g = inr (a, g')
      /\ forall score,
           let items := _generate_action_items (Analysis.with_score a score) in
           firstn 3 items
           = ["Confirm vessel readiness for departure";
              "Brief crew on selected route and conditions";
              "Establish communication schedule with shore support"]%string
           /\ skipn (List.length items - 2) items
              = ["Review security protocols";
                 "Monitor news updates for affected areas"]%string
           /\ In (List.length items) [5; 7; 9]%nat.
Proof.
  intros route dep v g N V D Three.
  destruct (analyze_single_route_returns route dep v N V D g) as (a & g' & E & _).
  exists a, g'. split; [exact E |].
  destruct (analysis_consistent route dep v g a g' E)
    as (_ & _ & _ & _ & _ & _ & _ & _ & _ & Events & _).
  intro score. cbv zeta. unfold _generate_action_items.
  cbn [Analysis.with_score Analysis.weather_analysis Analysis.traffic_analysis
       Analysis.news_analysis].
  assert (Many : Nat.ltb 5 (NewsAnalysis.total_events (Analysis.news_analysis a)) = true).
  { apply Nat.ltb_lt. lia. }
  rewrite Many.
  destruct (medium_or_high _), (medium_or_high _); cbn; repeat split; auto 6.
Qed.

Lemma action_items_always_review_security_witness :
  exists a g',
    _analyze_single_route (nth 0 cape_town_routes lane_route) 100%Z 22 rough_tape
    = inr (a, g')
    /\ forall score,
         let items := _generate_action_items (Analysis.with_score a score) in
         firstn 3 items
         = ["Confirm vessel readiness for departure";
            "Brief crew on selected route and conditions";
            "Establish communication schedule with shore support"]%string
         /\ skipn (List.length items - 2) items
            = ["Review security protocols";
               "Monitor news updates for affected areas"]%string
         /\ In (List.length items) [5; 7; 9]%nat.
Proof.
  apply (action_items_always_review_security (nth 0 cape_town_routes lane_route)
           100%Z 22 rough_tape).
  - vm_compute. intros s [<- | [<- | [<- | [<- | []]]]]; discriminate.
  - discriminate.
  - vm_compute. discriminate.
  - vm_compute. lia.
Defined.

(** X30. On an analysed route every factor shows up once in the report:
    the weather, the traffic and the events each give either an advantage
    (label Low) or a risk (any other label), never both and never neither,
    so the advantages and the risks together number 3, or 4 when the score
    is above 80; the risks are empty exactly when all three labels are
    Low. *)
Theorem each_factor_is_advantage_or_risk :
  forall (route : Route.t) (departure_date : date) (vessel_speed : Q) (g : Rng),
    (forall s, In s (Route.segments route) -> Segment.coordinates s <> []) ->
    ~ vessel_speed == 0 ->
    ~ Route.total_distance_nm route == 0 ->
    exists a g',
      _analyze_single_route route departure_date vessel_speed g = inr (a, g')
      /\ forall score,
           let scored := Analysis.with_score a score in
           (List.length (_get_route_advantages scored)
            + List.length (_get_route_risks scored)
            = 3 + (if Qltb 80 score then 1 else 0))%nat
           /\ (_get_route_risks scored = [] <-> low_on_every_factor a).
Proof.
  intros route dep v g N V D.
  destruct (analyze_single_route_returns route dep v N V D g) as (a & g' & E & _).
  exists a, g'. split; [exact E |].
  destruct (analysis_consistent route dep v g a g' E)
    as (_ & _ & _ & _ & _ & Weather & Traffic & _).
  intro score. cbv zeta.
  unfold _get_route_advantages, _get_route_risks, low_on_every_factor. cbv zeta.
  cbn [Analysis.with_score Analysis.weather_analysis Analysis.traffic_analysis
       Analysis.news_analysis score_key Analysis.route_score].
  destruct (WeatherAnalysis.overall_risk (Analysis.weather_analysis a));
    try contradiction;
    destruct (TrafficAnalysis.overall_congestion (Analysis.traffic_analysis a));
    try contradiction;
    destruct (NewsAnalysis.overall_risk_assessment (Analysis.news_analysis a));
    destruct (Qltb 80 score);
    cbn [Level_eqb medium_or_high app List.length Nat.add];
    (split; [reflexivity |]);
    (split; [try discriminate; intros _; repeat split
            | intros (A & B & C); try discriminate; reflexivity]).
Qed.

Lemma each_factor_is_advantage_or_risk_witness :
  exists a g',
    _analyze_single_route lane_route 100%Z 20 rough_tape = inr (a, g')
    /\ forall score,
         let scored := Analysis.with_score a score in
         (List.length (_get_route_advantages scored)
          + List.length (_get_route_risks scored)
          = 3 + (if Qltb 80 score then 1 else 0))%nat
         /\ (_get_route_risks scored = [] <-> low_on_every_factor a).
Proof.
  apply (each_factor_is_advantage_or_risk lane_route 100%Z 20 rough_tape).
  - intros s [<- | [<- | []]]; discriminate.
  - discriminate.
  - discriminate.
Defined.
